(** * server.js: the verification-and-award server, embedded and verified

    The development follows src/server.js top to bottom:
    - [Js]      the fragment of JavaScript the handlers rely on: numbers
                (IEEE doubles), JSON values, property reads through the
                prototype chain, [||], [+], [==], [===], [toLowerCase],
                [Object.assign], [JSON.stringify];
    - [Store]   the three files of the data directory, [readJson] and
                [writeJson], in a state-and-exception monad;
    - [Server]  the request handlers;
    - the lemmas about them.

    Modelling boundaries, stated once:
    - a number is an IEEE double; [-0] is not told from [0] (no operation of
      the server tells them apart: both are falsy, print as [0] and add
      alike);
    - a string is a sequence of bytes; [toLowerCase] lower-cases the ASCII
      letters (none of the keys the server looks up contains a letter that a
      non-ASCII character lower-cases to);
    - a file of the data directory is described by what [fs.readFileSync]
      followed by [JSON.parse] makes of it: absent, not parseable, or a JSON
      value, of any shape;
    - a parsed object lists its properties in the order JavaScript enumerates
      them, array-index keys first in ascending order, and has one property
      per key;
    - a request body is what body-parser or multer left in [req.body]: an
      object, an array, or nothing;
    - [Object.assign] onto a target that is no plain object (an array, or a
      number, string or boolean, which it wraps) is not described: the
      handlers are parametrised by what the engine makes of it;
    - [fs.writeFileSync] succeeds when given a text. *)

From Stdlib Require Import ZArith String Ascii DecimalString DecimalZ DecimalPos.
From stdpp Require Import base option list strings.

Set Warnings "-register-all".
Local Open Scope string_scope.
Local Open Scope list_scope.
Local Open Scope Z_scope.

(** ** Exceptions *)

(** [Throw] is a raised JavaScript exception (TypeError, SyntaxError, ENOENT):
    the handlers catch all of them in one [catch] clause and never look at
    which one it was. *)
Inductive result (A : Type) : Type :=
| Ok (a : A)
| Throw.
Arguments Ok {A} a.
Arguments Throw {A}.

#[global] Instance result_ret : MRet result := λ A a, Ok a.
#[global] Instance result_bind : MBind result := λ A B f m,
  match m with Ok a => f a | Throw => Throw end.
#[global] Instance result_fmap : FMap result := λ A B f m,
  match m with Ok a => Ok (f a) | Throw => Throw end.

Module Js.

(** *** Numbers *)

(** A JavaScript number.  A finite double is a multiple of 2^-1074 with at
    most 53 significant bits, below 2^1024 in magnitude.  [Int z] is the
    double whose value is the integer [z]; [Frac k] is the double
    [k * 2^-1074] when that is no integer. *)
Inductive number : Type :=
| Int (z : Z)
| Frac (k : Z)
| Inf (neg : bool)
| NaN.

Coercion Int : Z >-> number.

(** The number 1, counted in multiples of 2^-1074. *)
Definition one : Z := 2 ^ 1074.

(** [a / d] rounded to the nearest integer, a tie to the even one
    ([0 ≤ a], [0 < d]). *)
Definition div_nearest_even (a d : Z) : Z :=
  let q := a / d in
  let r := a mod d in
  if 2 * r <? d then q
  else if d <? 2 * r then q + 1
  else if Z.even q then q else q + 1.

(** The integer with at most 53 significant bits nearest to [a / d], a tie
    to the one whose 53rd bit is even: what remains of the quotient below
    the 53rd bit is rounded away. *)
Definition nearest (a d : Z) : Z :=
  let s := Z.max 0 (Z.log2 (a / d) - 52) in
  div_nearest_even a (d * 2 ^ s) * 2 ^ s.

(** The double of magnitude [k * 2^-1074], where [k] has been rounded:
    from 2^1024 on it is an infinity. *)
Definition of_magnitude (neg : bool) (k : Z) : number :=
  if 2 ^ 2098 <=? k then Inf neg
  else if k mod one =? 0
       then Int (if neg then - (k / one) else k / one)
       else Frac (if neg then - k else k).

(** The double nearest to the fraction [a / d] ([0 ≤ a], [0 < d]). *)
Definition of_ratio (neg : bool) (a d : Z) : number :=
  of_magnitude neg (nearest (a * one) d).

(** The double nearest to the integer [z]. *)
Definition of_Z (z : Z) : number :=
  let a := nearest (Z.abs z) 1 in
  if 2 ^ 1024 <=? a then Inf (z <? 0) else Int (Z.sgn z * a).

(** The value of a finite number, in multiples of 2^-1074. *)
Definition magnitude (x : number) : Z :=
  match x with
  | Int z => z * one
  | Frac k => k
  | _ => 0
  end.

(** [a + b] on numbers: the exact sum, rounded. *)
Definition num_add (a b : number) : number :=
  match a, b with
  | NaN, _ | _, NaN => NaN
  | Inf x, Inf y => if Bool.eqb x y then Inf x else NaN
  | Inf x, _ | _, Inf x => Inf x
  | Int x, Int y => of_Z (x + y)
  | _, _ =>
      let k := magnitude a + magnitude b in
      of_magnitude (k <? 0) (nearest (Z.abs k) 1)
  end.

(** Equality of numbers: [NaN] equals nothing.  (A double has one form: an
    integer is never written [Frac].) *)
Definition num_eq (a b : number) : bool :=
  match a, b with
  | Int x, Int y => x =? y
  | Frac x, Frac y => x =? y
  | Inf x, Inf y => Bool.eqb x y
  | _, _ => false
  end.

Definition is_finite (x : number) : bool :=
  match x with
  | Int _ | Frac _ => true
  | _ => false
  end.

(** *** Strings *)

Definition lower_ascii (a : ascii) : ascii :=
  let n := nat_of_ascii a in
  if (Nat.leb 65 n && Nat.leb n 90)%bool then ascii_of_nat (n + 32) else a.

Fixpoint toLowerCase (s : string) : string :=
  match s with
  | EmptyString => EmptyString
  | String a r => String (lower_ascii a) (toLowerCase r)
  end.

(** The decimal digits of an integer, with a minus sign in front of a
    negative one. *)
Definition decimal (z : Z) : string := NilZero.string_of_int (Z.to_int z).

Fixpoint zeros (n : nat) : string :=
  match n with
  | O => EmptyString
  | S k => String "0" (zeros k)
  end.

(** *** Number to string *)

(** [Number.prototype.toString] follows the language definition: of a positive
    finite [x] it prints the shortest digits [s] (there are [k] of them) and
    the exponent [n] such that [s * 10^(n-k)] reads back as [x], then lays
    them out as an integer, a fraction or in exponent notation. *)

(** [10^g ≤ x], for [x = m * 2^-1074]. *)
Definition at_least_pow10 (m g : Z) : bool :=
  if 0 <=? g then one * 10 ^ g <=? m else one <=? m * 10 ^ (- g).

(** The [n] with [10^(n-1) ≤ x < 10^n]. *)
Definition magnitude10 (m : Z) : Z :=
  let g := Z.of_nat (String.length (decimal m)) - Z.of_nat (String.length (decimal one)) in
  if at_least_pow10 m g then g + 1 else g.

(** [⌊x / 10^e⌋] *)
Definition scaled_floor (m e : Z) : Z :=
  if 0 <=? e then m / (one * 10 ^ e) else (m * 10 ^ (- e)) / one.

(** The numeral [s * 10^e] is read as [x]. *)
Definition reads_as (s e m : Z) : bool :=
  (if 0 <=? e then nearest (s * 10 ^ e * one) 1 else nearest (s * one) (10 ^ (- e))) =? m.

(** Of two numerals that both read as [x], the one nearer to [x] is chosen,
    the even one under a tie. *)
Definition nearer (lo e m : Z) : Z :=
  let hi := lo + 1 in
  let below := if 0 <=? e then m - lo * 10 ^ e * one else m * 10 ^ (- e) - lo * one in
  let above := if 0 <=? e then hi * 10 ^ e * one - m else hi * one - m * 10 ^ (- e) in
  if below <? above then lo
  else if above <? below then hi
  else if Z.even lo then lo else hi.

(** The shortest digits: numerals of 1, 2, ... digits are tried in turn
    (17 always suffice for a double). *)
Fixpoint shortest (tries : nat) (m n k : Z) : Z * Z :=
  let e := n - k in
  let lo := scaled_floor m e in
  match tries with
  | O => (lo, e)
  | S t =>
      match reads_as lo e m, reads_as (lo + 1) e m with
      | true, true => (nearer lo e m, e)
      | true, false => (lo, e)
      | false, true => (lo + 1, e)
      | false, false => shortest t m n (k + 1)
      end
  end.

(** The layout of the digits [ds] of [s], where [x = s * 10^(n-k)] and [k] is
    the number of digits. *)
Definition layout (ds : string) (n : Z) : string :=
  let k := Z.of_nat (String.length ds) in
  if ((k <=? n) && (n <=? 21))%bool then ds +:+ zeros (Z.to_nat (n - k))
  else if ((0 <? n) && (n <=? 21))%bool
  then substring 0 (Z.to_nat n) ds +:+ "." +:+ substring (Z.to_nat n) (Z.to_nat (k - n)) ds
  else if ((-6 <? n) && (n <=? 0))%bool then "0." +:+ zeros (Z.to_nat (- n)) +:+ ds
  else
    let e := n - 1 in
    let es := (if e <? 0 then "-" else "+") +:+ decimal (Z.abs e) in
    if k =? 1 then ds +:+ "e" +:+ es
    else substring 0 1 ds +:+ "." +:+ substring 1 (Z.to_nat (k - 1)) ds +:+ "e" +:+ es.

(** The digits of a positive [x = m * 2^-1074].  If the numeral found is a
    power of ten one digit longer ([x] lies just below it), its digit is
    1. *)
Definition positive_to_string (m : Z) : string :=
  let n := magnitude10 m in
  let (s, e) := shortest 17 m n 1 in
  let ds := decimal s in
  let k := Z.of_nat (String.length ds) in
  if s =? 10 ^ (k - 1) then layout "1" (k + e) else layout ds (k + e).

(** [String(x)] *)
Definition number_to_string (x : number) : string :=
  match x with
  | NaN => "NaN"
  | Inf neg => if neg then "-Infinity" else "Infinity"
  | _ =>
      let m := magnitude x in
      if m =? 0 then "0"
      else if m <? 0 then "-" +:+ positive_to_string (- m)
      else positive_to_string m
  end.

(** *** String to number *)

(** The white space [Number] skips around a numeral, as UTF-8: TAB, LF, VT,
    FF, CR, SP, U+00A0, U+1680, U+2000 to U+200A, U+2028, U+2029, U+202F,
    U+205F, U+3000, U+FEFF. *)
Definition bytes (l : list nat) : string :=
  fold_right (λ n s, String (ascii_of_nat n) s) EmptyString l.

Definition white_space : list string :=
  map bytes
    ([[9]; [10]; [11]; [12]; [13]; [32]; [194; 160]; [225; 154; 128]]
     ++ map (λ n, [226; 128; n])
          [128; 129; 130; 131; 132; 133; 134; 135; 136; 137; 138; 168; 169; 175]
     ++ [[226; 129; 159]; [227; 128; 128]; [239; 187; 191]])%nat.

Fixpoint drop_prefix (p s : string) : option string :=
  match p, s with
  | EmptyString, _ => Some s
  | String a p', String b s' => if Ascii.eqb a b then drop_prefix p' s' else None
  | String _ _, EmptyString => None
  end.

(** The number of bytes of the white-space character [s] starts with, 0 when
    it starts with none. *)
Definition ws_length (s : string) : nat :=
  match List.find (λ w, match drop_prefix w s with Some _ => true | None => false end)
                  white_space with
  | Some w => String.length w
  | None => 0
  end.

Fixpoint trim_left_from (skip : nat) (s : string) : string :=
  match s with
  | EmptyString => EmptyString
  | String _ r =>
      match skip with
      | S k => trim_left_from k r
      | O =>
          match ws_length s with
          | O => s
          | S k => trim_left_from k r
          end
      end
  end.

Definition trim_left : string → string := trim_left_from 0.

(** [s], after its first [skip] bytes, is white space only. *)
Fixpoint all_ws_from (skip : nat) (s : string) : bool :=
  match s with
  | EmptyString => true
  | String _ r =>
      match skip with
      | S k => all_ws_from k r
      | O =>
          match ws_length s with
          | O => false
          | S k => all_ws_from k r
          end
      end
  end.

Fixpoint trim_right (s : string) : string :=
  if all_ws_from 0 s then EmptyString
  else
    match s with
    | EmptyString => EmptyString
    | String a r => String a (trim_right r)
    end.

Definition is_digit (a : ascii) : bool :=
  let n := nat_of_ascii a in (Nat.leb 48 n && Nat.leb n 57)%bool.

(** The decimal digits [s] starts with, and what follows them. *)
Fixpoint span_digits (s : string) : string * string :=
  match s with
  | EmptyString => (EmptyString, EmptyString)
  | String a r =>
      if is_digit a
      then let (ds, rest) := span_digits r in (String a ds, rest)
      else (EmptyString, s)
  end.

(** The value of a non-empty sequence of decimal digits. *)
Definition digits_value (ds : string) : option Z :=
  Z.of_uint <$> NilZero.uint_of_string ds.

(** ExponentPart, if any: [e] or [E] and a signed integer. *)
Definition exponent (s : string) : option Z :=
  match s with
  | EmptyString => Some 0
  | String a r =>
      if (Ascii.eqb a "e" || Ascii.eqb a "E")%bool then
        match r with
        | EmptyString => None
        | String b r' =>
            if Ascii.eqb b "+" then digits_value r'
            else if Ascii.eqb b "-" then Z.opp <$> digits_value r'
            else digits_value r
        end
      else None
  end.

(** What an unsigned numeral denotes: a fraction [a / d], or infinity. *)
Inductive numeral : Type :=
| Ratio (a d : Z)
| Infinite.

(** StrUnsignedDecimalLiteral: [Infinity], or digits, an optional fraction,
    an optional exponent, with a digit before or after the point. *)
Definition unsigned_decimal (s : string) : option numeral :=
  if String.eqb s "Infinity" then Some Infinite
  else
    let (ip, r1) := span_digits s in
    let (fp, r2) :=
      match r1 with
      | String a r => if Ascii.eqb a "." then span_digits r else (EmptyString, r1)
      | EmptyString => (EmptyString, r1)
      end in
    if (String.eqb ip "" && String.eqb fp "")%bool then None
    else
      e ← exponent r2;
      m ← digits_value (ip +:+ fp);
      let k := e - Z.of_nat (String.length fp) in
      Some (if 0 <=? k then Ratio (m * 10 ^ k) 1 else Ratio m (10 ^ (- k))).

Definition digit_of (a : ascii) : option Z :=
  let n := Z.of_nat (nat_of_ascii a) in
  if ((48 <=? n) && (n <=? 57))%bool then Some (n - 48)
  else if ((97 <=? n) && (n <=? 102))%bool then Some (n - 87)
  else if ((65 <=? n) && (n <=? 70))%bool then Some (n - 55)
  else None.

Fixpoint radix_value (base acc : Z) (s : string) : option Z :=
  match s with
  | EmptyString => Some acc
  | String a r =>
      match digit_of a with
      | Some v => if v <? base then radix_value base (acc * base + v) r else None
      | None => None
      end
  end.

(** NonDecimalIntegerLiteral: [0x], [0o] or [0b], in either case, and digits
    of that base.  The outer [None] says that [s] has no such prefix. *)
Definition radix_literal (s : string) : option (option Z) :=
  match s with
  | String z (String x r) =>
      if Ascii.eqb z "0" then
        let base :=
          if (Ascii.eqb x "x" || Ascii.eqb x "X")%bool then Some 16
          else if (Ascii.eqb x "o" || Ascii.eqb x "O")%bool then Some 8
          else if (Ascii.eqb x "b" || Ascii.eqb x "B")%bool then Some 2
          else None in
        match base with
        | Some b => Some (if String.eqb r "" then None else radix_value b 0 r)
        | None => None
        end
      else None
  | _ => None
  end.

(** The number a signed numeral is read as: the nearest double. *)
Definition numeral_value (neg : bool) (v : option numeral) : number :=
  match v with
  | Some (Ratio a d) => if d =? 1 then of_Z (if neg then - a else a) else of_ratio neg a d
  | Some Infinite => Inf neg
  | None => NaN
  end.

(** [Number(s)]: white space around, then nothing (0), a radix literal, or a
    signed decimal literal; [NaN] for any other text. *)
Definition str_to_number (s : string) : number :=
  match trim_right (trim_left s) with
  | EmptyString => Int 0
  | String a r as t =>
      match radix_literal t with
      | Some (Some z) => of_Z z
      | Some None => NaN
      | None =>
          if Ascii.eqb a "+" then numeral_value false (unsigned_decimal r)
          else if Ascii.eqb a "-" then numeral_value true (unsigned_decimal r)
          else numeral_value false (unsigned_decimal t)
      end
  end.

(** *** Values *)

(** What [JSON.parse] produces.  An object lists its properties in
    enumeration order, one per key.  A numeral too large for a double is
    parsed as an infinity; [NaN] is never parsed. *)
Inductive json : Type :=
| JNull
| JBool (b : bool)
| JNum (x : number)
| JStr (s : string)
| JArr (l : list json)
| JObj (o : list (string * json)).

Abbreviation jobj := (list (string * json)) (only parsing).

(** Built-in objects that a property read on a plain object can reach through
    [Object.prototype]. *)
Inductive native : Type :=
| ObjectCtor                     (* the function [Object] *)
| ObjectProto                    (* [Object.prototype] *)
| ProtoMethod (name : string).   (* a method of [Object.prototype] *)

(** A value held by a variable, a property or an array element while a
    handler runs. *)
Inductive value : Type :=
| VUndefined
| VNull
| VBool (b : bool)
| VNum (x : number)
| VStr (s : string)
| VArr (l : list value)
| VObj (o : list (string * value))
| VNative (n : native).

Abbreviation VNaN := (VNum NaN).

(** The properties of an object a handler reads and mutates. *)
Abbreviation obj := (list (string * value)) (only parsing).

(** The value [JSON.parse] returns for a JSON text. *)
Fixpoint thaw (j : json) : value :=
  match j with
  | JNull => VNull
  | JBool b => VBool b
  | JNum x => VNum x
  | JStr s => VStr s
  | JArr l => VArr (thaw <$> l)
  | JObj o => VObj ((λ kv, (kv.1, thaw kv.2)) <$> o)
  end.

(** *** Property access *)

Fixpoint get_own {A} (o : list (string * A)) (k : string) : option A :=
  match o with
  | [] => None
  | (k', v) :: r => if String.eqb k' k then Some v else get_own r k
  end.

Definition has_key {A} (o : list (string * A)) (k : string) : bool :=
  match get_own o k with Some _ => true | None => false end.

(** The properties every plain object inherits. *)
Definition proto_methods : list string :=
  [ "hasOwnProperty"; "isPrototypeOf"; "propertyIsEnumerable";
    "toLocaleString"; "toString"; "valueOf";
    "__defineGetter__"; "__defineSetter__";
    "__lookupGetter__"; "__lookupSetter__" ].

Definition Object_prototype_get (k : string) : value :=
  if String.eqb k "constructor" then VNative ObjectCtor
  else if String.eqb k "__proto__" then VNative ObjectProto
  else if existsb (String.eqb k) proto_methods then VNative (ProtoMethod k)
  else VUndefined.

(** [o[k]] and [o.k] on a plain object: own property first, then the
    prototype. *)
Definition get (o : obj) (k : string) : value :=
  match get_own o k with
  | Some v => v
  | None => Object_prototype_get k
  end.

(** [v.k], where [v] is any value and [k] is one of the property names the
    handlers read with a dot: [name], [id], [user], [action], [points],
    [co2].  No array, no wrapper of a primitive and no built-in object has
    or inherits a property of one of these names. *)
Definition get_prop (v : value) (k : string) : result value :=
  match v with
  | VUndefined | VNull => Throw
  | VObj o => Ok (get o k)
  | _ => Ok VUndefined
  end.

(** A key is an array index when it is the decimal form of an integer from 0
    to 2^32 - 2.  An object enumerates such keys first, in ascending
    order. *)
Definition array_index (k : string) : option Z :=
  match digits_value k with
  | Some n => if (String.eqb (decimal n) k && (n <? 2 ^ 32 - 1))%bool then Some n else None
  | None => None
  end.

Fixpoint replace {A} (o : list (string * A)) (k : string) (v : A) : list (string * A) :=
  match o with
  | [] => []
  | (k', v') :: r => if String.eqb k' k then (k', v) :: r else (k', v') :: replace r k v
  end.

(** The place of a new array-index key [k], of index [n]: behind the smaller
    indices. *)
Fixpoint insert_index {A} (n : Z) (k : string) (v : A) (o : list (string * A)) : list (string * A) :=
  match o with
  | [] => [(k, v)]
  | (k', v') :: r =>
      match array_index k' with
      | Some m => if m <? n then (k', v') :: insert_index n k v r else (k, v) :: o
      | None => (k, v) :: o
      end
  end.

(** [o.k = v] on a plain object, for a key other than [__proto__]: replaces
    the value of an existing property in place, or adds the property, at the
    end unless the key is an array index. *)
Definition set {A} (o : list (string * A)) (k : string) (v : A) : list (string * A) :=
  if has_key o k then replace o k v
  else
    match array_index k with
    | Some n => insert_index n k v o
    | None => o ++ [(k, v)]
    end.

(** [v.k = w], where [k] is one of the property names the handlers assign
    with a dot: [id], [timestamp], [points], [co2], [status].  The file is
    not in strict mode: on a number, a string or a boolean the assignment
    does nothing.  On an array it adds a named property to the array, which
    no later code reads and [JSON.stringify] does not print. *)
Definition set_prop (v : value) (k : string) (w : value) : result value :=
  match v with
  | VUndefined | VNull => Throw
  | VObj o => Ok (VObj (set o k w))
  | _ => Ok v
  end.

(** [target[k] = v] as [Object.assign] does it on a plain object.  Assigning
    [__proto__] to an object that has no such property of its own runs the
    inherited setter, which changes the prototype and creates no
    property. *)
Definition assign_prop {A} (t : list (string * A)) (k : string) (v : A) : list (string * A) :=
  if (String.eqb k "__proto__" && negb (has_key t k))%bool then t else set t k v.

(** [Object.assign(target, u)] on a plain object [target]: every own
    property of [u], listed in [props], is assigned in order. *)
Definition Object_assign {A} (target props : list (string * A)) : list (string * A) :=
  fold_left (λ t kv, assign_prop t kv.1 kv.2) props target.

(** The own enumerable properties of an array: its elements under their
    indices. *)
Definition indexed {A} (l : list A) : list (string * A) :=
  imap (λ i x, (decimal (Z.of_nat i), x)) l.

(** [v.toLowerCase()]: only a string has the method. *)
Definition call_toLowerCase (v : value) : result string :=
  match v with
  | VStr s => Ok (toLowerCase s)
  | _ => Throw
  end.

(** *** Arrays *)

(** [arr.push(x)]: only an array has the method. *)
Definition push (arr x : value) : result value :=
  match arr with
  | VArr l => Ok (VArr (l ++ [x]))
  | _ => Throw
  end.

Fixpoint find_from {A} (p : A → result bool) (l : list A) : result (option nat) :=
  match l with
  | [] => Ok None
  | x :: r =>
      b ← p x;
      if b : bool then Ok (Some 0%nat) else fmap (M:=option) S <$> find_from p r
  end.

(** [arr.findIndex(p)]; [None] stands for -1.  Only an array has the method,
    and the callback may throw. *)
Definition findIndex (p : value → result bool) (arr : value) : result (option nat) :=
  match arr with
  | VArr l => find_from p l
  | _ => Throw
  end.

(** [arr[i]], for an index within the array. *)
Definition at_index (arr : value) (i : nat) : result value :=
  match arr with
  | VArr l => match l !! i with Some x => Ok x | None => Ok VUndefined end
  | _ => Throw
  end.

(** [arr[i] = x], for an index within the array. *)
Definition put_index (arr : value) (i : nat) (x : value) : result value :=
  match arr with
  | VArr l => Ok (VArr (<[i := x]> l))
  | _ => Throw
  end.

(** *** Conversions *)

Inductive prim : Type :=
| PUndefined
| PNull
| PBool (b : bool)
| PNum (n : number)
| PStr (s : string).

Definition native_to_string (n : native) : string :=
  match n with
  | ObjectCtor => "function Object() { [native code] }"
  | ObjectProto => "[object Object]"
  | ProtoMethod name => "function " +:+ name +:+ "() { [native code] }"
  end.

(** [String(v)].  An array joins its elements with commas, [null] and
    [undefined] elements as empty strings.  A plain object answers
    ["[object Object]"] through the inherited [toString], unless an own
    [toString] property (never a function in parsed JSON) hides it: then no
    conversion method is left and a TypeError is raised. *)
Fixpoint to_string (v : value) : result string :=
  match v with
  | VUndefined => Ok "undefined"
  | VNull => Ok "null"
  | VBool b => Ok (if b then "true" else "false")
  | VNum x => Ok (number_to_string x)
  | VStr s => Ok s
  | VArr l =>
      (fix join (l : list value) : result string :=
         match l with
         | [] => Ok ""
         | x :: r =>
             a ← match x with VNull | VUndefined => Ok "" | _ => to_string x end;
             match r with
             | [] => Ok a
             | _ => b ← join r; Ok (a +:+ "," +:+ b)
             end
         end) l
  | VObj o => if has_key o "toString" then Throw else Ok "[object Object]"
  | VNative n => Ok (native_to_string n)
  end.

(** [ToPrimitive] with the default hint. *)
Definition to_primitive (v : value) : result prim :=
  match v with
  | VUndefined => Ok PUndefined
  | VNull => Ok PNull
  | VBool b => Ok (PBool b)
  | VNum x => Ok (PNum x)
  | VStr s => Ok (PStr s)
  | _ => PStr <$> to_string v
  end.

Definition prim_to_string (p : prim) : string :=
  match p with
  | PUndefined => "undefined"
  | PNull => "null"
  | PBool b => if b then "true" else "false"
  | PNum x => number_to_string x
  | PStr s => s
  end.

Definition prim_to_number (p : prim) : number :=
  match p with
  | PUndefined => NaN
  | PNull => Int 0
  | PBool b => Int (if b then 1 else 0)
  | PNum n => n
  | PStr s => str_to_number s
  end.

Definition is_string (p : prim) : bool :=
  match p with PStr _ => true | _ => false end.

(** *** Operators *)

Definition truthy (v : value) : bool :=
  match v with
  | VUndefined | VNull => false
  | VBool b => b
  | VNum (Int z) => negb (z =? 0)
  | VNum (Frac k) => negb (k =? 0)
  | VNum (Inf _) => true
  | VNum NaN => false
  | VStr s => negb (String.eqb s "")
  | VArr _ | VObj _ | VNative _ => true
  end.

(** [a || b] *)
Definition js_or (a b : value) : value := if truthy a then a else b.

(** [a + b] *)
Definition js_add (a b : value) : result value :=
  pa ← to_primitive a;
  pb ← to_primitive b;
  if (is_string pa || is_string pb)%bool
  then Ok (VStr (prim_to_string pa +:+ prim_to_string pb))
  else Ok (VNum (num_add (prim_to_number pa) (prim_to_number pb))).

Definition is_nullish (v : value) : bool :=
  match v with VUndefined | VNull => true | _ => false end.

Definition is_object (v : value) : bool :=
  match v with
  | VArr _ | VObj _ | VNative _ => true
  | _ => false
  end.

(** [a === b], for two values that are not one and the same object (the two
    sides always come from different [JSON.parse] calls or literals). *)
Definition strict_eq (a b : value) : bool :=
  match a, b with
  | VUndefined, VUndefined => true
  | VNull, VNull => true
  | VBool x, VBool y => Bool.eqb x y
  | VNum x, VNum y => num_eq x y
  | VStr x, VStr y => String.eqb x y
  | _, _ => false
  end.

(** [a == b], under the same proviso. *)
Definition loose_eq (a b : value) : result bool :=
  if (is_nullish a || is_nullish b)%bool then Ok (is_nullish a && is_nullish b)%bool
  else if (is_object a && is_object b)%bool then Ok false
  else
    pa ← to_primitive a;
    pb ← to_primitive b;
    match pa, pb with
    | PStr x, PStr y => Ok (String.eqb x y)
    | _, _ => Ok (num_eq (prim_to_number pa) (prim_to_number pb))
    end.

(** *** JSON.stringify *)

(** What [JSON.stringify] makes of a value: nothing of [undefined] and of a
    function, [null] of [NaN] and of an infinity.  In an object a property
    of which nothing is made is left out, in an array it is written [null].
    [Object.prototype] has no enumerable property of its own.  (A [toJSON]
    property is only called when it is a function, which no parsed value
    is.) *)
Fixpoint serialize (v : value) : option json :=
  match v with
  | VUndefined => None
  | VNull => Some JNull
  | VBool b => Some (JBool b)
  | VNum x => Some (if is_finite x then JNum x else JNull)
  | VStr s => Some (JStr s)
  | VArr l => Some (JArr ((λ x, default JNull (serialize x)) <$> l))
  | VObj o => Some (JObj (omap (λ kv, pair kv.1 <$> serialize kv.2) o))
  | VNative ObjectProto => Some (JObj [])
  | VNative _ => None
  end.

(** The properties written for an object. *)
Definition stringify_obj (o : obj) : jobj :=
  omap (λ kv, pair kv.1 <$> serialize kv.2) o.

End Js.

(** ** The data directory *)

Module Store.
Import Js.

(** The text of a file, seen through [JSON.parse]. *)
Inductive content : Type :=
| Garbage                    (* [JSON.parse] raises a SyntaxError *)
| Parsed (j : json).         (* the text of the JSON value [j] *)

Inductive datafile : Type :=
| Absent                     (* [fs.readFileSync] raises *)
| Content (c : content).

Inductive path : Type :=
| reports_json
| users_json
| verifications_json.

Record disk : Type := Disk {
  reports : datafile;
  users : datafile;
  verifications : datafile
}.

Definition read (d : disk) (p : path) : datafile :=
  match p with
  | reports_json => reports d
  | users_json => users d
  | verifications_json => verifications d
  end.

Definition write (d : disk) (p : path) (f : datafile) : disk :=
  match p with
  | reports_json => Disk f (users d) (verifications d)
  | users_json => Disk (reports d) f (verifications d)
  | verifications_json => Disk (reports d) (users d) f
  end.

(** Computations that read and write the disk and may throw.  What was written
    before an exception stays written. *)
Definition M (A : Type) : Type := disk → result A * disk.

#[global] Instance M_ret : MRet M := λ A a d, (Ok a, d).
#[global] Instance M_bind : MBind M := λ A B f m d,
  match m d with
  | (Ok a, d') => f a d'
  | (Throw, d') => (Throw, d')
  end.

Definition lift {A} (r : result A) : M A := λ d, (r, d).

(** [try { m } catch (e) { h }] *)
Definition try_catch {A} (m h : M A) : M A := λ d,
  match m d with
  | (Ok a, d') => (Ok a, d')
  | (Throw, d') => h d'
  end.

Definition readFileSync (p : path) : M content := λ d,
  match read d p with
  | Absent => (Throw, d)
  | Content c => (Ok c, d)
  end.

(** [fs.writeFileSync(p, data)]: a TypeError, before the file is touched,
    when [data] is [undefined] rather than a text. *)
Definition writeFileSync (p : path) (data : option content) : M unit := λ d,
  match data with
  | Some c => (Ok (), write d p (Content c))
  | None => (Throw, d)
  end.

Definition JSON_parse (c : content) : result value :=
  match c with
  | Garbage => Throw
  | Parsed j => Ok (thaw j)
  end.

(** [JSON.stringify(v, null, 2)]: a text, or [undefined]. *)
Definition JSON_stringify (v : value) : option content :=
  Parsed <$> serialize v.

(** server.js, lines 51-54. *)
Definition readJson (p : path) : M value :=
  try_catch (c ← readFileSync p; lift (JSON_parse c)) (mret (VArr [])).

Definition writeJson (p : path) (v : value) : M unit :=
  writeFileSync p (JSON_stringify v).

(** [fs.existsSync(p)] *)
Definition existsSync (p : path) : M bool := λ d,
  (Ok (match read d p with Absent => false | Content _ => true end), d).

(** server.js, lines 16-18. *)
Definition ensureFile (p : path) (defaultContent : content) : M unit :=
  e ← existsSync p;
  if negb e then writeFileSync p (Some defaultContent) else mret ().

(** server.js, lines 19-21, run once when the server starts.  The default text
    ['[]'] parses as the empty array. *)
Definition ensure_data_files : M unit :=
  ensureFile reports_json (Parsed (JArr []));;
  ensureFile users_json (Parsed (JArr []));;
  ensureFile verifications_json (Parsed (JArr [])).

(** What [readJson] returns for a file, as JSON. *)
Definition stored (d : disk) (p : path) : json :=
  match read d p with
  | Content (Parsed j) => j
  | _ => JArr []
  end.

(** The collection a file stands for: the elements of the array [readJson]
    returns (none when it returns something else). *)
Definition collection (d : disk) (p : path) : list json :=
  match stored d p with
  | JArr l => l
  | _ => []
  end.

End Store.

(** ** The request handlers *)

Module Server.
Import Js Store.

(** [req.file], as multer leaves it. *)
Record upload : Type := Upload {
  size : Z;
  filename : string;
  originalname : string
}.

(** The two readings of the clock a handler takes: [Date.now()], an integer
    number of milliseconds, and [new Date().toISOString()]. *)
Record clock : Type := Clock {
  now : Z;
  iso : string
}.

(** [req.body]: body-parser leaves the object or the array it parsed, multer
    the object it built from the text fields of a multipart form (a string
    for a field sent once, an array or an object for a field sent several
    times or with brackets in its name), and nothing is left when no body
    was parsed. *)
Inductive payload : Type :=
| NoBody
| ObjectBody (o : jobj)
| ArrayBody (l : list json).

Definition body_value (b : payload) : value :=
  match b with
  | NoBody => VUndefined
  | ObjectBody o => thaw (JObj o)
  | ArrayBody l => thaw (JArr l)
  end.

(** The own enumerable properties of a body. *)
Definition own_properties (b : payload) : obj :=
  match b with
  | NoBody => []
  | ObjectBody o => (λ kv, (kv.1, thaw kv.2)) <$> o
  | ArrayBody l => indexed (thaw <$> l)
  end.

(** The request of POST /api/verify: [req.body] and [req.file]. *)
Record form : Type := Form {
  fields : payload;
  file : option upload
}.

(** [req.file] is truthy when multer stored a file. *)
Definition present {A} (f : option A) : bool :=
  match f with
  | Some _ => true
  | None => false
  end.

(** [req.file.k]: a TypeError when there is no file. *)
Definition file_prop {A} (f : option upload) (k : upload → A) : result A :=
  match f with
  | Some u => Ok (k u)
  | None => Throw
  end.

(** An HTTP response: the status code and the JSON sent. *)
Record response : Type := Response {
  status : Z;
  body : json
}.

(** [res.status(code).json(o)] for an object literal [o]. *)
Definition res_json (code : Z) (o : obj) : response :=
  Response code (JObj (stringify_obj o)).

Definition error_500 : response := res_json 500 [("status", VStr "error")].

(** server.js, lines 57-59, 76-78, 153-155: [res.json(readJson(p))].
    [readJson] returns a parsed value or an empty array, of which
    [JSON.stringify] always makes a text. *)
Definition get_collection (p : path) : M response :=
  arr ← readJson p;
  mret (Response 200 (default JNull (serialize arr))).

(** server.js, lines 61-73. *)
Definition post_reports (c : clock) (b : payload) : M response :=
  try_catch
    (arr ← readJson reports_json;
     let rec := body_value b in
     rec ← lift (set_prop rec "id" (VNum (now c)));
     rec ← lift (set_prop rec "timestamp" (VStr (iso c)));
     arr ← lift (push arr rec);
     writeJson reports_json arr;;
     mret (res_json 200 [("status", VStr "ok"); ("rec", rec)]))
    (mret error_500).

Section Upsert.

(** [JSON.stringify(Object.assign(target, u))] for a [target] that is an
    array or a number, a string or a boolean: what is written for the
    result, or a TypeError.  Not described here; the handler is defined for
    whatever the engine does. *)
Variable assign_wrapped : value → payload → result json.

(** [Object.assign(target, u)] *)
Definition upsert_target (target : value) (u : payload) : result value :=
  match target with
  | VUndefined | VNull => Throw
  | VObj o => Ok (VObj (Object_assign o (own_properties u)))
  | _ => thaw <$> assign_wrapped target u
  end.

(** server.js, lines 80-96. *)
Definition post_users (b : payload) : M response :=
  try_catch
    (let u := body_value b in
     arr ← readJson users_json;
     idx ← lift (findIndex (λ x, n ← get_prop x "name";
                                 m ← get_prop u "name";
                                 Ok (strict_eq n m)) arr);
     arr ← match idx with
           | Some i =>
               x ← lift (at_index arr i);
               x ← lift (upsert_target x b);
               lift (put_index arr i x)
           | None => lift (push arr u)
           end;
     writeJson users_json arr;;
     mret (res_json 200 [("status", VStr "ok")]))
    (mret error_500).

End Upsert.

(** server.js, line 125. *)
Definition verify_mapping : obj :=
  [ ("plant", VObj [("points", VNum 20); ("co2", VNum 20)]);
    ("clean", VObj [("points", VNum 10); ("co2", VNum 10)]);
    ("awareness", VObj [("points", VNum 5); ("co2", VNum 5)]) ].

(** server.js, line 129. *)
Definition verify_award (action : value) : result value :=
  k ← call_toLowerCase action;
  Ok (js_or (get verify_mapping k) (VObj [("points", VNum 0); ("co2", VNum 0)])).

(** server.js, lines 131-140. *)
Definition verify_credit (user award : value) : M unit :=
  users ← readJson users_json;
  idx ← lift (findIndex (λ x, n ← get_prop x "name"; Ok (strict_eq n user)) users);
  users ← match idx with
          | Some i =>
              x ← lift (at_index users i);
              p0 ← lift (get_prop x "points");
              ap ← lift (get_prop award "points");
              p ← lift (js_add (js_or p0 (VNum 0)) ap);
              x ← lift (set_prop x "points" p);
              c0 ← lift (get_prop x "co2");
              ac ← lift (get_prop award "co2");
              c ← lift (js_add (js_or c0 (VNum 0)) ac);
              x ← lift (set_prop x "co2" c);
              lift (put_index users i x)
          | None =>
              ap ← lift (get_prop award "points");
              ac ← lift (get_prop award "co2");
              lift (push users (VObj [("name", user); ("points", ap); ("co2", ac)]))
          end;
  writeJson users_json users.

(** server.js, lines 99-150. *)
Definition post_verify (c : clock) (req : form) : M response :=
  try_catch
    (user ← lift (get_prop (body_value (fields req)) "user");
     action ← lift (get_prop (body_value (fields req)) "action");
     if (negb (truthy user) || negb (truthy action) || negb (present (file req)))%bool
     then mret (res_json 400 [("status", VStr "error"); ("message", VStr "Missing fields")])
     else
       arr ← readJson verifications_json;
       sz ← lift (file_prop (file req) size);
       let accepted := 2048 <? sz in
       fname ← lift (file_prop (file req) filename);
       oname ← lift (file_prop (file req) originalname);
       let record : obj :=
         [ ("id", VNum (now c));
           ("user", user);
           ("action", action);
           ("filename", VStr fname);
           ("originalName", VStr oname);
           ("status", VStr (if accepted then "accepted" else "pending"));
           ("timestamp", VStr (iso c)) ] in
       arr ← lift (push arr (VObj record));
       writeJson verifications_json arr;;
       if accepted then
         award ← lift (verify_award action);
         verify_credit user award;;
         mret (res_json 200 [("status", VStr "accepted");
                             ("id", get record "id");
                             ("award", award)])
       else
         mret (res_json 200 [("status", VStr "pending");
                             ("id", get record "id");
                             ("filename", get record "filename")]))
    (mret error_500).

(** server.js, line 171. *)
Definition approve_mapping : obj :=
  [ ("plant", VObj [("points", VNum 20); ("co2", VNum 20)]);
    ("clean", VObj [("points", VNum 10); ("co2", VNum 10)]);
    ("awareness", VObj [("points", VNum 5); ("co2", VNum 5)]) ].

(** server.js, line 172. *)
Definition approve_award (action : value) : result value :=
  k ← call_toLowerCase action;
  Ok (js_or (get approve_mapping k) (VObj [("points", VNum 0); ("co2", VNum 0)])).

(** server.js, lines 174-184. *)
Definition approve_credit (userName award : value) : M unit :=
  users ← readJson users_json;
  uidx ← lift (findIndex (λ x, n ← get_prop x "name"; Ok (strict_eq n userName)) users);
  users ← match uidx with
          | Some i =>
              x ← lift (at_index users i);
              p0 ← lift (get_prop x "points");
              ap ← lift (get_prop award "points");
              p ← lift (js_add (js_or p0 (VNum 0)) ap);
              x ← lift (set_prop x "points" p);
              c0 ← lift (get_prop x "co2");
              ac ← lift (get_prop award "co2");
              c ← lift (js_add (js_or c0 (VNum 0)) ac);
              x ← lift (set_prop x "co2" c);
              lift (put_index users i x)
          | None =>
              ap ← lift (get_prop award "points");
              ac ← lift (get_prop award "co2");
              lift (push users (VObj [("name", userName); ("points", ap); ("co2", ac)]))
          end;
  writeJson users_json users.

(** server.js, lines 158-191.  [const { id } = req.body] is a TypeError when
    there is no body. *)
Definition post_approve (b : payload) : M response :=
  try_catch
    (id ← lift (get_prop (body_value b) "id");
     arr ← readJson verifications_json;
     idx ← lift (findIndex (λ x, xi ← get_prop x "id"; loose_eq xi id) arr);
     match idx with
     | None => mret (res_json 404 [("status", VStr "error"); ("message", VStr "Not found")])
     | Some i =>
         x ← lift (at_index arr i);
         x ← lift (set_prop x "status" (VStr "accepted"));
         arr ← lift (put_index arr i x);
         writeJson verifications_json arr;;
         x ← lift (at_index arr i);
         action ← lift (get_prop x "action");
         award ← lift (approve_award action);
         x ← lift (at_index arr i);
         userName ← lift (get_prop x "user");
         approve_credit userName award;;
         mret (res_json 200 [("status", VStr "ok"); ("award", award)])
     end)
    (mret error_500).

(** The routes of the application (the [app.get] and [app.post] calls), with
    what each handler reads from the request and from the clock. *)
Inductive request : Type :=
| GET_reports
| POST_reports (c : clock) (b : payload)
| GET_users
| POST_users (b : payload)
| POST_verify (c : clock) (req : form)
| GET_verifications
| POST_approve (b : payload).

Definition serve (assign_wrapped : value → payload → result json) (r : request) : M response :=
  match r with
  | GET_reports => get_collection reports_json
  | POST_reports c b => post_reports c b
  | GET_users => get_collection users_json
  | POST_users b => post_users assign_wrapped b
  | POST_verify c req => post_verify c req
  | GET_verifications => get_collection verifications_json
  | POST_approve b => post_approve b
  end.

End Server.

(** * Vocabulary of the statements *)

Import Js Store Server.

(** What the engine makes of [Object.assign] onto a target that is no plain
    object: a parameter of POST /api/users. *)
Abbreviation engine := (value → payload → result json) (only parsing).

(** What is written back of a JSON value that was read: a numeral beyond the
    range of doubles was parsed as an infinity, and is written [null]. *)
Fixpoint settle (j : json) : json :=
  match j with
  | JNum x => if is_finite x then JNum x else JNull
  | JArr l => JArr (settle <$> l)
  | JObj o => JObj ((λ kv, (kv.1, settle kv.2)) <$> o)
  | _ => j
  end.

Definition settle_obj (o : jobj) : jobj := (λ kv, (kv.1, settle kv.2)) <$> o.

(** The properties of a parsed object, as values. *)
Definition thaw_obj (o : jobj) : obj := (λ kv, (kv.1, thaw kv.2)) <$> o.

(** The index of the first element that satisfies [f]. *)
Fixpoint first_index {A} (f : A → bool) (l : list A) : option nat :=
  match l with
  | [] => None
  | x :: r => if f x then Some 0%nat else S <$> first_index f r
  end.

(** A test that may throw answers [b]. *)
Definition answers (b : bool) (r : result bool) : bool :=
  match r with
  | Ok c => Bool.eqb c b
  | Throw => false
  end.

(** The element at [i] is the first the test accepts: it answers false on
    the elements in front and true at [i]. *)
Definition first_at {A} (p : A → result bool) (l : list A) (i : nat) : bool :=
  (forallb (λ y, answers false (p y)) (take i l) &&
   match l !! i with Some x => answers true (p x) | None => false end)%bool.

(** The test answers false on every element. *)
Definition none_of {A} (p : A → result bool) (l : list A) : bool :=
  forallb (λ y, answers false (p y)) l.

(** The two names that pass through [toLowerCase] and that every object
    literal inherits. *)
Definition inherited (k : string) : bool :=
  (String.eqb k "constructor" || String.eqb k "__proto__")%bool.

(** The amount the mapping gives for a lower-cased action, 0 when it has no
    such key. *)
Definition amount_for (k : string) : Z :=
  if String.eqb k "plant" then 20
  else if String.eqb k "clean" then 10
  else if String.eqb k "awareness" then 5
  else 0.

Definition award_obj (n : Z) : json :=
  JObj [("points", JNum n); ("co2", JNum n)].

(** The test of [users.findIndex(x => x.name === user)] on a stored
    element. *)
Definition named (user : value) (x : json) : result bool :=
  n ← get_prop (thaw x) "name"; Ok (strict_eq n user).

(** The test of [arr.findIndex(x => x.id == id)] on a stored element. *)
Definition has_id (id : value) (x : json) : result bool :=
  xi ← get_prop (thaw x) "id"; loose_eq xi id.

(** [req.body.k], [undefined] without a body. *)
Definition field (b : payload) (k : string) : value :=
  match get_prop (body_value b) k with
  | Ok v => v
  | Throw => VUndefined
  end.

Definition has_body (b : payload) : bool :=
  match b with
  | NoBody => false
  | _ => true
  end.

(** A multipart form with the two text fields and a file. *)
Definition submission (user action : string) (f : upload) : form :=
  Form (ObjectBody [("user", JStr user); ("action", JStr action)]) (Some f).

(** The verification record POST /api/verify appends. *)
Definition record_of (c : clock) (user action : string) (f : upload) (st : string) : json :=
  JObj [ ("id", JNum (now c));
         ("user", JStr user);
         ("action", JStr action);
         ("filename", JStr (filename f));
         ("originalName", JStr (originalname f));
         ("status", JStr st);
         ("timestamp", JStr (iso c)) ].

(** The record a submission appends, as a value. *)
Definition record_value (c : clock) (user action : value) (f : upload) : obj :=
  [ ("id", VNum (now c));
    ("user", user);
    ("action", action);
    ("filename", VStr (filename f));
    ("originalName", VStr (originalname f));
    ("status", VStr (if 2048 <? size f then "accepted" else "pending"));
    ("timestamp", VStr (iso c)) ].

(** *** The ledger, in the words of the specification *)

(** An element of the users collection is the entry of [user]. *)
Definition name_is (user : value) (x : json) : bool := answers true (named user x).

Definition is_obj (x : json) : bool :=
  match x with
  | JObj _ => true
  | _ => false
  end.

(** The collection holds objects only. *)
Definition holds_objects (l : list json) : bool := forallb is_obj l.

(** The first entry of [user], if there is one. *)
Definition entry (user : value) (l : list json) : option jobj :=
  match first_index (name_is user) l with
  | Some i =>
      match l !! i with
      | Some (JObj x) => Some x
      | _ => None
      end
  | None => None
  end.

(** An amount of an entry: the integer stored under [k], 0 when the entry has
    no such property. *)
Definition amount (x : jobj) (k : string) : Z :=
  match get_own x k with
  | Some (JNum (Int a)) => a
  | _ => 0
  end.

(** The entry keeps an integer under [k], or nothing. *)
Definition whole (x : jobj) (k : string) : bool :=
  match get_own x k with
  | Some (JNum (Int _)) | None => true
  | Some _ => false
  end.

(** The entry that a credit to [user] would update, if there is one, keeps
    integers. *)
Definition entry_whole (user : value) (l : list json) : bool :=
  match entry user l with
  | Some x => (whole x "points" && whole x "co2")%bool
  | None => true
  end.

(** The total a user has under [k]: the amount of the first entry with that
    name, 0 without one. *)
Definition total (k : string) (user : value) (l : list json) : Z :=
  match entry user l with
  | Some x => amount x k
  | None => 0
  end.

(** Every integer up to 2^53 in magnitude is a double, and a sum of doubles
    that lies in this range is exact. *)
Definition safe (z : Z) : bool := Z.abs z <=? 2 ^ 53.

(** [Ledger.credit] as section 4.3 of the specification words it, a function
    on the users collection: "if an entry exists, increments points and co2 by
    the award amounts (missing prior values treated as 0); otherwise creates a
    new entry with those exact amounts".  The two copies of the code are
    compared with it below. *)
Definition spec_credit (user : value) (p c : Z) (l : list json) : list json :=
  match first_index (name_is user) l with
  | Some i =>
      match l !! i with
      | Some (JObj x) =>
          <[i := JObj (set (set (settle_obj x) "points" (JNum (amount x "points" + p)))
                           "co2" (JNum (amount x "co2" + c)))]> (settle <$> l)
      | _ => settle <$> l
      end
  | None =>
      (settle <$> l) ++ [JObj (stringify_obj [("name", user); ("points", VNum p); ("co2", VNum c)])]
  end.

Definition count_named (user : value) (l : list json) : nat :=
  length (filter (λ x, name_is user x = true) l).

(** The largest double. *)
Definition max_double : Z := (2 ^ 53 - 1) * 2 ^ 971.

(** The data-model invariant of a ledger entry: [points] and [co2] are
    non-negative integers. *)
Definition nonneg (x : jobj) (k : string) : bool :=
  match get_own x k with
  | Some (JNum (Int a)) => ((0 <=? a) && (a <=? max_double))%bool
  | _ => false
  end.

Definition entry_ok (x : json) : bool :=
  match x with
  | JObj o => (nonneg o "points" && nonneg o "co2")%bool
  | _ => false
  end.

Definition ledger_ok (l : list json) : bool := forallb entry_ok l.

(** The own enumerable properties of a body, as they are written. *)
Definition payload_props (b : payload) : jobj :=
  match b with
  | NoBody => []
  | ObjectBody o => settle_obj o
  | ArrayBody l => indexed (settle <$> l)
  end.

(** What is written of a body. *)
Definition payload_json (b : payload) : json :=
  match b with
  | NoBody => JNull
  | ObjectBody o => JObj (settle_obj o)
  | ArrayBody l => JArr (settle <$> l)
  end.

(** [Object.assign] on the stored form of a plain object. *)
Definition assign (x : jobj) (b : payload) : jobj :=
  Object_assign (settle_obj x) (payload_props b).

(** The element POST /api/users assigns the body to, if any. *)
Definition upsert_index (b : payload) (l : list json) : option nat :=
  first_index (name_is (field b "name")) l.

(** The properties [o] are written as [jo]: key by key, the value is
    written as the JSON value. *)
Definition writes_as (o : list (string * value)) (jo : list (string * json)) : Prop :=
  Forall2 (λ kv kj, kv.1 = kj.1 ∧ serialize kv.2 = Some kj.2) o jo.

(** A built-in object, which no request and no file holds. *)
Definition is_native (v : value) : bool :=
  match v with
  | VNative _ => true
  | _ => false
  end.

(** What a ledger credit for [user] writes as the users collection [l]: the
    amounts of the user's entry replaced, the collection as it was (the
    element found is no object), or an entry for the user added at the
    end. *)
Definition credit_outcome (user : value) (l l' : list json) : Prop :=
  (∃ i x p c, first_at (named user) l i = true ∧ l !! i = Some (JObj x) ∧
              l' = <[i := JObj (set (set (settle_obj x) "points" p) "co2" c)]> (settle <$> l)) ∨
  l' = settle <$> l ∨
  (∃ ap ac, none_of (named user) l = true ∧
            l' = (settle <$> l) ++
                   [JObj (stringify_obj [("name", user); ("points", ap); ("co2", ac)])]).

(** The record POST /api/reports stores for a body: an object with [id] and
    [timestamp] set, an array as it is. *)
Definition report_of (c : clock) (o : jobj) : jobj :=
  set (set (settle_obj o) "id" (JNum (now c))) "timestamp" (JStr (iso c)).

Definition report_json (c : clock) (b : payload) : json :=
  match b with
  | NoBody => JNull
  | ObjectBody o => JObj (report_of c o)
  | ArrayBody a => JArr (settle <$> a)
  end.

(** A list of properties has one property per key, as a parsed object
    has. *)
Definition distinct_keys {A} (o : list (string * A)) : bool := bool_decide (NoDup o.*1).

(** What POST /api/users writes as the users collection [l], if it writes:
    the body assigned to the first element with its name, or added at the
    end. *)
Definition upserted (E : value → payload → result json) (b : payload) (l : list json) :
    result (list json) :=
  match b with
  | NoBody =>
      match l with
      | [] => Ok [JNull]
      | _ => Throw
      end
  | _ =>
      match find_from (named (field b "name")) l with
      | Ok (Some i) =>
          match l !! i with
          | Some (JObj x) => Ok (<[i := JObj (assign x b)]> (settle <$> l))
          | Some e => j ← E (thaw e) b; Ok (<[i := settle j]> (settle <$> l))
          | None => Throw
          end
      | Ok None => Ok ((settle <$> l) ++ [payload_json b])
      | Throw => Throw
      end
  end.

Definition ok_response : response := res_json 200 [("status", VStr "ok")].

(** *** What a request may change *)

(** The status of a stored record is one of the two the server writes. *)
Definition status_ok (x : json) : bool :=
  match x with
  | JObj o =>
      match get_own o "status" with
      | Some (JStr s) => (String.eqb s "pending" || String.eqb s "accepted")%bool
      | _ => false
      end
  | _ => false
  end.

(** A file is left as it is, or rewritten as an array that [step] relates to
    the collection it held. *)
Definition file_step (step : list json → list json → Prop) (d d' : disk) (p : path) : Prop :=
  read d' p = read d p ∨
  ∃ l', read d' p = Content (Parsed (JArr l')) ∧ step (collection d p) l'.

(** The collection is written back with one element added at the end. *)
Definition appended (ok : json → bool) (l l' : list json) : Prop :=
  ∃ x, ok x = true ∧ l' = (settle <$> l) ++ [x].

(** The collection is written back, with the status of one object set to
    accepted, or as it was when the element found is no object. *)
Definition approved (l l' : list json) : Prop :=
  l' = settle <$> l ∨
  ∃ i x, l !! i = Some (JObj x) ∧
         l' = <[i := JObj (set (settle_obj x) "status" (JStr "accepted"))]> (settle <$> l).

(** What a request may do to the three files. *)
Definition route_step (E : value → payload → result json) (r : request) (d d' : disk) : Prop :=
  match r with
  | GET_reports | GET_users | GET_verifications => d' = d
  | POST_reports _ _ =>
      file_step (appended (λ _, true)) d d' reports_json ∧
      read d' users_json = read d users_json ∧
      read d' verifications_json = read d verifications_json
  | POST_users b =>
      read d' reports_json = read d reports_json ∧
      file_step (λ l l', upserted E b l = Ok l') d d' users_json ∧
      read d' verifications_json = read d verifications_json
  | POST_verify _ _ =>
      read d' reports_json = read d reports_json ∧
      file_step (λ l l', ∃ user, is_native user = false ∧ credit_outcome user l l') d d' users_json ∧
      file_step (appended status_ok) d d' verifications_json
  | POST_approve _ =>
      read d' reports_json = read d reports_json ∧
      file_step (λ l l', ∃ user, is_native user = false ∧ credit_outcome user l l') d d' users_json ∧
      file_step approved d d' verifications_json
  end.

(** The files a request may write. *)
Definition may_write (r : request) (p : path) : bool :=
  match r, p with
  | POST_reports _ _, reports_json => true
  | POST_users _, users_json => true
  | (POST_verify _ _ | POST_approve _), (verifications_json | users_json) => true
  | _, _ => false
  end.

(** The status codes a route can answer with. *)
Definition possible_statuses (r : request) : list Z :=
  match r with
  | GET_reports | GET_users | GET_verifications => [200]
  | POST_reports _ _ | POST_users _ => [200; 500]
  | POST_verify _ _ => [200; 400; 500]
  | POST_approve _ => [200; 404; 500]
  end.

(** *** Responses *)

Definition missing_fields : response :=
  res_json 400 [("status", VStr "error"); ("message", VStr "Missing fields")].

Definition not_found : response :=
  res_json 404 [("status", VStr "error"); ("message", VStr "Not found")].

(** A computation that writes no file but [p]. *)
Definition only_writes {A} (p : path) (m : M A) : Prop :=
  ∀ d, ∀ q, q ≠ p → read (m d).2 q = read d q.

(** *** Numerals *)


(** *** Sample inputs *)

Definition noon : clock := Clock 1000 "2024-06-01T12:00:00.000Z".

Definition photo : upload := Upload 3000 "1000-7.jpg" "tree.jpg".

Definition ava : json := JObj [("name", JStr "Ava"); ("points", JNum 20); ("co2", JNum 20)].

(** Ava planted a tree; the 3000-byte photo was accepted on upload and the
    ledger credited. *)
Definition sample_store : disk :=
  Disk (Content (Parsed (JArr [])))
       (Content (Parsed (JArr [ava])))
       (Content (Parsed (JArr [record_of noon "Ava" "Plant" photo "accepted"]))).

Definition empty_store : disk :=
  Disk (Content (Parsed (JArr []))) (Content (Parsed (JArr []))) (Content (Parsed (JArr []))).

(** An engine that refuses every assignment onto a wrapped target. *)
Definition refusing : value → payload → result json := λ _ _, Throw.

(** *** Vocabulary of the claims *)

(** A field of a form is missing: absent or falsy. *)
Definition blank (v : value) : bool := negb (truthy v).

Definition is_array (j : json) : bool :=
  match j with
  | JArr _ => true
  | _ => false
  end.

(** No stored verification has an id loosely equal to the one requested. *)
Definition unmatched (b : payload) (d : disk) : bool :=
  forallb (λ x, negb (answers true (has_id (field b "id") x)))
    (collection d verifications_json).

(** The search for the requested id runs to the end: there is a body to
    read the id from, the file holds an array (or is absent or unparseable),
    and the comparison with each stored element completes, with false. *)
Definition all_compared (b : payload) (d : disk) : bool :=
  (has_body b && is_array (stored d verifications_json) &&
   none_of (has_id (field b "id")) (collection d verifications_json))%bool.

(** Every number of a JSON value is finite. *)
Fixpoint all_finite (j : json) : bool :=
  match j with
  | JNum x => is_finite x
  | JArr l => forallb all_finite l
  | JObj o => forallb (λ kv, all_finite kv.2) o
  | _ => true
  end.

(** The three writers of the ledger. *)
Inductive ledger_write : Type :=
| AutoAccept (c : clock) (req : form)
| Approval (b : payload)
| DirectUpsert (b : payload).

Definition perform (E : value → payload → result json) (w : ledger_write) : M response :=
  match w with
  | AutoAccept c req => post_verify c req
  | Approval b => post_approve b
  | DirectUpsert b => post_users E b
  end.

(** An action that is no string lower-casing to one of the two inherited
    names. *)
Definition plain_action (v : value) : bool :=
  match v with
  | VStr s => negb (inherited (toLowerCase s))
  | _ => true
  end.

(** The action of the record an approval selects: the first stored element
    whose id is loosely equal to the one requested. *)
Definition approved_action (b : payload) (d : disk) : value :=
  match find_from (has_id (field b "id")) (collection d verifications_json) with
  | Ok (Some i) =>
      match collection d verifications_json !! i with
      | Some (JObj x) => get (thaw_obj x) "action"
      | _ => VUndefined
      end
  | _ => VUndefined
  end.

(** A property of an upsert body is no amount, or a non-negative integer. *)
Definition payload_field_ok (kv : string * json) : bool :=
  if (String.eqb kv.1 "points" || String.eqb kv.1 "co2")%bool
  then match kv.2 with
       | JNum (Int a) => ((0 <=? a) && (a <=? max_double))%bool
       | _ => false
       end
  else true.

(** An upsert body that is an object with both amounts, non-negative
    integers. *)
Definition payload_ok (b : payload) : bool :=
  match b with
  | ObjectBody o => (forallb payload_field_ok o && has_key o "points" && has_key o "co2")%bool
  | _ => false
  end.

Definition admissible (w : ledger_write) (d : disk) : bool :=
  match w with
  | AutoAccept _ req => plain_action (field (fields req) "action")
  | Approval b => plain_action (approved_action b d)
  | DirectUpsert b => payload_ok b
  end.

(** A name that is written and read back as it is, and equal to itself: a
    string, a boolean, a finite number, or none. *)
Definition plain_name (v : value) : bool :=
  match v with
  | VStr _ | VBool _ | VUndefined => true
  | VNum x => is_finite x
  | _ => false
  end.

Definition is_null (v : value) : bool :=
  match v with
  | VNull => true
  | _ => false
  end.

(** The body of POST /api/users has one property per key, as a parsed
    object has. *)
Definition well_formed (r : request) : bool :=
  match r with
  | POST_users (ObjectBody o) => distinct_keys o
  | _ => true
  end.

(** A stored verification with an id of its own that is not null. *)
Definition has_real_id (x : json) : bool :=
  match x with
  | JObj o =>
      match get_own o "id" with
      | Some JNull | None => false
      | Some _ => true
      end
  | _ => false
  end.

(** *** More sample inputs *)

Definition bo_pending : json :=
  record_of (Clock 2000 "2024-06-02T09:00:00.000Z") "Bo" "clean"
    (Upload 900 "2000-3.jpg" "beach.jpg") "pending".


(** A ledger at the edge of the integers that doubles count one by one. *)
Definition large_ledger : disk :=
  Disk Absent
       (Content (Parsed (JArr [JObj [("name", JStr "Ava"); ("points", JNum (2 ^ 53)); ("co2", JNum 0)]])))
       Absent.

Definition queue : disk :=
  Disk (Content (Parsed (JArr [])))
       (Content (Parsed (JArr [ava])))
       (Content (Parsed (JArr [record_of noon "Ava" "Plant" photo "accepted"; bo_pending]))).


(** A disk with one report. *)
Definition reported : disk :=
  Disk (Content (Parsed (JArr [JObj [("place", JStr "river"); ("id", JNum 900)]])))
       (Content (Parsed (JArr [ava])))
       (Content (Parsed (JArr [record_of noon "Ava" "Plant" photo "accepted"; bo_pending]))).


(** Ava's points were stored as an object that cannot be added to. *)
Definition broken_ledger : disk :=
  Disk Absent
       (Content (Parsed (JArr [JObj [("name", JStr "Ava");
                                     ("points", JObj [("toString", JNum 1)]);
                                     ("co2", JNum 1)]])))
       (Content (Parsed (JArr []))).

(** * Properties *)

(** ** Objects, parsing and serialisation *)

Section Objects.

Lemma json_ind' (P : json → Prop) :
  P JNull → (∀ b, P (JBool b)) → (∀ x, P (JNum x)) → (∀ s, P (JStr s)) →
  (∀ l, Forall P l → P (JArr l)) →
  (∀ o, Forall (λ kv, P kv.2) o → P (JObj o)) →
  ∀ j, P j.
Proof.
  intros Hn Hb Hx Hs Ha Ho. fix IH 1.
  intros [|b|x|s|l|o]; [exact Hn|apply Hb|apply Hx|apply Hs| |].
  - apply Ha. revert l. fix IHl 1. intros [|x l]; constructor; [apply IH|apply IHl].
  - apply Ho. revert o. fix IHo 1. intros [|[k v] o]; constructor; [apply IH|apply IHo].
Qed.

(** Writing back what was parsed gives the same JSON, up to the numerals
    beyond the range of doubles. *)
Lemma serialize_thaw (j : json) : serialize (thaw j) = Some (settle j).
Proof.
  induction j as [| | | |l IH|o IH] using json_ind'; cbn [thaw serialize settle]; try done.
  - do 2 f_equal. induction IH as [|x l Hx _ IHl]; [done|].
    rewrite !fmap_cons. by rewrite Hx, IHl.
  - do 2 f_equal. induction IH as [|[k v] o Hv _ IHo]; [done|].
    rewrite !fmap_cons. cbn [omap list_omap]. cbn [fst snd] in *. rewrite Hv. cbn.
    by rewrite <- IHo.
Qed.

Lemma stringify_thaw (o : jobj) : stringify_obj (thaw_obj o) = settle_obj o.
Proof.
  pose proof (serialize_thaw (JObj o)) as H. cbn [thaw serialize settle] in H.
  by injection H.
Qed.

Lemma stringify_thaw_all (l : list json) :
  (λ x, default JNull (serialize x)) <$> (thaw <$> l) = settle <$> l.
Proof.
  pose proof (serialize_thaw (JArr l)) as H. cbn [thaw serialize settle] in H.
  by injection H.
Qed.

Lemma settle_idemp (j : json) : settle (settle j) = settle j.
Proof.
  induction j as [| |x| |l IH|o IH] using json_ind'; cbn [settle]; try done.
  - by destruct x.
  - f_equal. induction IH as [|x l Hx _ IHl]; [done|].
    rewrite !fmap_cons. by rewrite Hx, IHl.
  - f_equal. induction IH as [|[k v] o Hv _ IHo]; [done|].
    rewrite !fmap_cons. cbn [fst snd] in *. by rewrite Hv, IHo.
Qed.

Lemma get_own_fmap {A B} (f : A → B) (o : list (string * A)) (k : string) :
  get_own ((λ kv, (kv.1, f kv.2)) <$> o) k = f <$> get_own o k.
Proof.
  induction o as [|[k' v] o IH]; [done|]. rewrite fmap_cons. cbn.
  destruct (String.eqb k' k); [done|apply IH].
Qed.

Lemma get_own_thaw (x : jobj) (k : string) :
  get_own (thaw_obj x) k = thaw <$> get_own x k.
Proof. apply get_own_fmap. Qed.

Lemma get_own_settle (x : jobj) (k : string) :
  get_own (settle_obj x) k = settle <$> get_own x k.
Proof. apply get_own_fmap. Qed.

Lemma has_key_fmap {A B} (f : A → B) (o : list (string * A)) (k : string) :
  has_key ((λ kv, (kv.1, f kv.2)) <$> o) k = has_key o k.
Proof. unfold has_key. rewrite get_own_fmap. by destruct (get_own o k). Qed.

Lemma get_own_replace_eq {A} (o : list (string * A)) (k : string) (v : A) :
  has_key o k = true → get_own (replace o k v) k = Some v.
Proof.
  unfold has_key. induction o as [|[k' v'] o IH]; cbn; [done|].
  destruct (String.eqb k' k) eqn:E; cbn; rewrite E; [done|apply IH].
Qed.

Lemma get_own_replace_ne {A} (o : list (string * A)) (k k' : string) (v : A) :
  k ≠ k' → get_own (replace o k v) k' = get_own o k'.
Proof.
  intros Hne. induction o as [|[k0 v0] o IH]; cbn; [done|].
  destruct (String.eqb_spec k0 k) as [->|]; cbn.
  - by destruct (String.eqb_spec k k').
  - by rewrite IH.
Qed.

Lemma get_own_app {A} (o1 o2 : list (string * A)) (k : string) :
  get_own (o1 ++ o2) k = match get_own o1 k with Some v => Some v | None => get_own o2 k end.
Proof.
  induction o1 as [|[k' v'] o1 IH]; cbn; [done|].
  destruct (String.eqb k' k); [done|apply IH].
Qed.

Lemma get_own_insert_index {A} (n : Z) (o : list (string * A)) (k k' : string) (v : A) :
  get_own o k = None →
  get_own (insert_index n k v o) k' = if String.eqb k k' then Some v else get_own o k'.
Proof.
  induction o as [|[k0 v0] o IH]; cbn; [done|]. intros Hk.
  destruct (String.eqb_spec k0 k) as [->|Hne]; [done|].
  destruct (array_index k0) as [m|]; [destruct (m <? n)|]; cbn;
    try (by destruct (String.eqb k k')).
  rewrite IH by done.
  destruct (String.eqb_spec k0 k') as [->|]; [|done].
  by destruct (String.eqb_spec k k').
Qed.

Lemma get_own_set_eq {A} (o : list (string * A)) (k : string) (v : A) :
  get_own (set o k v) k = Some v.
Proof.
  unfold set. destruct (has_key o k) eqn:E.
  - by apply get_own_replace_eq.
  - unfold has_key in E. destruct (get_own o k) eqn:E'; [done|].
    destruct (array_index k).
    + by rewrite get_own_insert_index, String.eqb_refl.
    + rewrite get_own_app, E'. cbn. by rewrite String.eqb_refl.
Qed.

Lemma get_own_set_ne {A} (o : list (string * A)) (k k' : string) (v : A) :
  k ≠ k' → get_own (set o k v) k' = get_own o k'.
Proof.
  intros Hne. unfold set. destruct (has_key o k) eqn:E.
  - by apply get_own_replace_ne.
  - unfold has_key in E. destruct (get_own o k) eqn:E'; [done|].
    destruct (array_index k).
    + rewrite get_own_insert_index by done. by destruct (String.eqb_spec k k').
    + rewrite get_own_app. destruct (get_own o k'); [done|]. cbn.
      by destruct (String.eqb_spec k k').
Qed.

(** Setting a property to the value it has changes nothing. *)
Lemma replace_same {A} (o : list (string * A)) (k : string) (v : A) :
  get_own o k = Some v → replace o k v = o.
Proof.
  induction o as [|[k' v'] o IH]; cbn; [done|].
  destruct (String.eqb_spec k' k) as [->|]; [by intros [= ->]|].
  intros H. by rewrite IH.
Qed.

Lemma set_same {A} (o : list (string * A)) (k : string) (v : A) :
  get_own o k = Some v → set o k v = o.
Proof.
  intros H. unfold set, has_key. rewrite H. by apply replace_same.
Qed.

(** [set] on the properties commutes with a map on the values. *)
Lemma replace_fmap {A B} (f : A → B) (o : list (string * A)) (k : string) (v : A) :
  replace ((λ kv, (kv.1, f kv.2)) <$> o) k (f v) = (λ kv, (kv.1, f kv.2)) <$> replace o k v.
Proof.
  induction o as [|[k' v'] o IH]; [done|]. rewrite fmap_cons. cbn.
  destruct (String.eqb k' k); rewrite fmap_cons; cbn; [done|by rewrite IH].
Qed.

Lemma insert_index_fmap {A B} (f : A → B) (n : Z) (o : list (string * A)) (k : string) (v : A) :
  insert_index n k (f v) ((λ kv, (kv.1, f kv.2)) <$> o) =
  (λ kv, (kv.1, f kv.2)) <$> insert_index n k v o.
Proof.
  induction o as [|[k' v'] o IH]; [done|]. rewrite fmap_cons. cbn.
  destruct (array_index k') as [m|]; [destruct (m <? n)|]; rewrite ?fmap_cons; cbn;
    try done.
  by rewrite IH.
Qed.

Lemma set_fmap {A B} (f : A → B) (o : list (string * A)) (k : string) (v : A) :
  set ((λ kv, (kv.1, f kv.2)) <$> o) k (f v) = (λ kv, (kv.1, f kv.2)) <$> set o k v.
Proof.
  unfold set. rewrite has_key_fmap. destruct (has_key o k).
  - apply replace_fmap.
  - destruct (array_index k).
    + apply insert_index_fmap.
    + by rewrite fmap_app.
Qed.

End Objects.

(** ** What is written for values *)

Section Writing.

Lemma serialize_obj (o : obj) : serialize (VObj o) = Some (JObj (stringify_obj o)).
Proof. reflexivity. Qed.

Lemma writes_as_stringify (o : list (string * value)) (jo : list (string * json)) :
  writes_as o jo → stringify_obj o = jo.
Proof.
  unfold stringify_obj. induction 1 as [|[k v] [k' j] o jo [Hk Hv] _ IH]; [done|].
  cbn in *. subst k'. rewrite Hv. cbn. by rewrite IH.
Qed.

Lemma writes_as_thaw (x : list (string * json)) : writes_as (thaw_obj x) (settle_obj x).
Proof.
  unfold writes_as, thaw_obj, settle_obj.
  induction x as [|[k j] x IH]; [constructor|].
  rewrite !fmap_cons. constructor; [|done]. cbn. split; [done|apply serialize_thaw].
Qed.

Lemma writes_as_get_own (o : list (string * value)) (jo : list (string * json)) (k : string) :
  writes_as o jo →
  match get_own o k, get_own jo k with
  | Some v, Some j => serialize v = Some j
  | None, None => True
  | _, _ => False
  end.
Proof.
  induction 1 as [|[k1 v] [k2 j] o jo [Hk Hv] _ IH]; [done|].
  cbn in *. subst k2. by destruct (String.eqb k1 k).
Qed.

Lemma writes_as_has_key (o : list (string * value)) (jo : list (string * json)) (k : string) :
  writes_as o jo → has_key o k = has_key jo k.
Proof.
  intros H. pose proof (writes_as_get_own o jo k H) as Hk. unfold has_key.
  by destruct (get_own o k), (get_own jo k).
Qed.

Lemma writes_as_replace (o : list (string * value)) (jo : list (string * json))
    (k : string) (v : value) (j : json) :
  writes_as o jo → serialize v = Some j → writes_as (replace o k v) (replace jo k j).
Proof.
  intros H Hv. induction H as [|[k1 v1] [k2 j1] o jo [Hk Hv1] Ho IH]; [constructor|].
  cbn in *. subst k2. destruct (String.eqb k1 k); constructor; done.
Qed.

Lemma writes_as_insert_index (n : Z) (o : list (string * value)) (jo : list (string * json))
    (k : string) (v : value) (j : json) :
  writes_as o jo → serialize v = Some j →
  writes_as (insert_index n k v o) (insert_index n k j jo).
Proof.
  intros H Hv. induction H as [|[k1 v1] [k2 j1] o jo [Hk Hv1] Ho IH].
  - by repeat constructor.
  - cbn in *. subst k2.
    destruct (array_index k1) as [m|]; [destruct (m <? n)|];
      repeat (constructor; try done).
Qed.

Lemma writes_as_set (o : list (string * value)) (jo : list (string * json))
    (k : string) (v : value) (j : json) :
  writes_as o jo → serialize v = Some j → writes_as (set o k v) (set jo k j).
Proof.
  intros H Hv. unfold set. rewrite (writes_as_has_key o jo k H).
  destruct (has_key jo k); [by apply writes_as_replace|].
  destruct (array_index k); [by apply writes_as_insert_index|].
  apply Forall2_app; [done|]. by repeat constructor.
Qed.

Lemma writes_as_assign_prop (o : list (string * value)) (jo : list (string * json))
    (k : string) (v : value) (j : json) :
  writes_as o jo → serialize v = Some j →
  writes_as (assign_prop o k v) (assign_prop jo k j).
Proof.
  intros H Hv. unfold assign_prop. rewrite (writes_as_has_key o jo k H).
  destruct (String.eqb k "__proto__" && negb (has_key jo k))%bool; [done|].
  by apply writes_as_set.
Qed.

Lemma writes_as_assign (o : list (string * value)) (jo : list (string * json))
    (u : list (string * value)) (ju : list (string * json)) :
  writes_as o jo → writes_as u ju →
  writes_as (Object_assign o u) (Object_assign jo ju).
Proof.
  intros Ho Hu. revert o jo Ho. unfold Object_assign.
  induction Hu as [|[k v] [k' j] u ju [Hk Hv] _ IH]; intros o jo Ho; [done|].
  cbn in *. subst k'. apply IH. by apply writes_as_assign_prop.
Qed.

Lemma writes_as_indexed (l : list json) :
  writes_as (indexed (thaw <$> l)) (indexed (settle <$> l)).
Proof.
  unfold writes_as, indexed.
  assert (∀ (f : nat → nat),
            Forall2 (λ kv kj, kv.1 = kj.1 ∧ serialize kv.2 = Some kj.2)
              (imap (λ i x, (decimal (Z.of_nat (f i)), x)) (thaw <$> l))
              (imap (λ i x, (decimal (Z.of_nat (f i)), x)) (settle <$> l))) as H.
  { induction l as [|x l IH]; intros f; [constructor|].
    rewrite !fmap_cons. cbn [imap]. constructor.
    - split; [done|apply serialize_thaw].
    - apply (IH (f ∘ S)). }
  apply (H id).
Qed.

Lemma writes_as_payload (b : payload) : writes_as (own_properties b) (payload_props b).
Proof.
  destruct b as [|o|l]; cbn.
  - constructor.
  - apply writes_as_thaw.
  - apply writes_as_indexed.
Qed.

Lemma serialize_body (b : payload) :
  default JNull (serialize (body_value b)) = payload_json b.
Proof.
  destruct b as [|o|l]; cbn [body_value payload_json]; [done| |];
    by rewrite serialize_thaw.
Qed.

End Writing.

(** ** The monad *)

Section Monad.

Lemma bind_run {A B} (m : M A) (f : A → M B) (d : disk) :
  (m ≫= f) d = match m d with
               | (Ok a, d') => f a d'
               | (Throw, d') => (Throw, d')
               end.
Proof. reflexivity. Qed.

Lemma bind_lift {A B} (r : result A) (f : A → M B) (d : disk) :
  (lift r ≫= f) d = match r with Ok a => f a d | Throw => (Throw, d) end.
Proof. by destruct r. Qed.

Lemma bind_ret {A B} (a : A) (f : A → M B) (d : disk) :
  (mret a ≫= f) d = f a d.
Proof. reflexivity. Qed.

(** A handler whose [catch] clause sends a response always sends one. *)
Lemma try_catch_total {A} (m : M A) (a : A) (d : disk) :
  ∃ r d', try_catch m (mret a) d = (Ok r, d').
Proof.
  unfold try_catch. destruct (m d) as [[r|] d']; eauto.
Qed.

(** [readJson] returns what is stored and leaves the disk alone. *)
Lemma readJson_stored (p : path) (d : disk) :
  readJson p d = (Ok (thaw (stored d p)), d).
Proof.
  unfold readJson, try_catch, stored, readFileSync. rewrite bind_run.
  destruct (read d p) as [|[|j]]; reflexivity.
Qed.

(** An array is always written. *)
Lemma writeJson_array (p : path) (l : list value) (d : disk) :
  writeJson p (VArr l) d =
    (Ok (), write d p (Content (Parsed (JArr ((λ x, default JNull (serialize x)) <$> l))))).
Proof. reflexivity. Qed.

Lemma read_write (d : disk) (p : path) (f : datafile) : read (write d p f) p = f.
Proof. by destruct p. Qed.

Lemma read_write_ne (d : disk) (p q : path) (f : datafile) :
  p ≠ q → read (write d p f) q = read d q.
Proof. by destruct p, q. Qed.

Lemma stored_write (d : disk) (p : path) (j : json) :
  stored (write d p (Content (Parsed j))) p = j.
Proof. unfold stored. by rewrite read_write. Qed.

Lemma stored_write_ne (d : disk) (p q : path) (f : datafile) :
  p ≠ q → stored (write d p f) q = stored d q.
Proof. intros. unfold stored. by rewrite read_write_ne. Qed.

Lemma collection_write (d : disk) (p : path) (l : list json) :
  collection (write d p (Content (Parsed (JArr l)))) p = l.
Proof. unfold collection. by rewrite stored_write. Qed.

Lemma collection_write_ne (d : disk) (p q : path) (f : datafile) :
  p ≠ q → collection (write d p f) q = collection d q.
Proof. intros. unfold collection. by rewrite stored_write_ne. Qed.

Lemma write_write (d : disk) (p : path) (f g : datafile) :
  write (write d p f) p g = write d p g.
Proof. by destruct p. Qed.

(** The file holds an array: its collection is what is stored. *)
Lemma stored_collection (d : disk) (p : path) (l : list json) :
  stored d p = JArr l → collection d p = l.
Proof. unfold collection. by intros ->. Qed.

End Monad.

(** ** findIndex *)

Section FindIndex.

Context {A : Type}.

Lemma find_from_pure (f : A → bool) (l : list A) :
  find_from (λ x, Ok (f x)) l = Ok (first_index f l).
Proof.
  induction l as [|x l IH]; cbn; [done|].
  destruct (f x); [done|]. rewrite IH. reflexivity.
Qed.

Lemma find_from_none (p : A → result bool) (l : list A) :
  none_of p l = true → find_from p l = Ok None.
Proof.
  unfold none_of. induction l as [|x l IH]; cbn; [done|].
  intros [Hx Hl]%andb_prop. destruct (p x) as [[]|]; try done. cbn.
  by rewrite IH.
Qed.

Lemma find_from_first (p : A → result bool) (l : list A) (i : nat) :
  first_at p l i = true → find_from p l = Ok (Some i).
Proof.
  unfold first_at. revert i. induction l as [|y l IH]; intros i.
  - rewrite lookup_nil. by rewrite andb_false_r.
  - destruct i as [|i]; cbn.
    + by destruct (p y) as [[]|].
    + intros [[Hy Hl]%andb_prop Hi]%andb_prop.
      destruct (p y) as [[]|]; try done. cbn.
      rewrite (IH i); [done|]. apply andb_true_intro. split; [exact Hl|exact Hi].
Qed.

Lemma find_from_Some (p : A → result bool) (l : list A) (i : nat) :
  find_from p l = Ok (Some i) → first_at p l i = true.
Proof.
  unfold first_at. revert i. induction l as [|y l IH]; intros i; cbn; [done|].
  destruct (p y) as [[]|] eqn:Hy; cbn; [| |done].
  - intros [= <-]. cbn. by rewrite Hy.
  - destruct (find_from p l) as [[j|]|] eqn:Hf; cbn; try done.
    intros [= <-]. cbn. rewrite Hy. cbn. by apply IH.
Qed.

Lemma find_from_None (p : A → result bool) (l : list A) :
  find_from p l = Ok None → none_of p l = true.
Proof.
  unfold none_of. induction l as [|y l IH]; cbn; [done|].
  destruct (p y) as [[]|] eqn:Hy; cbn; [done| |done].
  destruct (find_from p l) as [[j|]|] eqn:Hf; cbn; try done.
Qed.

Lemma first_at_lookup (p : A → result bool) (l : list A) (i : nat) :
  first_at p l i = true → ∃ x, l !! i = Some x ∧ p x = Ok true.
Proof.
  unfold first_at. intros [_ H]%andb_prop.
  destruct (l !! i) as [x|]; [|done]. exists x. split; [done|].
  by destruct (p x) as [[]|].
Qed.

Lemma first_index_Some (f : A → bool) (l : list A) (i : nat) :
  first_index f l = Some i →
  ∃ x, l !! i = Some x ∧ f x = true ∧
       ∀ j y, (j < i)%nat → l !! j = Some y → f y = false.
Proof.
  revert i. induction l as [|y l IH]; intros i; cbn; [done|].
  destruct (f y) eqn:Hy.
  - intros [= <-]. exists y. split_and!; [done|done|]. intros; lia.
  - destruct (first_index f l) as [i'|]; [|done]. intros [= <-].
    destruct (IH i' eq_refl) as (x & Hx & Hfx & Hb).
    exists x. split_and!; [done|done|].
    intros [|j] z Hj Hz; cbn in Hz.
    + by injection Hz as <-.
    + apply (Hb j); [lia|done].
Qed.

Lemma first_index_None (f : A → bool) (l : list A) :
  first_index f l = None → Forall (λ x, f x = false) l.
Proof.
  induction l as [|y l IH]; cbn; [by constructor|].
  destruct (f y) eqn:Hy; [done|].
  destruct (first_index f l); [done|]. intros _. constructor; auto.
Qed.

End FindIndex.

Lemma find_from_fmap {A B} (g : A → B) (p : B → result bool) (l : list A) :
  find_from p (g <$> l) = find_from (p ∘ g) l.
Proof.
  induction l as [|x l IH]; [done|]. rewrite fmap_cons. cbn. by rewrite IH.
Qed.

Lemma first_index_fmap {A B} (g : A → B) (f : B → bool) (l : list A) :
  first_index f (g <$> l) = first_index (f ∘ g) l.
Proof.
  induction l as [|x l IH]; [done|]. rewrite fmap_cons. cbn. by rewrite IH.
Qed.

(** ** Numbers *)

Section Numbers.

Lemma nearest_small (a : Z) : 0 ≤ a < 2 ^ 53 → nearest a 1 = a.
Proof.
  intros [H0 H1]. unfold nearest. rewrite Z.div_1_r.
  assert (Z.log2 a - 52 ≤ 0) as Hs.
  { destruct (Z.eq_dec a 0) as [->|]; [done|].
    assert (Z.log2 a < 53) by (apply Z.log2_lt_pow2; lia). lia. }
  rewrite Z.max_l by lia. change (2 ^ 0) with 1. rewrite !Z.mul_1_r.
  unfold div_nearest_even. rewrite Z.div_1_r, Z.mod_1_r. reflexivity.
Qed.

(** An integer up to 2^53 in magnitude is a double. *)
Lemma of_Z_safe (z : Z) : safe z = true → of_Z z = Int z.
Proof.
  unfold safe. intros H%Z.leb_le.
  destruct (Z.eq_dec (Z.abs z) (2 ^ 53)) as [E|E].
  - destruct (Z.abs_spec z) as [[_ Hz]|[_ Hz]]; rewrite Hz in E.
    + by subst z.
    + assert (z = - 2 ^ 53) as -> by lia. reflexivity.
  - unfold of_Z. rewrite nearest_small by lia.
    destruct (Z.leb_spec (2 ^ 1024) (Z.abs z)) as [Hbig|_].
    + assert (2 ^ 53 < 2 ^ 1024) by reflexivity. lia.
    + f_equal. by destruct z.
Qed.

(** The sum of a non-negative integer double and a small non-negative
    integer is a non-negative integer double: it does not overflow. *)
Lemma of_Z_add_small (a n : Z) :
  0 ≤ a ≤ max_double → 0 ≤ n ≤ 20 →
  ∃ r, of_Z (a + n) = Int r ∧ 0 ≤ r ≤ max_double.
Proof.
  intros Ha Hn. set (z := a + n).
  assert (0 ≤ z ≤ max_double + 20) as Hz by (unfold z; lia).
  assert (2 ^ 53 ≤ max_double) as Hmax by (by vm_compute).
  destruct (Z.lt_ge_cases z (2 ^ 53)) as [Hsmall|Hbig].
  - exists z. split; [|lia]. apply of_Z_safe. unfold safe. apply Z.leb_le. lia.
  - assert (0 < z) as Hpos by lia.
    assert (Z.abs z = z) as Habs by lia.
    unfold of_Z. rewrite Habs, Z.sgn_pos, Z.mul_1_l by done.
    unfold nearest. rewrite Z.div_1_r, Z.mul_1_l.
    set (L := Z.log2 z).
    assert (53 ≤ L) as HL by (by apply Z.log2_le_pow2).
    assert (2 ^ L ≤ z < 2 ^ Z.succ L) as [Hlo Hhi] by (by apply Z.log2_spec).
    assert (L ≤ 1023) as HL'.
    { destruct (Z.le_gt_cases L 1023) as [|Hgt]; [done|].
      assert (2 ^ 1024 ≤ 2 ^ L) by (apply Z.pow_le_mono_r; lia).
      assert (max_double + 20 < 2 ^ 1024) by (by vm_compute). lia. }
    rewrite Z.max_r by lia.
    set (s := L - 52). set (u := 2 ^ s).
    assert (0 < u) as Hu by (apply Z.pow_pos_nonneg; lia).
    assert (2 ^ Z.succ L = 2 ^ 53 * u) as Hsplit.
    { unfold u, s. rewrite <- Z.pow_add_r by lia. f_equal. lia. }
    assert (z / u < 2 ^ 53) as Hq.
    { apply Z.div_lt_upper_bound; [done|]. rewrite Z.mul_comm. lia. }
    assert (0 ≤ z / u) as Hq0 by (apply Z.div_pos; lia).
    pose proof (Z.div_mod z u ltac:(lia)) as Hdm.
    pose proof (Z.mod_pos_bound z u Hu) as Hm.
    assert (div_nearest_even z u = z / u ∨ div_nearest_even z u = z / u + 1) as Hr.
    { unfold div_nearest_even.
      destruct (2 * (z mod u) <? u); [by left|].
      destruct (u <? 2 * (z mod u)); [by right|].
      destruct (Z.even (z / u)); [by left|by right]. }
    assert (div_nearest_even z u * u ≤ max_double) as Hbound.
    { destruct (Z.le_gt_cases L 1022) as [Hsm|Hbg].
      - assert (u ≤ 2 ^ 970) as Hu' by (apply Z.pow_le_mono_r; unfold s; lia).
        assert (div_nearest_even z u ≤ 2 ^ 53) as Hq' by lia.
        assert (2 ^ 53 * 2 ^ 970 ≤ max_double) as Hc by (by vm_compute).
        etrans; [|exact Hc].
        apply Z.mul_le_mono_nonneg; lia.
      - assert (L = 1023) as HL1 by lia.
        assert (u = 2 ^ 971) as Hu' by (unfold u, s; by rewrite HL1).
        unfold max_double. rewrite <- Hu'.
        apply Z.mul_le_mono_nonneg_r; [lia|].
        destruct (Z.le_gt_cases (z / u) (2 ^ 53 - 2)) as [Hlow|Hhigh]; [lia|].
        assert (z / u = 2 ^ 53 - 1) as Hqe by lia.
        assert (z mod u ≤ 20) as Hrem.
        { unfold max_double in Hz. rewrite <- Hu' in Hz. rewrite Hqe in Hdm. lia. }
        unfold div_nearest_even.
        assert (2 * (z mod u) < u) as Hlt.
        { assert (40 < u) by (rewrite Hu'; by vm_compute). lia. }
        apply Z.ltb_lt in Hlt. rewrite Hlt. lia. }
    exists (div_nearest_even z u * u).
    assert (max_double < 2 ^ 1024) as Hc2 by (by vm_compute).
    destruct (Z.leb_spec (2 ^ 1024) (div_nearest_even z u * u)) as [Hov|_]; [lia|].
    split; [done|]. split; [|done].
    apply Z.mul_nonneg_nonneg; lia.
Qed.

Lemma num_eq_int (a b : Z) : num_eq (Int a) (Int b) = (a =? b).
Proof. reflexivity. Qed.

Lemma num_eq_eq (x y : number) : num_eq x y = true → x = y.
Proof.
  destruct x, y; cbn; try done.
  - by intros ->%Z.eqb_eq.
  - by intros ->%Z.eqb_eq.
  - by intros ->%eqb_prop.
Qed.

Lemma truthy_int (a : Z) : truthy (VNum (Int a)) = negb (a =? 0).
Proof. reflexivity. Qed.

(** [(a || 0) + b] on integers is the rounded sum. *)
Lemma js_add_or_int (a b : Z) :
  js_add (js_or (VNum (Int a)) (VNum (Int 0))) (VNum (Int b)) = Ok (VNum (of_Z (a + b))).
Proof.
  unfold js_or. rewrite truthy_int.
  destruct (Z.eqb_spec a 0) as [->|]; reflexivity.
Qed.

End Numbers.

(** ** The award mapping *)

Section Award.

Lemma lower_ascii_idemp (a : ascii) : lower_ascii (lower_ascii a) = lower_ascii a.
Proof. destruct a as [[] [] [] [] [] [] [] []]; reflexivity. Qed.

Lemma toLowerCase_idemp (s : string) : toLowerCase (toLowerCase s) = toLowerCase s.
Proof.
  induction s as [|a s IH]; cbn; [done|]. by rewrite lower_ascii_idemp, IH.
Qed.

(** A name with an upper-case letter is never the result of [toLowerCase]. *)
Lemma toLowerCase_neq (s m : string) :
  toLowerCase m ≠ m → toLowerCase s ≠ m.
Proof.
  intros Hm Hs. apply Hm. rewrite <- Hs. apply toLowerCase_idemp.
Qed.

Lemma lowered_not_proto_method (s : string) :
  existsb (String.eqb (toLowerCase s)) proto_methods = false.
Proof.
  unfold proto_methods. cbn [existsb].
  repeat match goal with
  | |- context [String.eqb (toLowerCase s) ?m] =>
      destruct (String.eqb_spec (toLowerCase s) m) as [E|_];
      [exfalso; revert E; apply toLowerCase_neq; discriminate|]
  end.
  reflexivity.
Qed.

(** Away from the inherited names the lookup is the table with a zero
    default. *)
Lemma verify_award_table (s : string) :
  inherited (toLowerCase s) = false →
  verify_award (VStr s) = Ok (thaw (award_obj (amount_for (toLowerCase s)))).
Proof.
  unfold inherited, verify_award, amount_for, award_obj.
  cbn [call_toLowerCase mbind result_bind].
  unfold get, verify_mapping, Object_prototype_get.
  rewrite lowered_not_proto_method.
  set (k := toLowerCase s). intros H.
  apply orb_false_elim in H as [H1 H2].
  cbn [get_own].
  rewrite (String.eqb_sym "plant"), (String.eqb_sym "clean"), (String.eqb_sym "awareness").
  destruct (String.eqb k "plant"); [done|].
  destruct (String.eqb k "clean"); [done|].
  destruct (String.eqb k "awareness"); [done|].
  by rewrite H1, H2.
Qed.

Lemma award_paths_same (action : value) : verify_award action = approve_award action.
Proof. reflexivity. Qed.

Lemma approve_award_table (s : string) :
  inherited (toLowerCase s) = false →
  approve_award (VStr s) = Ok (thaw (award_obj (amount_for (toLowerCase s)))).
Proof. rewrite <- award_paths_same. apply verify_award_table. Qed.

Lemma amount_for_range (k : string) : 0 ≤ amount_for k ≤ 20.
Proof.
  unfold amount_for.
  destruct (String.eqb k "plant"); [lia|].
  destruct (String.eqb k "clean"); [lia|].
  destruct (String.eqb k "awareness"); lia.
Qed.

Lemma get_prop_truthy (w : value) (k : string) :
  truthy w = true → ∃ v, get_prop w k = Ok v.
Proof. destruct w; intros H; try discriminate H; cbn; eauto. Qed.

(** The award of a string action is always something [.points] and [.co2]
    can be read from. *)
Lemma verify_award_readable (a : string) :
  ∃ w, verify_award (VStr a) = Ok w ∧
       ∃ ap ac, get_prop w "points" = Ok ap ∧ get_prop w "co2" = Ok ac.
Proof.
  unfold verify_award. cbn [call_toLowerCase mbind result_bind].
  eexists. split; [reflexivity|].
  unfold js_or. destruct (truthy _) eqn:E.
  - destruct (get_prop_truthy _ "points" E) as [ap ->].
    destruct (get_prop_truthy _ "co2" E) as [ac ->]. eauto.
  - cbn. eauto.
Qed.

End Award.

(** ** Numerals *)

Section Numerals.










End Numerals.

(** ** Ledger credit *)

Section Credit.

Lemma strict_eq_eq (a b : value) : strict_eq a b = true → a = b.
Proof.
  destruct a, b; cbn; try done.
  - by intros ->%eqb_prop.
  - by intros ->%num_eq_eq.
  - by intros ->%String.eqb_eq.
Qed.

Lemma js_add_serializable (a b v : value) :
  js_add a b = Ok v → ∃ j, serialize v = Some j.
Proof.
  unfold js_add. destruct (to_primitive a) as [pa|]; [|done].
  destruct (to_primitive b) as [pb|]; [|done]. cbn.
  destruct (is_string pa || is_string pb)%bool; intros [= <-]; cbn; eauto.
Qed.

Lemma get_thaw_obj (x : jobj) (k : string) :
  get (thaw_obj x) k = match get_own x k with
                       | Some j => thaw j
                       | None => Object_prototype_get k
                       end.
Proof. unfold get. rewrite get_own_thaw. by destruct (get_own x k). Qed.

Lemma get_set_ne (o : obj) (k k' : string) (v : value) :
  k ≠ k' → get (set o k v) k' = get o k'.
Proof. intros H. unfold get. by rewrite get_own_set_ne. Qed.

Lemma named_thaw (user : value) (l : list json) :
  find_from (λ x, n ← get_prop x "name"; Ok (strict_eq n user)) (thaw <$> l) =
  find_from (named user) l.
Proof. by rewrite find_from_fmap. Qed.

(** The two copies of the credit are the same code. *)
Lemma approve_credit_same : approve_credit = verify_credit.
Proof. reflexivity. Qed.

(** An array with one element replaced by an object is written element by
    element. *)
Lemma write_insert (p : path) (l : list json) (i : nat) (o : obj) (jo : jobj) (d : disk) :
  writes_as o jo →
  writeJson p (VArr (<[i := VObj o]> (thaw <$> l))) d =
    (Ok (), write d p (Content (Parsed (JArr (<[i := JObj jo]> (settle <$> l)))))).
Proof.
  intros H. rewrite writeJson_array, list_fmap_insert, stringify_thaw_all.
  cbn [serialize default]. fold (stringify_obj o). by rewrite (writes_as_stringify o jo H).
Qed.

Lemma write_same (p : path) (l : list json) (d : disk) :
  writeJson p (VArr (thaw <$> l)) d =
    (Ok (), write d p (Content (Parsed (JArr (settle <$> l))))).
Proof. by rewrite writeJson_array, stringify_thaw_all. Qed.

Lemma write_push (p : path) (l : list json) (v : value) (d : disk) :
  writeJson p (VArr ((thaw <$> l) ++ [v])) d =
    (Ok (), write d p (Content (Parsed (JArr ((settle <$> l) ++ [default JNull (serialize v)]))))).
Proof. by rewrite writeJson_array, fmap_app, stringify_thaw_all. Qed.

(** The credit to an entry that is an object. *)
Lemma verify_credit_found (user award ap ac pv cv : value) (pj cj : json)
    (d : disk) (l : list json) (i : nat) (x : jobj) :
  stored d users_json = JArr l →
  first_at (named user) l i = true →
  l !! i = Some (JObj x) →
  get_prop award "points" = Ok ap →
  get_prop award "co2" = Ok ac →
  js_add (js_or (get (thaw_obj x) "points") (VNum 0)) ap = Ok pv →
  js_add (js_or (get (thaw_obj x) "co2") (VNum 0)) ac = Ok cv →
  serialize pv = Some pj →
  serialize cv = Some cj →
  verify_credit user award d =
    (Ok (), write d users_json
              (Content (Parsed (JArr (<[i := JObj (set (set (settle_obj x) "points" pj) "co2" cj)]>
                                        (settle <$> l)))))).
Proof.
  intros Hst Hi Hx Hap Hac Hp Hc Hpj Hcj.
  unfold verify_credit. rewrite bind_run, readJson_stored, Hst. cbv beta iota.
  rewrite bind_lift. cbn [thaw findIndex]. rewrite named_thaw, (find_from_first _ _ _ Hi).
  rewrite bind_run, bind_lift. cbn [at_index]. rewrite list_lookup_fmap, Hx.
  cbn [fmap option_fmap option_map thaw]. fold (thaw_obj x).
  rewrite bind_lift. cbn [get_prop]. rewrite bind_lift, Hap, bind_lift, Hp.
  rewrite bind_lift. cbn [set_prop]. rewrite bind_lift. cbn [get_prop].
  rewrite bind_lift, Hac, bind_lift, get_set_ne, Hc by done.
  rewrite bind_lift. cbn [put_index lift].
  apply write_insert. by repeat apply writes_as_set; [apply writes_as_thaw|..].
Qed.

(** The credit to an element that matched and is no object: only an element
    without a name, for a user that is [undefined]. *)
Lemma verify_credit_other (user award ap ac : value) (d : disk) (l : list json) (i : nat) (e : json) :
  stored d users_json = JArr l →
  first_at (named user) l i = true →
  l !! i = Some e →
  is_obj e = false →
  get_prop award "points" = Ok ap →
  get_prop award "co2" = Ok ac →
  verify_credit user award d = (Throw, d) ∨
  verify_credit user award d =
    (Ok (), write d users_json (Content (Parsed (JArr (settle <$> l))))).
Proof.
  intros Hst Hi He Hobj Hap Hac.
  destruct (first_at_lookup _ _ _ Hi) as (e' & He' & Hn). rewrite He in He'. injection He' as <-.
  unfold verify_credit. rewrite bind_run, readJson_stored, Hst. cbv beta iota.
  rewrite bind_lift. cbn [thaw findIndex]. rewrite named_thaw, (find_from_first _ _ _ Hi).
  rewrite bind_run, bind_lift. cbn [at_index]. rewrite list_lookup_fmap, He.
  cbn [fmap option_fmap option_map].
  assert (get_prop (thaw e) "points" = Ok VUndefined ∧ get_prop (thaw e) "co2" = Ok VUndefined ∧
          ∀ k v, set_prop (thaw e) k v = Ok (thaw e)) as (Hgp & Hgc & Hset).
  { destruct e; try done. }
  clear Hn. rewrite bind_lift, Hgp, bind_lift, Hap.
  rewrite bind_lift. destruct (js_add _ ap) as [pv|]; [|by left].
  rewrite bind_lift, Hset, bind_lift, Hgc, bind_lift, Hac.
  rewrite bind_lift. destruct (js_add _ ac) as [cv|]; [|by left].
  rewrite bind_lift, Hset. cbn [put_index lift].
  right. rewrite list_insert_id by (by rewrite list_lookup_fmap, He).
  apply write_same.
Qed.

(** The credit to a user without an entry. *)
Lemma verify_credit_new (user award ap ac : value) (d : disk) (l : list json) :
  stored d users_json = JArr l →
  none_of (named user) l = true →
  get_prop award "points" = Ok ap →
  get_prop award "co2" = Ok ac →
  verify_credit user award d =
    (Ok (), write d users_json
              (Content (Parsed (JArr ((settle <$> l) ++
                 [JObj (stringify_obj [("name", user); ("points", ap); ("co2", ac)])]))))).
Proof.
  intros Hst Hn Hap Hac.
  unfold verify_credit. rewrite bind_run, readJson_stored, Hst. cbv beta iota.
  rewrite bind_lift. cbn [thaw findIndex]. rewrite named_thaw, (find_from_none _ _ Hn).
  rewrite bind_run, bind_lift, Hap, bind_lift, Hac. cbn [push lift].
  apply write_push.
Qed.

(** The credit writes nothing but the users file, and only at its end. *)
Lemma verify_credit_shape (user award : value) (d : disk) :
  ∃ r d', verify_credit user award d = (r, d') ∧
          (d' = d ∨
           ∃ l', d' = write d users_json (Content (Parsed (JArr l'))) ∧
                 r = Ok () ∧ credit_outcome user (collection d users_json) l').
Proof.
  destruct (stored d users_json) as [| | | |l|o] eqn:Hst;
    try (eexists _, d; split; [|by left];
         unfold verify_credit; rewrite bind_run, readJson_stored, Hst; reflexivity).
  rewrite (stored_collection _ _ _ Hst).
  destruct (find_from (named user) l) as [[i|]|] eqn:Hf.
  - apply find_from_Some in Hf.
    destruct (first_at_lookup _ _ _ Hf) as (e & He & Hn).
    destruct (get_prop award "points") as [ap|] eqn:Hap; cycle 1.
    { eexists _, d. split; [|by left].
      unfold verify_credit. rewrite bind_run, readJson_stored, Hst. cbv beta iota.
      rewrite bind_lift. cbn [thaw findIndex]. rewrite named_thaw, (find_from_first _ _ _ Hf).
      rewrite bind_run, bind_lift. cbn [at_index]. rewrite list_lookup_fmap, He.
      cbn [fmap option_fmap option_map].
      rewrite bind_lift. destruct (get_prop (thaw e) "points"); [|done].
      by rewrite bind_lift, Hap. }
    destruct (get_prop award "co2") as [ac|] eqn:Hac; cycle 1.
    { destruct award; done. }
    destruct (is_obj e) eqn:Hobj.
    + destruct e as [| | | | |x]; try done.
      destruct (js_add (js_or (get (thaw_obj x) "points") (VNum 0)) ap) as [pv|] eqn:Hp; cycle 1.
      { eexists _, d. split; [|by left].
        unfold verify_credit. rewrite bind_run, readJson_stored, Hst. cbv beta iota.
        rewrite bind_lift. cbn [thaw findIndex]. rewrite named_thaw, (find_from_first _ _ _ Hf).
        rewrite bind_run, bind_lift. cbn [at_index]. rewrite list_lookup_fmap, He.
        cbn [fmap option_fmap option_map thaw]. fold (thaw_obj x).
        rewrite bind_lift. cbn [get_prop]. by rewrite bind_lift, Hap, bind_lift, Hp. }
      destruct (js_add (js_or (get (thaw_obj x) "co2") (VNum 0)) ac) as [cv|] eqn:Hc; cycle 1.
      { eexists _, d. split; [|by left].
        unfold verify_credit. rewrite bind_run, readJson_stored, Hst. cbv beta iota.
        rewrite bind_lift. cbn [thaw findIndex]. rewrite named_thaw, (find_from_first _ _ _ Hf).
        rewrite bind_run, bind_lift. cbn [at_index]. rewrite list_lookup_fmap, He.
        cbn [fmap option_fmap option_map thaw]. fold (thaw_obj x).
        rewrite bind_lift. cbn [get_prop]. rewrite bind_lift, Hap, bind_lift, Hp.
        rewrite bind_lift. cbn [set_prop]. rewrite bind_lift. cbn [get_prop].
        by rewrite bind_lift, Hac, bind_lift, get_set_ne, Hc by done. }
      destruct (js_add_serializable _ _ _ Hp) as [pj Hpj].
      destruct (js_add_serializable _ _ _ Hc) as [cj Hcj].
      eexists _, _. split; [by eapply verify_credit_found|].
      right. eexists. split; [done|]. split; [done|]. left. by exists i, x, pj, cj.
    + destruct (verify_credit_other user award ap ac d l i e Hst Hf He Hobj Hap Hac) as [-> | ->].
      * eexists _, _. split; [done|by left].
      * eexists _, _. split; [done|]. right. eexists. split; [done|]. split; [done|].
        right. by left.
  - apply find_from_None in Hf.
    destruct (get_prop award "points") as [ap|] eqn:Hap; cycle 1.
    { eexists _, d. split; [|by left].
      unfold verify_credit. rewrite bind_run, readJson_stored, Hst. cbv beta iota.
      rewrite bind_lift. cbn [thaw findIndex]. rewrite named_thaw, (find_from_none _ _ Hf).
      by rewrite bind_run, bind_lift, Hap. }
    destruct (get_prop award "co2") as [ac|] eqn:Hac; cycle 1.
    { destruct award; done. }
    eexists _, _. split; [by eapply verify_credit_new|].
    right. eexists. split; [done|]. split; [done|]. right. right. by exists ap, ac.
  - eexists _, d. split; [|by left].
    unfold verify_credit. rewrite bind_run, readJson_stored, Hst. cbv beta iota.
    rewrite bind_lift. cbn [thaw findIndex]. by rewrite named_thaw, Hf.
Qed.

End Credit.

(** ** The specification's credit *)

Section SpecCredit.

Lemma named_object (user : value) (x : jobj) :
  named user (JObj x) = Ok (strict_eq (get (thaw_obj x) "name") user).
Proof. reflexivity. Qed.

Lemma name_is_object (user : value) (x : jobj) :
  name_is user (JObj x) = strict_eq (get (thaw_obj x) "name") user.
Proof. unfold name_is. rewrite named_object. cbn. by destruct (strict_eq _ _). Qed.

(** Over objects the test never throws: [findIndex] is the first index. *)
Lemma find_named_objects (user : value) (l : list json) :
  holds_objects l = true → find_from (named user) l = Ok (first_index (name_is user) l).
Proof.
  unfold holds_objects. induction l as [|y l IH]; [done|]. cbn [forallb].
  intros [Hy Hl]%andb_prop. destruct y as [| | | | |x]; try done.
  cbn [find_from first_index]. rewrite name_is_object, named_object. cbn.
  destruct (strict_eq _ _); [done|]. by rewrite (IH Hl).
Qed.

Lemma first_index_first_at (user : value) (l : list json) (i : nat) :
  holds_objects l = true →
  first_index (name_is user) l = Some i → first_at (named user) l i = true.
Proof.
  intros Hl Hi. apply find_from_Some. by rewrite find_named_objects, Hi.
Qed.

Lemma first_index_none_of (user : value) (l : list json) :
  holds_objects l = true →
  first_index (name_is user) l = None → none_of (named user) l = true.
Proof.
  intros Hl Hi. apply find_from_None. by rewrite find_named_objects, Hi.
Qed.

Lemma holds_objects_lookup (l : list json) (i : nat) (e : json) :
  holds_objects l = true → l !! i = Some e → ∃ x, e = JObj x.
Proof.
  unfold holds_objects. rewrite forallb_forall. intros H He.
  specialize (H e (proj1 (list_elem_of_In _ _) (list_elem_of_lookup_2 _ _ _ He))).
  destruct e; try done. eauto.
Qed.

(** The sum the code computes for a stored integer amount. *)
Lemma add_to_amount (x : jobj) (k : string) (p : Z) :
  whole x k = true →
  Object_prototype_get k = VUndefined →
  js_add (js_or (get (thaw_obj x) k) (VNum 0)) (VNum p) = Ok (VNum (of_Z (amount x k + p))).
Proof.
  unfold whole, amount. rewrite get_thaw_obj.
  intros Hn Hk. destruct (get_own x k) as [[| |[z| | |]| | |]|]; try done.
  - apply js_add_or_int.
  - by rewrite Hk.
Qed.

Lemma verify_credit_spec (user : value) (p c : Z) (d : disk) (l : list json) :
  stored d users_json = JArr l →
  holds_objects l = true →
  entry_whole user l = true →
  safe (total "points" user l + p) = true →
  safe (total "co2" user l + c) = true →
  verify_credit user (thaw (JObj [("points", JNum p); ("co2", JNum c)])) d =
    (Ok (), write d users_json (Content (Parsed (JArr (spec_credit user p c l))))).
Proof.
  intros Hst Hl. unfold entry_whole, total, entry, spec_credit.
  destruct (first_index (name_is user) l) as [i|] eqn:Hi.
  - destruct (first_index_Some _ _ _ Hi) as (e & He & _).
    destruct (holds_objects_lookup l i e Hl He) as [x ->]. rewrite He.
    intros [Hwp Hwc]%andb_prop Hsp Hsc.
    eapply verify_credit_found; try done.
    + by apply first_index_first_at.
    + by apply add_to_amount.
    + by apply add_to_amount.
    + by rewrite (of_Z_safe _ Hsp).
    + by rewrite (of_Z_safe _ Hsc).
  - intros _ _ _. by apply verify_credit_new; [|apply first_index_none_of|..].
Qed.

Lemma first_index_insert {A} (f : A → bool) (l : list A) (i : nat) (y : A) :
  first_index f l = Some i → f y = true → first_index f (<[i:=y]> l) = Some i.
Proof.
  revert i. induction l as [|x l IH]; intros i; simpl; [done|].
  destruct (f x) eqn:Hx.
  - intros [= <-] Hy. simpl. by rewrite Hy.
  - destruct (first_index f l) as [i'|] eqn:Hi; [|done].
    intros [= <-] Hy. simpl. rewrite Hx. by rewrite (IH i').
Qed.

Lemma first_index_snoc {A} (f : A → bool) (l : list A) (y : A) :
  first_index f l = None → f y = true → first_index f (l ++ [y]) = Some (length l).
Proof.
  induction l as [|x l IH]; simpl.
  - intros _ ->. done.
  - destruct (f x); [done|]. destruct (first_index f l); [done|].
    intros _ Hy. by rewrite IH.
Qed.

Lemma first_index_ext {A} (f g : A → bool) (l : list A) :
  (∀ x, f x = g x) → first_index f l = first_index g l.
Proof.
  intros H. induction l as [|x l IH]; [done|]. cbn. by rewrite H, IH.
Qed.

(** Writing an element back does not change whether it carries a given
    string as name. *)
Lemma name_is_settle (name : string) (y : json) :
  name_is (VStr name) (settle y) = name_is (VStr name) y.
Proof.
  destruct y as [| |x| | |o]; try done.
  - cbn [settle]. by destruct (is_finite x).
  - change (settle (JObj o)) with (JObj (settle_obj o)).
    rewrite !name_is_object, !get_thaw_obj, get_own_settle.
    destruct (get_own o "name") as [[| |x| | |]|]; try done.
    cbn [fmap option_fmap option_map settle]. by destruct (is_finite x).
Qed.

Lemma name_is_credited (user : value) (o : jobj) (a b : json) :
  name_is user (JObj (set (set o "points" a) "co2" b)) = name_is user (JObj o).
Proof. by rewrite !name_is_object, !get_thaw_obj, !get_own_set_ne. Qed.

Lemma name_is_new (name : string) (p c : value) :
  name_is (VStr name)
    (JObj (stringify_obj [("name", VStr name); ("points", p); ("co2", c)])) = true.
Proof.
  rewrite name_is_object, get_thaw_obj. unfold stringify_obj. cbn.
  apply String.eqb_refl.
Qed.

(** Only an object carries a string as name. *)
Lemma name_is_string_object (name : string) (e : json) :
  name_is (VStr name) e = true → ∃ x, e = JObj x.
Proof. destruct e; try done. eauto. Qed.

Lemma amount_credited_points (x : jobj) (b : json) (z : Z) :
  amount (set (set x "points" (JNum z)) "co2" b) "points" = z.
Proof. unfold amount. by rewrite get_own_set_ne, get_own_set_eq. Qed.

Lemma amount_credited_co2 (x : jobj) (a : json) (z : Z) :
  amount (set (set x "points" a) "co2" (JNum z)) "co2" = z.
Proof. unfold amount. by rewrite get_own_set_eq. Qed.

Variables (name : string) (p c : Z) (l : list json).
Local Abbreviation u := (VStr name).

Lemma first_index_settle :
  first_index (name_is u) (settle <$> l) = first_index (name_is u) l.
Proof.
  rewrite first_index_fmap. apply first_index_ext. intros x. apply name_is_settle.
Qed.

Lemma spec_credit_index :
  first_index (name_is u) (spec_credit u p c l) =
    Some (default (length l) (first_index (name_is u) l)).
Proof.
  unfold spec_credit.
  destruct (first_index (name_is u) l) as [i|] eqn:Hi; cbn [default].
  - destruct (first_index_Some _ _ _ Hi) as (e & He & Hn & _).
    destruct (name_is_string_object _ _ Hn) as [x ->]. rewrite He.
    apply first_index_insert; [by rewrite first_index_settle|].
    rewrite name_is_credited. change (JObj (settle_obj x)) with (settle (JObj x)).
    by rewrite name_is_settle.
  - rewrite <- (length_fmap settle l).
    apply first_index_snoc; [by rewrite first_index_settle|]. apply name_is_new.
Qed.

Lemma spec_credit_total_points :
  total "points" u (spec_credit u p c l) = total "points" u l + p.
Proof.
  unfold total, entry. rewrite spec_credit_index. unfold spec_credit.
  destruct (first_index (name_is u) l) as [i|] eqn:Hi; cbn [default].
  - destruct (first_index_Some _ _ _ Hi) as (e & He & Hn & _).
    destruct (name_is_string_object _ _ Hn) as [x ->]. rewrite He.
    rewrite list_lookup_insert_eq
      by (rewrite length_fmap; by eapply lookup_lt_Some).
    apply amount_credited_points.
  - rewrite lookup_app_r, length_fmap, Nat.sub_diag by (by rewrite length_fmap).
    reflexivity.
Qed.

Lemma spec_credit_total_co2 :
  total "co2" u (spec_credit u p c l) = total "co2" u l + c.
Proof.
  unfold total, entry. rewrite spec_credit_index. unfold spec_credit.
  destruct (first_index (name_is u) l) as [i|] eqn:Hi; cbn [default].
  - destruct (first_index_Some _ _ _ Hi) as (e & He & Hn & _).
    destruct (name_is_string_object _ _ Hn) as [x ->]. rewrite He.
    rewrite list_lookup_insert_eq
      by (rewrite length_fmap; by eapply lookup_lt_Some).
    apply amount_credited_co2.
  - rewrite lookup_app_r, length_fmap, Nat.sub_diag by (by rewrite length_fmap).
    reflexivity.
Qed.

Lemma spec_credit_whole : entry_whole u (spec_credit u p c l) = true.
Proof.
  unfold entry_whole, entry. rewrite spec_credit_index. unfold spec_credit.
  destruct (first_index (name_is u) l) as [i|] eqn:Hi; cbn [default].
  - destruct (first_index_Some _ _ _ Hi) as (e & He & Hn & _).
    destruct (name_is_string_object _ _ Hn) as [x ->]. rewrite He.
    rewrite list_lookup_insert_eq
      by (rewrite length_fmap; by eapply lookup_lt_Some).
    unfold whole. by rewrite get_own_set_ne, !get_own_set_eq.
  - rewrite lookup_app_r, length_fmap, Nat.sub_diag by (by rewrite length_fmap).
    reflexivity.
Qed.

Lemma count_named_settle : count_named u (settle <$> l) = count_named u l.
Proof.
  unfold count_named. induction l as [|x k IH]; [done|].
  rewrite fmap_cons, !filter_cons, name_is_settle.
  destruct (decide (name_is u x = true)); cbn; by rewrite IH.
Qed.

Lemma spec_credit_count :
  count_named u (spec_credit u p c l) = Nat.max 1 (count_named u l).
Proof.
  unfold spec_credit.
  destruct (first_index (name_is u) l) as [i|] eqn:Hi.
  - destruct (first_index_Some _ _ _ Hi) as (e & He & Hn & _).
    destruct (name_is_string_object _ _ Hn) as [x ->]. rewrite He.
    rewrite <- count_named_settle. unfold count_named.
    assert ((settle <$> l) !! i = Some (settle (JObj x))) as He'
      by (by rewrite list_lookup_fmap, He).
    rewrite insert_take_drop by (rewrite length_fmap; by eapply lookup_lt_Some).
    rewrite <- (take_drop_middle (settle <$> l) i _ He') at 3.
    rewrite !filter_app, !filter_cons, name_is_credited.
    change (JObj (settle_obj x)) with (settle (JObj x)).
    rewrite !decide_True by (by rewrite name_is_settle).
    rewrite !length_app. cbn. lia.
  - apply first_index_None in Hi. unfold count_named.
    rewrite filter_app, length_app. fold (count_named u (settle <$> l)).
    rewrite count_named_settle. unfold count_named.
    assert (filter (λ x, name_is u x = true) l = []) as ->.
    { induction Hi as [|x k Hx _ IH]; [done|].
      rewrite filter_cons, decide_False; [done|]. by rewrite Hx. }
    rewrite filter_cons, decide_True by apply name_is_new. reflexivity.
Qed.

Lemma spec_credit_objects :
  holds_objects l = true → holds_objects (spec_credit u p c l) = true.
Proof.
  unfold holds_objects, spec_credit. rewrite !forallb_forall. intros H.
  assert (∀ y, In y (settle <$> l) → is_obj y = true) as H'.
  { intros y [z [<- Hz]]%in_map_iff. specialize (H z Hz). by destruct z. }
  destruct (first_index (name_is u) l) as [i|].
  - destruct (l !! i) as [[| | | | |x]|]; try done.
    intros y Hy%list_elem_of_In%list_elem_of_lookup_1. destruct Hy as [j Hj].
    apply list_lookup_insert_Some in Hj as [(_ & <- & _)|(_ & Hj)]; [done|].
    by eapply H', list_elem_of_In, list_elem_of_lookup_2.
  - intros y [Hy|[<-|[]]]%in_app_or; [by apply H'|done].
Qed.

End SpecCredit.

(** ** POST /api/verify *)

Section Verify.

Lemma field_body (b : payload) (k : string) :
  has_body b = true → get_prop (body_value b) k = Ok (field b k).
Proof. destruct b; [done| |]; intros _; reflexivity. Qed.

(** A field of an object body is a property of the body, or one it
    inherits. *)
Lemma field_object (o : jobj) (k : string) :
  field (ObjectBody o) k = match get_own o k with
                           | Some j => thaw j
                           | None => Object_prototype_get k
                           end.
Proof. unfold field. cbn [body_value thaw get_prop]. apply get_thaw_obj. Qed.

Lemma field_array (l : list json) (k : string) : field (ArrayBody l) k = VUndefined.
Proof. reflexivity. Qed.

(** A field that was sent is written as it was parsed. *)
Lemma field_written (b : payload) (k : string) :
  Object_prototype_get k = VUndefined →
  serialize (field b k) = match b with
                          | ObjectBody o => settle <$> get_own o k
                          | _ => None
                          end.
Proof.
  intros Hk. destruct b as [|o|l]; [done| |done].
  rewrite field_object. destruct (get_own o k) as [j|]; [apply serialize_thaw|by rewrite Hk].
Qed.

(** Without a body the handler throws at once. *)
Lemma post_verify_no_body (c : clock) (f : option upload) (d : disk) :
  post_verify c (Form NoBody f) d = (Ok error_500, d).
Proof. reflexivity. Qed.

Lemma post_verify_missing (c : clock) (req : form) (d : disk) :
  has_body (fields req) = true →
  (negb (truthy (field (fields req) "user")) || negb (truthy (field (fields req) "action"))
   || negb (present (file req)))%bool = true →
  post_verify c req d = (Ok missing_fields, d).
Proof.
  intros Hb H. unfold post_verify, try_catch.
  rewrite bind_lift, (field_body _ _ Hb), bind_lift, (field_body _ _ Hb).
  by rewrite H.
Qed.

(** A complete submission: what the handler does after the test of line
    103. *)
Lemma post_verify_run (c : clock) (b : payload) (f : upload) (d : disk) :
  has_body b = true →
  truthy (field b "user") = true →
  truthy (field b "action") = true →
  post_verify c (Form b (Some f)) d =
    let user := field b "user" in
    let action := field b "action" in
    let record := record_value c user action f in
    match stored d verifications_json with
    | JArr l =>
        let d1 := write d verifications_json
                    (Content (Parsed (JArr ((settle <$> l) ++ [JObj (stringify_obj record)])))) in
        if 2048 <? size f then
          match verify_award action with
          | Ok award =>
              match verify_credit user award d1 with
              | (Ok _, d2) =>
                  (Ok (res_json 200 [("status", VStr "accepted");
                                     ("id", get record "id");
                                     ("award", award)]), d2)
              | (Throw, d2) => (Ok error_500, d2)
              end
          | Throw => (Ok error_500, d1)
          end
        else
          (Ok (res_json 200 [("status", VStr "pending");
                             ("id", get record "id");
                             ("filename", get record "filename")]), d1)
    | _ => (Ok error_500, d)
    end.
Proof.
  intros Hb Hu Ha. unfold post_verify, try_catch.
  rewrite bind_lift, (field_body _ _ Hb), bind_lift, (field_body _ _ Hb).
  cbn [fields file present]. rewrite Hu, Ha. cbn [negb orb].
  rewrite bind_run, readJson_stored. cbv beta iota zeta.
  rewrite bind_lift. cbn [file_prop]. rewrite bind_lift. cbn [file_prop].
  rewrite bind_lift. cbn [file_prop]. rewrite bind_lift.
  destruct (stored d verifications_json) as [| | | |l|o]; try reflexivity.
  cbn [thaw push]. rewrite bind_run, write_push. cbv beta iota.
  unfold record_value. cbn [serialize default]. fold stringify_obj.
  destruct (2048 <? size f); [|reflexivity].
  rewrite bind_lift. destruct (verify_award _) as [award|]; [|reflexivity].
  rewrite bind_run. by destruct (verify_credit _ _ _) as [[[]|] d2].
Qed.

(** What is written for the record of a submission with text fields. *)
Lemma record_written (c : clock) (u a : string) (f : upload) :
  stringify_obj (record_value c (VStr u) (VStr a) f) =
    match record_of c u a f (if 2048 <? size f then "accepted" else "pending") with
    | JObj o => o
    | _ => []
    end.
Proof.
  unfold record_value, stringify_obj. reflexivity.
Qed.

End Verify.

(** ** POST /api/verifications/approve *)

Section Approve.

Lemma has_id_thaw (id : value) (l : list json) :
  find_from (λ x, xi ← get_prop x "id"; loose_eq xi id) (thaw <$> l) =
  find_from (has_id id) l.
Proof. by rewrite find_from_fmap. Qed.

Lemma post_approve_no_body (d : disk) : post_approve NoBody d = (Ok error_500, d).
Proof. reflexivity. Qed.

(** The file holds something that is no array. *)
Lemma post_approve_no_array (b : payload) (d : disk) :
  (∀ l, stored d verifications_json ≠ JArr l) →
  post_approve b d = (Ok error_500, d).
Proof.
  intros H. unfold post_approve, try_catch.
  rewrite bind_lift. destruct (get_prop _ "id"); [|done].
  rewrite bind_run, readJson_stored. cbv beta iota. rewrite bind_lift.
  destruct (stored d verifications_json) as [| | | |l|o]; try done.
  by destruct (H l).
Qed.

Lemma post_approve_not_found (b : payload) (d : disk) (l : list json) :
  has_body b = true →
  stored d verifications_json = JArr l →
  none_of (has_id (field b "id")) l = true →
  post_approve b d = (Ok not_found, d).
Proof.
  intros Hb Hst H. unfold post_approve, try_catch.
  rewrite bind_lift, (field_body _ _ Hb), bind_run, readJson_stored, Hst. cbv beta iota.
  rewrite bind_lift. cbn [thaw findIndex]. by rewrite has_id_thaw, (find_from_none _ _ H).
Qed.

Lemma post_approve_throws (b : payload) (d : disk) (l : list json) :
  stored d verifications_json = JArr l →
  find_from (has_id (field b "id")) l = Throw →
  post_approve b d = (Ok error_500, d).
Proof.
  intros Hst H. unfold post_approve, try_catch.
  destruct b as [|o|a]; [done| |];
    (rewrite bind_lift, field_body, bind_run, readJson_stored, Hst by done; cbv beta iota;
     rewrite bind_lift; cbn [thaw findIndex]; by rewrite has_id_thaw, H).
Qed.

(** The record found is an object: its status is set and written, then the
    award is computed and credited. *)
Lemma post_approve_found (b : payload) (d : disk) (l : list json) (i : nat) (x : jobj) :
  has_body b = true →
  stored d verifications_json = JArr l →
  first_at (has_id (field b "id")) l i = true →
  l !! i = Some (JObj x) →
  post_approve b d =
    let d1 := write d verifications_json
                (Content (Parsed (JArr (<[i := JObj (set (settle_obj x) "status" (JStr "accepted"))]>
                                          (settle <$> l))))) in
    match approve_award (get (thaw_obj x) "action") with
    | Ok award =>
        match approve_credit (get (thaw_obj x) "user") award d1 with
        | (Ok _, d2) => (Ok (res_json 200 [("status", VStr "ok"); ("award", award)]), d2)
        | (Throw, d2) => (Ok error_500, d2)
        end
    | Throw => (Ok error_500, d1)
    end.
Proof.
  intros Hb Hst Hi Hx. unfold post_approve, try_catch.
  rewrite bind_lift, (field_body _ _ Hb), bind_run, readJson_stored, Hst. cbv beta iota.
  rewrite bind_lift. cbn [thaw findIndex]. rewrite has_id_thaw, (find_from_first _ _ _ Hi).
  rewrite bind_lift. cbn [at_index]. rewrite list_lookup_fmap, Hx.
  cbn [fmap option_fmap option_map thaw]. fold (thaw_obj x).
  rewrite bind_lift. cbn [set_prop]. rewrite bind_lift. cbn [put_index].
  rewrite bind_run.
  rewrite (write_insert _ _ _ _ (set (settle_obj x) "status" (JStr "accepted")))
    by (by apply writes_as_set; [apply writes_as_thaw|]).
  cbv beta iota zeta.
  rewrite bind_lift. cbn [at_index].
  rewrite list_lookup_insert_eq by (rewrite length_fmap; by eapply lookup_lt_Some).
  rewrite bind_lift. cbn [get_prop]. rewrite bind_lift, get_set_ne by done.
  destruct (approve_award _) as [award|]; [|reflexivity].
  rewrite bind_lift. cbn [get_prop]. rewrite get_set_ne by done. rewrite bind_lift.
  rewrite bind_run. by destruct (approve_credit _ _ _) as [[[]|] d2].
Qed.

(** The element found is no object: it has no action, and the handler throws
    after it has written the file back. *)
Lemma post_approve_other (b : payload) (d : disk) (l : list json) (i : nat) (e : json) :
  has_body b = true →
  stored d verifications_json = JArr l →
  first_at (has_id (field b "id")) l i = true →
  l !! i = Some e →
  is_obj e = false →
  post_approve b d =
    (Ok error_500, write d verifications_json (Content (Parsed (JArr (settle <$> l))))).
Proof.
  intros Hb Hst Hi He Hobj.
  destruct (first_at_lookup _ _ _ Hi) as (e' & He' & Hn). rewrite He in He'. injection He' as <-.
  unfold post_approve, try_catch.
  rewrite bind_lift, (field_body _ _ Hb), bind_run, readJson_stored, Hst. cbv beta iota.
  rewrite bind_lift. cbn [thaw findIndex]. rewrite has_id_thaw, (find_from_first _ _ _ Hi).
  rewrite bind_lift. cbn [at_index]. rewrite list_lookup_fmap, He.
  cbn [fmap option_fmap option_map].
  assert (get_prop (thaw e) "action" = Ok VUndefined ∧
          ∀ k v, set_prop (thaw e) k v = Ok (thaw e)) as (Hga & Hset).
  { destruct e; try done. }
  rewrite bind_lift, Hset, bind_lift. cbn [put_index].
  rewrite list_insert_id by (by rewrite list_lookup_fmap, He).
  rewrite bind_run, write_same. cbv beta iota.
  rewrite bind_lift. cbn [at_index]. rewrite list_lookup_fmap, He.
  cbn [fmap option_fmap option_map]. by rewrite bind_lift, Hga.
Qed.

End Approve.

(** ** POST /api/reports *)

Section Reports.

Lemma post_reports_fails (c : clock) (b : payload) (d : disk) :
  has_body b = false ∨ (∀ l, stored d reports_json ≠ JArr l) →
  post_reports c b d = (Ok error_500, d).
Proof.
  intros H. unfold post_reports, try_catch. rewrite bind_run, readJson_stored.
  cbv beta iota zeta.
  destruct b as [|o|a]; [done| |]; (destruct H as [H|H]; [done|]);
    rewrite bind_lift; cbn [body_value thaw set_prop]; rewrite bind_lift;
    cbn [set_prop]; rewrite bind_lift;
    (destruct (stored d reports_json) as [| | | |l|o']; try done; by destruct (H l)).
Qed.

Lemma post_reports_run (c : clock) (b : payload) (d : disk) (l : list json) :
  has_body b = true →
  stored d reports_json = JArr l →
  post_reports c b d =
    (Ok (Response 200 (JObj [("status", JStr "ok"); ("rec", report_json c b)])),
     write d reports_json (Content (Parsed (JArr ((settle <$> l) ++ [report_json c b]))))).
Proof.
  intros Hb Hst. unfold post_reports, try_catch. rewrite bind_run, readJson_stored, Hst.
  cbv beta iota zeta.
  destruct b as [|o|a]; [done| |]; rewrite bind_lift; cbn [body_value thaw set_prop];
    rewrite bind_lift; cbn [set_prop]; rewrite bind_lift; cbn [push];
    rewrite bind_run, write_push; cbv beta iota.
  - fold (thaw_obj o).
    assert (writes_as (set (set (thaw_obj o) "id" (VNum (now c))) "timestamp" (VStr (iso c)))
              (report_of c o)) as Hw
      by (by repeat apply writes_as_set; [apply writes_as_thaw|..]).
    rewrite serialize_obj, (writes_as_stringify _ _ Hw).
    unfold res_json, stringify_obj at 1. cbn [omap list_omap fst snd].
    rewrite serialize_obj, (writes_as_stringify _ _ Hw). reflexivity.
  - change (VArr (thaw <$> a)) with (thaw (JArr a)).
    unfold res_json, stringify_obj. cbn [omap list_omap fst snd fmap option_fmap option_map].
    rewrite !serialize_thaw. reflexivity.
Qed.

End Reports.

(** ** Object.assign *)

Section Assign.

Lemma get_own_None {A} (o : list (string * A)) (k : string) :
  get_own o k = None ↔ k ∉ o.*1.
Proof.
  induction o as [|[k' v] o IH]; cbn.
  - split; [|done]. intros _. apply not_elem_of_nil.
  - rewrite not_elem_of_cons. destruct (String.eqb_spec k' k) as [->|Hne].
    + split; [done|]. by intros [? _].
    + rewrite IH. split; [intros ?; split; [congruence|done]|by intros [_ ?]].
Qed.

Lemma get_own_NoDup {A} (o : list (string * A)) (k : string) (v : A) :
  NoDup o.*1 → (k, v) ∈ o → get_own o k = Some v.
Proof.
  induction o as [|[k' v'] o IH]; cbn; [by intros _ ?%elem_of_nil|].
  intros [Hk Ho]%NoDup_cons [[= -> ->]|Hin]%elem_of_cons.
  - by rewrite String.eqb_refl.
  - destruct (String.eqb_spec k' k) as [->|]; [|by apply IH].
    destruct Hk. apply list_elem_of_fmap. by exists (k, v).
Qed.

Lemma get_own_assign_prop_ne {A} (x : list (string * A)) (k k' : string) (v : A) :
  k' ≠ k → get_own (assign_prop x k' v) k = get_own x k.
Proof.
  intros Hne. unfold assign_prop.
  destruct (_ && _)%bool; [done|]. by apply get_own_set_ne.
Qed.

Lemma Object_assign_cons {A} (x u : list (string * A)) (k : string) (v : A) :
  Object_assign x ((k, v) :: u) = Object_assign (assign_prop x k v) u.
Proof. reflexivity. Qed.

(** Properties the source does not have are kept. *)
Lemma Object_assign_keeps {A} (x u : list (string * A)) (k : string) :
  get_own u k = None → get_own (Object_assign x u) k = get_own x k.
Proof.
  revert x. induction u as [|[k' v] u IH]; intros x; [done|].
  rewrite Object_assign_cons. cbn [get_own].
  destruct (String.eqb_spec k' k) as [->|Hne]; [done|]. intros Hu.
  rewrite IH by done. by apply get_own_assign_prop_ne.
Qed.

(** Properties the source has are taken from it. *)
Lemma Object_assign_takes {A} (x u : list (string * A)) (k : string) (v : A) :
  NoDup u.*1 → get_own u k = Some v →
  k ≠ "__proto__" ∨ has_key x k = true →
  get_own (Object_assign x u) k = Some v.
Proof.
  revert x. induction u as [|[k' v'] u IH]; intros x; [done|].
  rewrite Object_assign_cons. cbn [get_own]. rewrite fmap_cons. cbn [fst].
  intros [Hk Hu]%NoDup_cons. destruct (String.eqb_spec k' k) as [->|Hne].
  - intros [= ->] Hor.
    rewrite (Object_assign_keeps _ u k) by (by apply get_own_None).
    unfold assign_prop.
    replace (String.eqb k "__proto__" && negb (has_key x k))%bool with false.
    + apply get_own_set_eq.
    + destruct Hor as [Hp| ->]; [|by rewrite andb_false_r].
      by destruct (String.eqb_spec k "__proto__").
  - intros Hv Hor. apply IH; [done|done|].
    destruct Hor as [?|Hx]; [by left|right].
    unfold has_key in *. by rewrite get_own_assign_prop_ne.
Qed.

(** Assigning what is already there changes nothing. *)
Lemma Object_assign_same {A} (x u : list (string * A)) :
  (∀ k v, (k, v) ∈ u →
          get_own x k = Some v ∨ (k = "__proto__" ∧ has_key x k = false)) →
  Object_assign x u = x.
Proof.
  induction u as [|[k v] u IH]; [done|]. rewrite Object_assign_cons. intros H.
  assert (assign_prop x k v = x) as ->.
  { unfold assign_prop. destruct (H k v) as [Hx|[-> Hx]]; [by left| |].
    - unfold has_key. rewrite Hx, andb_false_r. by apply set_same.
    - by rewrite Hx. }
  apply IH. intros k' v' Hin. apply H. by right.
Qed.

Lemma Object_assign_idemp {A} (x u : list (string * A)) :
  NoDup u.*1 → Object_assign (Object_assign x u) u = Object_assign x u.
Proof.
  intros Hu. apply Object_assign_same. intros k v Hin.
  pose proof (get_own_NoDup u k v Hu Hin) as Hk.
  destruct (String.eqb_spec k "__proto__") as [->|Hne];
    [|left; apply Object_assign_takes; [exact Hu|exact Hk|left; exact Hne]].
  destruct (has_key x "__proto__") eqn:Hx.
  - left. apply Object_assign_takes; [done|done|by right].
  - right. split; [done|]. unfold has_key in *.
    clear Hk Hin Hu. revert x Hx.
    induction u as [|[k' v'] u IH]; intros x Hx; [done|].
    rewrite Object_assign_cons. apply IH. unfold assign_prop.
    destruct (String.eqb_spec k' "__proto__") as [->|Hne'].
    + unfold has_key. destruct (get_own x "__proto__") eqn:E; [done|].
      cbn. by rewrite E.
    + cbn [andb]. by rewrite get_own_set_ne.
Qed.

Lemma distinct_keys_NoDup {A} (o : list (string * A)) :
  distinct_keys o = true → NoDup o.*1.
Proof. unfold distinct_keys. intros H. apply bool_decide_eq_true in H. exact H. Qed.

End Assign.

(** ** POST /api/users *)

Section Users.

Variable E : value → payload → result json.

Lemma named_field_thaw (b : payload) (l : list json) :
  has_body b = true →
  find_from (λ x, n ← get_prop x "name"; m ← get_prop (body_value b) "name"; Ok (strict_eq n m))
    (thaw <$> l) =
  find_from (named (field b "name")) l.
Proof.
  intros Hb. rewrite find_from_fmap. unfold named, compose.
  induction l as [|x l IH]; [done|]. cbn [find_from]. rewrite IH.
  destruct (get_prop (thaw x) "name"); [|done]. cbn. by rewrite (field_body _ _ Hb).
Qed.

(** The handler in terms of [upserted]. *)
Lemma post_users_run (b : payload) (d : disk) (l : list json) :
  stored d users_json = JArr l →
  post_users E b d =
    match upserted E b l with
    | Ok l' => (Ok ok_response, write d users_json (Content (Parsed (JArr l'))))
    | Throw => (Ok error_500, d)
    end.
Proof.
  intros Hst. unfold post_users, try_catch. rewrite bind_run, readJson_stored, Hst.
  cbv beta iota zeta. rewrite bind_lift. cbn [thaw findIndex].
  destruct (has_body b) eqn:Hb.
  - rewrite (named_field_thaw _ _ Hb).
    assert (upserted E b l =
            match find_from (named (field b "name")) l with
            | Ok (Some i) =>
                match l !! i with
                | Some (JObj x) => Ok (<[i := JObj (assign x b)]> (settle <$> l))
                | Some e => j ← E (thaw e) b; Ok (<[i := settle j]> (settle <$> l))
                | None => Throw
                end
            | Ok None => Ok ((settle <$> l) ++ [payload_json b])
            | Throw => Throw
            end) as -> by (by destruct b).
    destruct (find_from _ l) as [[i|]|] eqn:Hf; [| |done].
    + apply find_from_Some in Hf. destruct (first_at_lookup _ _ _ Hf) as (e & He & Hn).
      rewrite He. rewrite bind_run, bind_lift. cbn [at_index].
      rewrite list_lookup_fmap, He. cbn [fmap option_fmap option_map].
      rewrite bind_lift.
      destruct e as [| | | | |x]; try (by cbn in Hn); cbn [thaw upsert_target];
        try (destruct (E _ b) as [j|]; cbn [fmap result_fmap mbind result_bind]; [|done];
             cbn [lift put_index];
             rewrite bind_run, writeJson_array, list_fmap_insert, stringify_thaw_all,
               serialize_thaw; reflexivity).
      fold (thaw_obj x). cbn [lift put_index].
      rewrite bind_run.
      rewrite (write_insert _ _ _ _ (assign x b))
        by (apply writes_as_assign; [apply writes_as_thaw|apply writes_as_payload]).
      reflexivity.
    + rewrite bind_run. cbn [lift push]. rewrite bind_run, write_push, serialize_body.
      reflexivity.
  - destruct b; try done. destruct l as [|x l]; [reflexivity|].
    rewrite fmap_cons. cbn [find_from upserted body_value].
    by destruct (get_prop (thaw x) "name").
Qed.

(** The file holds something that is no array. *)
Lemma post_users_no_array (b : payload) (d : disk) :
  (∀ l, stored d users_json ≠ JArr l) → post_users E b d = (Ok error_500, d).
Proof.
  intros H. unfold post_users, try_catch. rewrite bind_run, readJson_stored.
  cbv beta iota zeta. rewrite bind_lift.
  destruct (stored d users_json) as [| | | |l|o]; try done. by destruct (H l).
Qed.

End Users.

(** ** What a request may change *)

Section Shapes.

Variable E : value → payload → result json.

Lemma get_collection_run (p : path) (d : disk) :
  get_collection p d = (Ok (Response 200 (settle (stored d p))), d).
Proof.
  unfold get_collection. rewrite bind_run, readJson_stored. cbv beta iota.
  by rewrite serialize_thaw.
Qed.

Lemma stored_array_dec (d : disk) (p : path) :
  (∃ l, stored d p = JArr l) ∨ (∀ l, stored d p ≠ JArr l).
Proof. destruct (stored d p); eauto; right; done. Qed.

Lemma post_reports_shape (c : clock) (b : payload) (d : disk) :
  ∃ r d', post_reports c b d = (Ok r, d') ∧
          In (status r) [200; 500] ∧
          route_step E (POST_reports c b) d d'.
Proof.
  destruct (has_body b) eqn:Hb; cycle 1.
  { rewrite post_reports_fails by (by left).
    eexists _, _. split; [done|]. split; [cbn; auto|]. unfold route_step. split_and!; [by left|done|done]. }
  destruct (stored_array_dec d reports_json) as [[l Hst]|Hno]; cycle 1.
  { rewrite post_reports_fails by (by right).
    eexists _, _. split; [done|]. split; [cbn; auto|]. unfold route_step. split_and!; [by left|done|done]. }
  rewrite (post_reports_run c b d l Hb Hst).
  eexists _, _. split; [done|]. split; [cbn; auto|]. unfold route_step.
  split_and!; [|done|done]. right. eexists. split; [done|].
  rewrite (stored_collection _ _ _ Hst). by eexists.
Qed.

Lemma post_users_shape (b : payload) (d : disk) :
  ∃ r d', post_users E b d = (Ok r, d') ∧
          In (status r) [200; 500] ∧
          route_step E (POST_users b) d d'.
Proof.
  destruct (stored_array_dec d users_json) as [[l Hst]|Hno]; cycle 1.
  { rewrite post_users_no_array by done.
    eexists _, _. split; [done|]. split; [cbn; auto|]. unfold route_step. split_and!; [done|by left|done]. }
  rewrite (post_users_run E b d l Hst).
  destruct (upserted E b l) as [l'|] eqn:Hu.
  - eexists _, _. split; [done|]. split; [cbn; auto|]. unfold route_step.
    split_and!; [done| |done]. right. exists l'. split; [done|].
    by rewrite (stored_collection _ _ _ Hst).
  - eexists _, _. split; [done|]. split; [cbn; auto|]. unfold route_step. split_and!; [done|by left|done].
Qed.

(** What the credit leaves of the disk, as a step of the users file. *)
Lemma thaw_not_native (j : json) : is_native (thaw j) = false.
Proof. by destruct j. Qed.

Lemma field_not_native (b : payload) (k : string) :
  Object_prototype_get k = VUndefined → is_native (field b k) = false.
Proof.
  intros Hk. destruct b as [|o|l]; [done| |by rewrite field_array].
  rewrite field_object, Hk. destruct (get_own o k); [apply thaw_not_native|done].
Qed.

Lemma stored_not_native (x : jobj) (k : string) :
  Object_prototype_get k = VUndefined → is_native (get (thaw_obj x) k) = false.
Proof.
  intros Hk. rewrite get_thaw_obj, Hk.
  destruct (get_own x k); [apply thaw_not_native|done].
Qed.

Lemma verify_credit_step (user award : value) (d : disk) :
  is_native user = false →
  ∃ r d', verify_credit user award d = (r, d') ∧
          read d' reports_json = read d reports_json ∧
          read d' verifications_json = read d verifications_json ∧
          file_step (λ l l', ∃ user, is_native user = false ∧ credit_outcome user l l')
            d d' users_json.
Proof.
  intros Hnat.
  destruct (verify_credit_shape user award d) as (r & d' & Hrun & [-> | (l' & -> & _ & Hout)]).
  - eexists _, _. split; [done|]. split_and!; [done|done|by left].
  - eexists _, _. split; [done|]. split_and!; [done|done|].
    right. exists l'. split; [done|]. by exists user.
Qed.

Lemma status_ok_record (c : clock) (user action : value) (f : upload) :
  status_ok (JObj (stringify_obj (record_value c user action f))) = true.
Proof.
  unfold status_ok, record_value, stringify_obj. cbn.
  destruct (serialize user), (serialize action); cbn; by destruct (2048 <? size f).
Qed.

Lemma file_step_after_write (step : list json → list json → Prop) (d d1 d2 : disk) (p q : path) (f : datafile) :
  p ≠ q → d1 = write d q f →
  file_step step d1 d2 p → file_step step d d2 p.
Proof.
  intros Hne -> [H | (l' & H & Hs)].
  - left. by rewrite H, read_write_ne.
  - right. exists l'. split; [done|]. by rewrite collection_write_ne in Hs.
Qed.

Lemma post_verify_shape (c : clock) (req : form) (d : disk) :
  ∃ r d', post_verify c req d = (Ok r, d') ∧
          In (status r) [200; 400; 500] ∧
          route_step E (POST_verify c req) d d'.
Proof.
  assert (route_step E (POST_verify c req) d d) as Hsame
    by (cbn; split_and!; [done|by left|by left]).
  destruct req as [b f]. destruct (has_body b) eqn:Hb; cycle 1.
  { destruct b; try done. rewrite post_verify_no_body.
    eexists _, _. split; [done|]. split; [cbn; auto|done]. }
  destruct (negb (truthy (field b "user")) || negb (truthy (field b "action"))
            || negb (present f))%bool eqn:Hblank.
  { rewrite post_verify_missing by done.
    eexists _, _. split; [done|]. split; [cbn; auto|done]. }
  apply orb_false_elim in Hblank as [[Hu Ha]%orb_false_elim Hf].
  apply negb_false_iff in Hu, Ha, Hf. destruct f as [f|]; [|done].
  rewrite (post_verify_run c b f d Hb Hu Ha). cbv zeta.
  destruct (stored_array_dec d verifications_json) as [[l Hst]|Hno]; cycle 1.
  { destruct (stored d verifications_json) as [| | | |l|o];
      try (eexists _, _; split; [done|]; split; [cbn; auto|done]).
    by destruct (Hno l). }
  rewrite Hst.
  set (rec := JObj (stringify_obj (record_value c (field b "user") (field b "action") f))).
  set (d1 := write d verifications_json (Content (Parsed (JArr ((settle <$> l) ++ [rec]))))).
  assert (file_step (appended status_ok) d d1 verifications_json) as Hv.
  { right. eexists. split; [apply read_write|].
    rewrite (stored_collection _ _ _ Hst). exists rec. split; [apply status_ok_record|done]. }
  destruct (2048 <? size f); cycle 1.
  { eexists _, _. split; [done|]. split; [cbn; auto|]. unfold route_step.
    split_and!; [done|by left|done]. }
  destruct (verify_award _) as [award|]; cycle 1.
  { eexists _, _. split; [done|]. split; [cbn; auto|]. unfold route_step.
    split_and!; [done|by left|done]. }
  destruct (verify_credit_step (field b "user") award d1 (field_not_native b "user" eq_refl))
    as (r & d2 & Hrun & Hr & Hvv & Hus).
  rewrite Hrun.
  assert (route_step E (POST_verify c (Form b (Some f))) d d2) as Hstep.
  { unfold route_step. split_and!.
    - exact Hr.
    - eapply (file_step_after_write _ d d1 d2 users_json verifications_json);
        [done|reflexivity|exact Hus].
    - destruct Hv as [Hv|(l' & Hv & Hs)].
      + left. by rewrite Hvv.
      + right. exists l'. split; [by rewrite Hvv|done]. }
  destruct r as [[]|]; eexists _, _; (split; [done|]); (split; [cbn; auto|done]).
Qed.

Lemma post_approve_shape (b : payload) (d : disk) :
  ∃ r d', post_approve b d = (Ok r, d') ∧
          In (status r) [200; 404; 500] ∧
          route_step E (POST_approve b) d d'.
Proof.
  assert (route_step E (POST_approve b) d d) as Hsame
    by (cbn; split_and!; [done|by left|by left]).
  destruct (has_body b) eqn:Hb; cycle 1.
  { destruct b; try done. rewrite post_approve_no_body.
    eexists _, _. split; [done|]. split; [cbn; auto|done]. }
  destruct (stored_array_dec d verifications_json) as [[l Hst]|Hno]; cycle 1.
  { rewrite post_approve_no_array by done.
    eexists _, _. split; [done|]. split; [cbn; auto|done]. }
  destruct (find_from (has_id (field b "id")) l) as [[i|]|] eqn:Hf.
  - apply find_from_Some in Hf. destruct (first_at_lookup _ _ _ Hf) as (e & He & Hn).
    destruct (is_obj e) eqn:Hobj; cycle 1.
    { rewrite (post_approve_other b d l i e) by done.
      eexists _, _. split; [done|]. split; [cbn; auto|]. unfold route_step.
      split_and!; [done|by left|]. right. eexists. split; [apply read_write|].
      rewrite (stored_collection _ _ _ Hst). by left. }
    destruct e as [| | | | |x]; try done.
    rewrite (post_approve_found b d l i x) by done. cbv zeta.
    set (d1 := write d verifications_json _).
    assert (file_step approved d d1 verifications_json) as Hv.
    { right. eexists. split; [apply read_write|].
      rewrite (stored_collection _ _ _ Hst). right. by exists i, x. }
    destruct (approve_award _) as [award|]; cycle 1.
    { eexists _, _. split; [done|]. split; [cbn; auto|]. unfold route_step.
      split_and!; [done|by left|done]. }
    rewrite approve_credit_same.
    destruct (verify_credit_step (get (thaw_obj x) "user") award d1
                (stored_not_native x "user" eq_refl))
      as (r & d2 & Hrun & Hr & Hvv & Hus).
    rewrite Hrun.
    assert (route_step E (POST_approve b) d d2) as Hstep.
    { unfold route_step. split_and!.
      - exact Hr.
      - eapply (file_step_after_write _ d d1 d2 users_json verifications_json);
        [done|reflexivity|exact Hus].
      - destruct Hv as [Hv|(l' & Hv & Hs)].
        + left. by rewrite Hvv.
        + right. exists l'. split; [by rewrite Hvv|done]. }
    destruct r as [[]|]; eexists _, _; (split; [done|]); (split; [cbn; auto|done]).
  - apply find_from_None in Hf. rewrite (post_approve_not_found b d l) by done.
    eexists _, _. split; [done|]. split; [cbn; auto|done].
  - rewrite (post_approve_throws b d l) by done.
    eexists _, _. split; [done|]. split; [cbn; auto|done].
Qed.

(** Every request is answered, with a status of its route, and changes the
    files as its route may. *)
Lemma serve_shape (r : request) (d : disk) :
  ∃ resp d', serve E r d = (Ok resp, d') ∧
             In (status resp) (possible_statuses r) ∧
             route_step E r d d'.
Proof.
  destruct r as [|c b| |b|c req| |b]; cbn [serve possible_statuses];
    try (rewrite get_collection_run; eexists _, _; split; [done|]; split; [cbn; auto|done]).
  - apply post_reports_shape.
  - apply post_users_shape.
  - apply post_verify_shape.
  - apply post_approve_shape.
Qed.

End Shapes.

(** ** Facts shared by the statements *)

Section Shared.

Lemma settle_all_finite (j : json) : all_finite j = true → settle j = j.
Proof.
  induction j as [|b|x|s|l IH|o IH] using json_ind'; try done.
  - cbn. by intros ->.
  - cbn [all_finite settle]. intros H. f_equal.
    induction IH as [|y l Hy _ IHl]; [done|].
    cbn in H. apply andb_prop in H as [H1 H2].
    rewrite fmap_cons, Hy, IHl by done. done.
  - cbn [all_finite settle]. intros H. f_equal.
    induction IH as [|[k y] l Hy _ IHl]; [done|].
    cbn in H. apply andb_prop in H as [H1 H2].
    rewrite fmap_cons, IHl by done. cbn. cbn in Hy. by rewrite Hy.
Qed.

Lemma collection_stored (d : disk) (p : path) (i : nat) (x : json) :
  collection d p !! i = Some x → stored d p = JArr (collection d p).
Proof.
  unfold collection. by destruct (stored d p).
Qed.

Lemma collection_array (d : disk) (p : path) :
  is_array (stored d p) = true → stored d p = JArr (collection d p).
Proof.
  unfold collection. by destruct (stored d p).
Qed.

Lemma no_array (d : disk) (p : path) :
  is_array (stored d p) = false → ∀ l, stored d p ≠ JArr l.
Proof.
  intros H l Hl. by rewrite Hl in H.
Qed.





End Shared.

(** ** The ledger invariant *)

Section Invariant.

Lemma ledger_ok_Forall (l : list json) :
  ledger_ok l = true ↔ Forall (λ x, entry_ok x = true) l.
Proof.
  unfold ledger_ok. rewrite forallb_forall, Forall_forall.
  split; intros H x Hx; apply H; by apply list_elem_of_In.
Qed.

Lemma nonneg_settle (o : jobj) (k : string) :
  nonneg o k = true → nonneg (settle_obj o) k = true.
Proof.
  unfold nonneg. rewrite get_own_settle.
  by destruct (get_own o k) as [[| |[]| | |]|].
Qed.

Lemma entry_ok_settle (x : json) : entry_ok x = true → entry_ok (settle x) = true.
Proof.
  destruct x as [| | | | |o]; try done. cbn [settle entry_ok]. fold (settle_obj o).
  intros [H1 H2]%andb_prop. by rewrite !nonneg_settle.
Qed.

Lemma ledger_ok_settle (l : list json) :
  ledger_ok l = true → ledger_ok (settle <$> l) = true.
Proof.
  rewrite !ledger_ok_Forall, Forall_fmap. intros H.
  eapply Forall_impl; [exact H|]. intros x. apply entry_ok_settle.
Qed.

Lemma ledger_ok_objects (l : list json) : ledger_ok l = true → holds_objects l = true.
Proof.
  unfold ledger_ok, holds_objects. rewrite !forallb_forall.
  intros H x Hx. apply H in Hx. by destruct x.
Qed.

Lemma nonneg_get (o : jobj) (k : string) :
  nonneg o k = true → ∃ a, get_own o k = Some (JNum (Int a)) ∧ 0 ≤ a ≤ max_double.
Proof.
  unfold nonneg. destruct (get_own o k) as [[| |[a| | |]| | |]|]; try done.
  intros [H1 H2]%andb_prop. exists a. split; [done|]. lia.
Qed.

Lemma nonneg_set_eq (o : jobj) (k : string) (a : Z) :
  0 ≤ a ≤ max_double → nonneg (set o k (JNum (Int a))) k = true.
Proof.
  intros H. unfold nonneg. rewrite get_own_set_eq.
  apply andb_true_intro. split; apply Z.leb_le; lia.
Qed.

Lemma nonneg_set_ne (o : jobj) (k k' : string) (j : json) :
  k ≠ k' → nonneg (set o k j) k' = nonneg o k'.
Proof.
  intros H. unfold nonneg. by rewrite get_own_set_ne.
Qed.

Lemma verify_credit_no_array (user award : value) (d : disk) :
  (∀ l, stored d users_json ≠ JArr l) → verify_credit user award d = (Throw, d).
Proof.
  intros Hn. unfold verify_credit. rewrite bind_run, readJson_stored.
  destruct (stored d users_json) as [| | | |l|o]; try done.
  by destruct (Hn l).
Qed.

Lemma added_amount (o : jobj) (k : string) (a n : Z) :
  get_own o k = Some (JNum (Int a)) →
  js_add (js_or (get (thaw_obj o) k) (VNum 0)) (VNum n) = Ok (VNum (of_Z (a + n))).
Proof.
  intros H. rewrite get_thaw_obj, H. apply js_add_or_int.
Qed.

Lemma credit_keeps_ledger_ok (user : value) (n : Z) (d : disk) :
  0 ≤ n ≤ 20 →
  ledger_ok (collection d users_json) = true →
  ledger_ok (collection (verify_credit user (thaw (award_obj n)) d).2 users_json) = true.
Proof.
  intros Hn Hok.
  destruct (stored_array_dec d users_json) as [[l Hl]|Hno];
    [|by rewrite verify_credit_no_array].
  rewrite (stored_collection _ _ _ Hl) in Hok.
  pose proof (ledger_ok_objects _ Hok) as Hobj.
  destruct (first_index (name_is user) l) as [i|] eqn:Hi.
  - pose proof (first_index_first_at _ _ _ Hobj Hi) as Hat.
    destruct (first_at_lookup _ _ _ Hat) as (e & He & _).
    destruct (holds_objects_lookup _ _ _ Hobj He) as [x ->].
    assert (entry_ok (JObj x) = true) as [Hp Hc]%andb_prop.
    { apply ledger_ok_Forall in Hok. rewrite Forall_lookup in Hok. by eapply Hok. }
    apply nonneg_get in Hp as (a & Ha & Ha'), Hc as (b & Hb & Hb').
    destruct (of_Z_add_small a n Ha' Hn) as (ra & Hra & Hra').
    destruct (of_Z_add_small b n Hb' Hn) as (rb & Hrb & Hrb').
    rewrite (verify_credit_found user _ (VNum n) (VNum n) (VNum ra) (VNum rb)
               (JNum ra) (JNum rb) d l i x Hl Hat He); try done.
    + cbn [snd]. rewrite collection_write. apply ledger_ok_Forall.
      apply Forall_insert; [by apply ledger_ok_Forall, ledger_ok_settle|].
      cbn [entry_ok]. rewrite nonneg_set_ne, !nonneg_set_eq by done. done.
    + by rewrite (added_amount x "points" a n Ha), Hra.
    + by rewrite (added_amount x "co2" b n Hb), Hrb.
  - pose proof (first_index_none_of _ _ Hobj Hi) as Hnone.
    rewrite (verify_credit_new user _ (VNum n) (VNum n) d l Hl Hnone); try done.
    cbn [snd]. rewrite collection_write. apply ledger_ok_Forall.
    apply Forall_app. split; [by apply ledger_ok_Forall, ledger_ok_settle|].
    constructor; [|done].
    assert ((0 <=? n) && (n <=? max_double) = true)%bool as Hr.
    { apply andb_true_intro. split; apply Z.leb_le; [lia|].
      assert (20 < max_double) by (by vm_compute). lia. }
    unfold stringify_obj. cbn [omap list_omap fst snd].
    destruct (serialize user); cbn; by rewrite Hr.
Qed.

Lemma award_of_plain (action : value) :
  plain_action action = true →
  verify_award action = Throw ∨
  ∃ n, 0 ≤ n ≤ 20 ∧ verify_award action = Ok (thaw (award_obj n)).
Proof.
  destruct action; try (by left). cbn [plain_action]. intros H%negb_true_iff.
  right. eexists. split; [apply amount_for_range|]. by apply verify_award_table.
Qed.

(** The two amounts of an upsert body *)

Lemma assign_amount (k : string) (x u : jobj) :
  k = "points" ∨ k = "co2" →
  forallb payload_field_ok u = true →
  has_key u k = true ∨ nonneg x k = true →
  nonneg (Object_assign x u) k = true.
Proof.
  intros Hk. revert x.
  induction u as [|[k' j] u IH]; intros x.
  - intros _ [H|H]; [done|done].
  - cbn [forallb]. intros [Hkv Hu]%andb_prop Hor. rewrite Object_assign_cons.
    apply IH; [done|]. unfold has_key in Hor. cbn [get_own] in Hor.
    unfold assign_prop.
    destruct (String.eqb_spec k' k) as [->|Hne].
    + right. assert (String.eqb k "__proto__" = false) as ->
        by (by destruct Hk as [-> | ->]).
      cbn [andb]. unfold payload_field_ok in Hkv. cbn [fst snd] in Hkv.
      assert ((String.eqb k "points" || String.eqb k "co2")%bool = true) as Hkk
        by (by destruct Hk as [-> | ->]).
      rewrite Hkk in Hkv. destruct j as [| |[a| | |]| | |]; try done.
      apply andb_prop in Hkv as [H1 H2]. apply nonneg_set_eq. lia.
    + destruct Hor as [H|H]; [by left|right].
      destruct (String.eqb k' "__proto__" && negb (has_key x k'))%bool; [done|].
      by rewrite nonneg_set_ne.
Qed.

Lemma get_own_In {A} (o : list (string * A)) (k : string) (v : A) :
  get_own o k = Some v → In (k, v) o.
Proof.
  induction o as [|[k' v'] o IH]; cbn [get_own]; [done|].
  destruct (String.eqb_spec k' k) as [->|]; [intros [= ->]; by left|].
  intros H. right. by apply IH.
Qed.

Lemma payload_amount (k : string) (u : jobj) :
  k = "points" ∨ k = "co2" →
  forallb payload_field_ok u = true → has_key u k = true → nonneg u k = true.
Proof.
  intros Hk Hu. unfold has_key, nonneg.
  destruct (get_own u k) as [j|] eqn:Hj; [|done]. intros _.
  apply get_own_In in Hj. rewrite forallb_forall in Hu. apply Hu in Hj.
  unfold payload_field_ok in Hj. cbn [fst snd] in Hj.
  assert ((String.eqb k "points" || String.eqb k "co2")%bool = true) as Hkk
    by (by destruct Hk as [-> | ->]).
  rewrite Hkk in Hj. by destruct j as [| |[]| | |].
Qed.

Lemma forallb_settle_payload (u : jobj) :
  forallb payload_field_ok u = true → forallb payload_field_ok (settle_obj u) = true.
Proof.
  unfold settle_obj. rewrite !forallb_forall. intros H kv Hin.
  apply list_elem_of_In, list_elem_of_fmap in Hin as ([k j] & -> & Hin%list_elem_of_In).
  apply H in Hin. unfold payload_field_ok in *. cbn [fst snd] in *.
  destruct (String.eqb k "points" || String.eqb k "co2")%bool; [|done].
  by destruct j as [| |[]| | |].
Qed.

Lemma ledger_ok_upserted (E : value → payload → result json) (b : payload) (l l' : list json) :
  payload_ok b = true → ledger_ok l = true → upserted E b l = Ok l' → ledger_ok l' = true.
Proof.
  destruct b as [|u|]; try done. cbn [payload_ok].
  intros [[Hu Hp]%andb_prop Hc]%andb_prop Hok. unfold upserted.
  pose proof (ledger_ok_objects _ Hok) as Hobj.
  rewrite find_named_objects by done.
  pose proof (forallb_settle_payload _ Hu) as Hu'.
  destruct (first_index _ l) as [i|] eqn:Hi.
  - pose proof (first_index_first_at _ _ _ Hobj Hi) as Hat.
    destruct (first_at_lookup _ _ _ Hat) as (e & He & _).
    destruct (holds_objects_lookup _ _ _ Hobj He) as [x ->].
    rewrite He. intros [= <-]. apply ledger_ok_Forall.
    apply Forall_insert; [by apply ledger_ok_Forall, ledger_ok_settle|].
    cbn [entry_ok]. unfold assign. cbn [payload_props].
    rewrite !assign_amount; auto; left; unfold settle_obj; by rewrite has_key_fmap.
  - intros [= <-]. apply ledger_ok_Forall.
    apply Forall_app. split; [by apply ledger_ok_Forall, ledger_ok_settle|].
    constructor; [|done]. cbn [payload_json entry_ok].
    rewrite !payload_amount; auto; unfold settle_obj; by rewrite has_key_fmap.
Qed.

End Invariant.

(** ** Upserts *)

Section Merging.

Lemma settle_obj_idemp (o : jobj) : settle_obj (settle_obj o) = settle_obj o.
Proof.
  pose proof (settle_idemp (JObj o)) as H. cbn [settle] in H.
  fold (settle_obj o) in H. fold (settle_obj (settle_obj o)) in H. by injection H.
Qed.

Lemma settle_all_idemp (l : list json) : settle <$> (settle <$> l) = settle <$> l.
Proof.
  rewrite <- list_fmap_compose. apply list_fmap_ext. intros _ x _. apply settle_idemp.
Qed.

Lemma settle_set (o : jobj) (k : string) (j : json) :
  settle_obj (set o k j) = set (settle_obj o) k (settle j).
Proof. unfold settle_obj. by rewrite set_fmap. Qed.

Lemma settle_assign_prop (o : jobj) (k : string) (j : json) :
  settle_obj (assign_prop o k j) = assign_prop (settle_obj o) k (settle j).
Proof.
  unfold assign_prop. unfold settle_obj at 2. rewrite has_key_fmap.
  destruct (_ && _)%bool; [done|]. apply settle_set.
Qed.

Lemma settle_Object_assign (x u : jobj) :
  settle_obj (Object_assign x u) = Object_assign (settle_obj x) (settle_obj u).
Proof.
  revert x. induction u as [|[k j] u IH]; intros x; [done|].
  change (settle_obj ((k, j) :: u)) with ((k, settle j) :: settle_obj u).
  by rewrite !Object_assign_cons, IH, settle_assign_prop.
Qed.

Lemma settle_assign (x b : jobj) :
  settle_obj (assign x (ObjectBody b)) = assign x (ObjectBody b).
Proof.
  unfold assign. cbn [payload_props]. by rewrite settle_Object_assign, !settle_obj_idemp.
Qed.

Lemma keys_settle (o : jobj) : (settle_obj o).*1 = o.*1.
Proof.
  unfold settle_obj. rewrite <- list_fmap_compose. by apply list_fmap_ext.
Qed.

Lemma plain_name_settle (v : value) (j : json) :
  plain_name v = true → strict_eq (thaw (settle j)) v = strict_eq (thaw j) v.
Proof.
  intros Hv. destruct j as [| |x| | |]; try done.
  cbn [settle]. destruct (is_finite x) eqn:Hx; [done|].
  destruct v as [| | |y| | | |]; try done. cbn in Hv. cbn.
  by destruct x, y.
Qed.

Lemma name_is_settle_plain (v : value) (o : jobj) :
  plain_name v = true → name_is v (JObj (settle_obj o)) = name_is v (JObj o).
Proof.
  intros Hv. rewrite !name_is_object, !get_thaw_obj, get_own_settle.
  destruct (get_own o "name") as [j|]; [|done]. by apply plain_name_settle.
Qed.

Lemma first_index_settle_plain (v : value) (l : list json) :
  plain_name v = true → holds_objects l = true →
  first_index (name_is v) (settle <$> l) = first_index (name_is v) l.
Proof.
  intros Hv. induction l as [|y l IH]; [done|].
  cbn [holds_objects forallb]. intros [Hy Hl]%andb_prop.
  destruct y as [| | | | |o]; try done.
  rewrite fmap_cons. change (settle (JObj o)) with (JObj (settle_obj o)).
  cbn [first_index]. rewrite name_is_settle_plain by done.
  destruct (name_is v (JObj o)); [done|]. by rewrite IH.
Qed.

Lemma holds_objects_settle (l : list json) :
  holds_objects l = true → holds_objects (settle <$> l) = true.
Proof.
  unfold holds_objects. rewrite !forallb_forall. intros H y Hy.
  apply list_elem_of_In, list_elem_of_fmap in Hy as (x & -> & Hx%list_elem_of_In).
  apply H in Hx. by destruct x.
Qed.

Lemma holds_objects_insert (l : list json) (i : nat) (x : jobj) :
  holds_objects l = true → holds_objects (<[i := JObj x]> l) = true.
Proof.
  unfold holds_objects. rewrite !forallb_forall. intros H y Hy.
  apply list_elem_of_In, list_elem_of_lookup in Hy as [j Hj].
  destruct (decide (j = i)) as [->|Hne].
  - destruct (decide (i < length l)%nat) as [Hlt|Hge].
    + rewrite list_lookup_insert_eq in Hj by done. by injection Hj as <-.
    + rewrite list_insert_ge in Hj by lia. apply H, list_elem_of_In.
      by eapply list_elem_of_lookup_2.
  - rewrite list_lookup_insert_ne in Hj by done. apply H, list_elem_of_In.
    by eapply list_elem_of_lookup_2.
Qed.

Lemma holds_objects_snoc (l : list json) (x : jobj) :
  holds_objects l = true → holds_objects (l ++ [JObj x]) = true.
Proof.
  unfold holds_objects. rewrite forallb_app. by intros ->.
Qed.

Lemma strict_eq_plain (v : value) : plain_name v = true → strict_eq v v = true.
Proof.
  destruct v as [| |b|x|s| | |]; try done.
  - by destruct b.
  - cbn. destruct x; try done; intros _; apply Z.eqb_refl.
  - intros _. apply String.eqb_refl.
Qed.

Lemma plain_field_settle (u : jobj) (j : json) :
  get_own u "name" = Some j → plain_name (thaw j) = true → settle j = j.
Proof.
  intros _. destruct j as [| |x| | |]; try done. cbn. by intros ->.
Qed.

(** The element an upsert has written answers to the name of the body. *)
Lemma name_is_assigned (u x : jobj) :
  let v := field (ObjectBody u) "name" in
  distinct_keys u = true → plain_name v = true →
  name_is v (JObj x) = true →
  name_is v (JObj (assign x (ObjectBody u))) = true.
Proof.
  intros v Hd Hv Hx. unfold v in *. rewrite field_object in *.
  rewrite name_is_object, get_thaw_obj. unfold assign. cbn [payload_props].
  destruct (get_own u "name") as [j|] eqn:Hj.
  - rewrite (Object_assign_takes _ _ "name" (settle j)).
    + rewrite (plain_field_settle u j Hj Hv). by apply strict_eq_plain.
    + rewrite keys_settle. by apply distinct_keys_NoDup.
    + by rewrite get_own_settle, Hj.
    + by left.
  - rewrite Object_assign_keeps by (by rewrite get_own_settle, Hj).
    rewrite <- get_thaw_obj, <- name_is_object.
    rewrite name_is_settle_plain by done. done.
Qed.

Lemma name_is_payload (u : jobj) :
  let v := field (ObjectBody u) "name" in
  plain_name v = true → name_is v (JObj (settle_obj u)) = true.
Proof.
  intros v Hv. unfold v in *. rewrite field_object in *.
  rewrite name_is_object, get_thaw_obj, get_own_settle.
  destruct (get_own u "name") as [j|] eqn:Hj; cbn [fmap option_fmap option_map].
  - rewrite (plain_field_settle u j Hj Hv). by apply strict_eq_plain.
  - done.
Qed.

Lemma assign_payload_same (u : jobj) :
  distinct_keys u = true →
  assign (settle_obj u) (ObjectBody u) = settle_obj u.
Proof.
  intros Hd. unfold assign. cbn [payload_props]. rewrite settle_obj_idemp.
  apply Object_assign_same. intros k v Hin. left.
  apply get_own_NoDup; [|done]. rewrite keys_settle. by apply distinct_keys_NoDup.
Qed.

Lemma assign_twice (u x : jobj) :
  distinct_keys u = true →
  assign (assign x (ObjectBody u)) (ObjectBody u) = assign x (ObjectBody u).
Proof.
  intros Hd. unfold assign at 1. rewrite settle_assign. unfold assign. cbn [payload_props].
  apply Object_assign_idemp. rewrite keys_settle. by apply distinct_keys_NoDup.
Qed.

(** A second upsert of the same body writes what the first wrote. *)
Lemma upserted_twice (E : value → payload → result json) (u : jobj) (l l1 : list json) :
  let b := ObjectBody u in
  distinct_keys u = true →
  plain_name (field b "name") = true →
  holds_objects l = true →
  upserted E b l = Ok l1 →
  upserted E b l1 = Ok l1.
Proof.
  intros b Hd Hv Hobj. subst b. unfold upserted.
  rewrite find_named_objects by done.
  destruct (first_index _ l) as [i|] eqn:Hi.
  - pose proof (first_index_Some _ _ _ Hi) as (e & He & Hname & _).
    destruct (holds_objects_lookup _ _ _ Hobj He) as [x ->]. rewrite He.
    intros [= <-].
    assert (i < length (settle <$> l))%nat as Hlt
      by (rewrite length_fmap; by eapply lookup_lt_Some).
    rewrite find_named_objects
      by (by apply holds_objects_insert, holds_objects_settle).
    rewrite (first_index_insert _ _ i);
      [|by rewrite first_index_settle_plain|by apply name_is_assigned].
    rewrite list_lookup_insert_eq by done. cbv beta iota.
    rewrite assign_twice by done. f_equal.
    rewrite list_fmap_insert, settle_all_idemp.
    change (settle (JObj (assign x (ObjectBody u)))) with
      (JObj (settle_obj (assign x (ObjectBody u)))).
    rewrite settle_assign. by rewrite list_insert_insert_eq.
  - intros [= <-]. cbn [payload_json].
    rewrite find_named_objects
      by (by apply holds_objects_snoc, holds_objects_settle).
    rewrite (first_index_snoc _ _ _);
      [|by rewrite first_index_settle_plain|by apply name_is_payload].
    rewrite length_fmap.
    replace (((settle <$> l) ++ [JObj (settle_obj u)]) !! length l)
      with (Some (JObj (settle_obj u)))
      by (by rewrite lookup_app_r, length_fmap, Nat.sub_diag by (by rewrite length_fmap)).
    cbv beta iota.
    rewrite assign_payload_same by done. f_equal.
    rewrite fmap_app, settle_all_idemp. cbn [fmap list_fmap].
    change (settle (JObj (settle_obj u))) with (JObj (settle_obj (settle_obj u))).
    rewrite settle_obj_idemp.
    apply list_insert_id.
    by rewrite lookup_app_r, length_fmap, Nat.sub_diag by (by rewrite length_fmap).
Qed.

End Merging.

(** ** What the steps of a request keep *)

Section Steps.

Lemma collection_read (d d' : disk) (p : path) :
  read d' p = read d p → collection d' p = collection d p.
Proof. unfold collection, stored. by intros ->. Qed.

Lemma collection_parsed (d : disk) (p : path) (l : list json) :
  read d p = Content (Parsed (JArr l)) → collection d p = l.
Proof. unfold collection, stored. by intros ->. Qed.

Lemma status_ok_settle (x : json) : status_ok x = true → status_ok (settle x) = true.
Proof.
  destruct x as [| | | | |o]; try done. cbn [settle]. fold (settle_obj o). cbn [status_ok].
  rewrite get_own_settle. by destruct (get_own o "status") as [[]|].
Qed.

Lemma status_ok_accepted (o : jobj) :
  status_ok (JObj (set o "status" (JStr "accepted"))) = true.
Proof. cbn [status_ok]. by rewrite get_own_set_eq. Qed.

(** *** Names *)

Lemma thaw_strict_inj (a b : json) : strict_eq (thaw a) (thaw b) = true → a = b.
Proof.
  destruct a, b; try done; cbn.
  - intros H%Bool.eqb_prop. by subst.
  - intros H%num_eq_eq. by subst.
  - intros H%String.eqb_eq. by subst.
Qed.

Lemma thaw_defined (j : json) (v : value) :
  strict_eq (thaw j) v = true → v ≠ VUndefined.
Proof. destruct j, v; done. Qed.

Lemma name_is_settle_le (v : value) (y : json) :
  is_null v = false → name_is v (settle y) = true → name_is v y = true.
Proof.
  intros Hv. destruct y as [| |x| | |o]; try done.
  - cbn [settle]. by destruct (is_finite x).
  - change (settle (JObj o)) with (JObj (settle_obj o)).
    rewrite !name_is_object, !get_thaw_obj, get_own_settle.
    destruct (get_own o "name") as [[| |x| | |]|]; try done.
    cbn [fmap option_fmap option_map settle].
    destruct (is_finite x); [done|]. by destruct v.
Qed.

Lemma count_named_app (v : value) (l1 l2 : list json) :
  count_named v (l1 ++ l2) = (count_named v l1 + count_named v l2)%nat.
Proof. unfold count_named. by rewrite filter_app, length_app. Qed.

Lemma count_named_one (v : value) (x : json) :
  count_named v [x] = if name_is v x then 1%nat else 0%nat.
Proof.
  unfold count_named. rewrite filter_cons, filter_nil.
  destruct (name_is v x); by destruct (decide _).
Qed.

Lemma count_named_le (v : value) (l l' : list json) :
  Forall2 (λ a b, name_is v b = true → name_is v a = true) l l' →
  (count_named v l' ≤ count_named v l)%nat.
Proof.
  unfold count_named. induction 1 as [|a b l l' Hab _ IH]; [done|].
  rewrite !filter_cons. destruct (decide (name_is v b = true)) as [Hb|Hb].
  - rewrite decide_True by auto. cbn. lia.
  - destruct (decide (name_is v a = true)); cbn; lia.
Qed.

Lemma count_named_zero (v : value) (l : list json) :
  Forall (λ y, name_is v y = false) l → count_named v l = 0%nat.
Proof.
  unfold count_named. induction 1 as [|y l Hy _ IH]; [done|].
  rewrite filter_cons, decide_False by congruence. done.
Qed.

Lemma settled_names (v : value) (l : list json) :
  is_null v = false →
  Forall2 (λ a b, name_is v b = true → name_is v a = true) l (settle <$> l).
Proof.
  intros Hv. apply Forall2_fmap_r, Forall_Forall2_diag, Forall_forall.
  intros y _ H. by apply name_is_settle_le.
Qed.

Lemma replaced_names (v : value) (l : list json) (i : nat) (x y : json) :
  is_null v = false → l !! i = Some x →
  (name_is v y = true → name_is v x = true) →
  Forall2 (λ a b, name_is v b = true → name_is v a = true) l (<[i := y]> (settle <$> l)).
Proof.
  intros Hv Hx Hy. rewrite <- (list_insert_id l i x Hx) at 1.
  apply Forall2_insert; [by apply settled_names|done].
Qed.

Lemma none_named_settled (v : value) (l : list json) :
  is_null v = false → none_of (named v) l = true →
  count_named v (settle <$> l) = 0%nat.
Proof.
  intros Hv Hn. apply count_named_zero, Forall_fmap, Forall_forall. intros y Hy.
  unfold none_of in Hn. rewrite forallb_forall in Hn.
  apply list_elem_of_In, Hn in Hy. cbn.
  destruct (name_is v (settle y)) eqn:Hs; [|done].
  apply name_is_settle_le in Hs; [|done]. unfold name_is in Hs.
  by destruct (named v y) as [[]|].
Qed.

(** *** The name of a merged entry *)

Lemma decimal_not_name (z : Z) : decimal z ≠ "name".
Proof.
  unfold decimal. destruct z as [|p|p]; cbn; try done;
    by destruct (Pos.to_uint p).
Qed.

Lemma get_own_imap {A} (f : nat → string) (l : list A) (k : string) :
  (∀ i, f i ≠ k) → get_own (imap (λ i x, (f i, x)) l) k = None.
Proof.
  revert f. induction l as [|x l IH]; intros f Hf; [done|].
  cbn [imap get_own]. destruct (String.eqb_spec (f 0%nat) k) as [H|_]; [by apply Hf in H|].
  apply (IH (f ∘ S)). intros i. apply Hf.
Qed.

Lemma payload_props_name (l : list json) :
  get_own (payload_props (ArrayBody l)) "name" = None.
Proof.
  cbn [payload_props]. unfold indexed. apply get_own_imap. intros i. apply decimal_not_name.
Qed.

Lemma assign_name (b : payload) (x : jobj) :
  well_formed (POST_users b) = true →
  named (field b "name") (JObj x) = Ok true →
  get_own (assign x b) "name" = settle <$> get_own x "name".
Proof.
  intros Hwf. rewrite named_object. intros [= Hn]. unfold assign.
  destruct b as [|u|a].
  - cbn [payload_props]. apply get_own_settle.
  - cbn [well_formed] in Hwf. cbn [payload_props].
    rewrite get_thaw_obj, field_object in Hn.
    destruct (get_own u "name") as [jn|] eqn:Hu.
    + destruct (get_own x "name") as [jx|] eqn:Hx.
      * apply thaw_strict_inj in Hn as ->.
        apply Object_assign_takes;
          [rewrite keys_settle; by apply distinct_keys_NoDup
          |by rewrite get_own_settle, Hu|by left].
      * by destruct jn.
    + rewrite Object_assign_keeps by (by rewrite get_own_settle, Hu).
      rewrite get_own_settle. destruct (get_own x "name") as [jx|]; [|done].
      by destruct jx.
  - rewrite Object_assign_keeps by apply payload_props_name. apply get_own_settle.
Qed.

Lemma name_is_by_name (v : value) (x x' : jobj) :
  get_own x' "name" = get_own x "name" → name_is v (JObj x') = name_is v (JObj x).
Proof. intros H. by rewrite !name_is_object, !get_thaw_obj, H. Qed.

Lemma get_own_settled_name (x : jobj) :
  get_own (settle_obj x) "name" = settle <$> get_own x "name".
Proof. apply get_own_settle. Qed.

Lemma new_entry_get (user ap ac : value) :
  get_own (stringify_obj [("name", user); ("points", ap); ("co2", ac)]) "name" = serialize user.
Proof.
  unfold stringify_obj. cbn [omap list_omap fst snd].
  by destruct (serialize user), (serialize ap), (serialize ac).
Qed.

(** The entry a credit adds has the name of the user, when it has one that
    can be written. *)
Lemma new_entry_name (v user ap ac : value) :
  is_native user = false → is_null v = false →
  name_is v (JObj (stringify_obj [("name", user); ("points", ap); ("co2", ac)])) = true →
  user = v.
Proof.
  intros Hnat Hv. rewrite name_is_object, get_thaw_obj, new_entry_get.
  change (Object_prototype_get "name") with VUndefined.
  intros H. pose proof (strict_eq_eq _ _ H) as He.
  destruct user as [| |b|x|s|l|o|n]; try done; cbn [serialize] in H, He;
    try (by subst v).
  destruct (is_finite x); [done|]. by subst v.
Qed.

(** The element an upsert adds has the name of the body. *)
Lemma payload_name (v : value) (b : payload) :
  has_body b = true → is_null v = false →
  name_is v (payload_json b) = true → field b "name" = v.
Proof.
  intros Hb Hv. destruct b as [|u|a]; [done| |].
  - cbn [payload_json]. rewrite name_is_object, get_thaw_obj, get_own_settle, field_object.
    destruct (get_own u "name") as [[| |x| | |]|]; cbn [fmap option_fmap option_map settle thaw];
      try (intros H%strict_eq_eq; by subst); try (by destruct v).
    destruct (is_finite x); [intros H%strict_eq_eq; by subst|by destruct v].
  - cbn [payload_json]. rewrite field_array. unfold name_is, named. cbn.
    intros H. destruct v; try done.
Qed.

(** An element that is no object has the name [undefined], if any. *)
Lemma name_is_no_object (v : value) (e : json) :
  is_obj e = false → name_is v e = true → v = VUndefined.
Proof.
  destruct e; try done; unfold name_is, named; cbn; by destruct v.
Qed.

Lemma name_is_undefined (e : json) (u : value) :
  is_obj e = false → named u e = Ok true → name_is VUndefined e = true.
Proof.
  destruct e; try done.
Qed.

End Steps.

(** ** Credits, exact and failed *)

Section Outcomes.



Lemma settle_all_same (l : list json) :
  forallb all_finite l = true → settle <$> l = l.
Proof.
  induction l as [|x l IH]; [done|]. cbn [forallb]. intros [Hx Hl]%andb_prop.
  by rewrite fmap_cons, settle_all_finite, IH.
Qed.

Lemma record_json (c : clock) (u a : string) (f : upload) :
  JObj (stringify_obj (record_value c (VStr u) (VStr a) f)) =
  record_of c u a f (if 2048 <? size f then "accepted" else "pending").
Proof. by rewrite record_written. Qed.

Lemma truthy_text (s : string) : String.eqb s "" = false → truthy (VStr s) = true.
Proof. cbn. by intros ->. Qed.


(** The credit stops at the first amount that cannot be added to. *)
Lemma verify_credit_points_throw (user award ap : value) (d : disk) (l : list json)
    (i : nat) (x : jobj) :
  stored d users_json = JArr l →
  first_at (named user) l i = true →
  l !! i = Some (JObj x) →
  get_prop award "points" = Ok ap →
  js_add (js_or (get (thaw_obj x) "points") (VNum 0)) ap = Throw →
  verify_credit user award d = (Throw, d).
Proof.
  intros Hst Hi Hx Hap Hp.
  unfold verify_credit. rewrite bind_run, readJson_stored, Hst. cbv beta iota.
  rewrite bind_lift. cbn [thaw findIndex]. rewrite named_thaw, (find_from_first _ _ _ Hi).
  rewrite bind_run, bind_lift. cbn [at_index]. rewrite list_lookup_fmap, Hx.
  cbn [fmap option_fmap option_map thaw]. fold (thaw_obj x).
  rewrite bind_lift. cbn [get_prop]. by rewrite bind_lift, Hap, bind_lift, Hp.
Qed.

Lemma add_to_object (o : jobj) (v : value) :
  has_key o "toString" = true →
  js_add (js_or (thaw (JObj o)) (VNum 0)) v = Throw.
Proof.
  intros Hk. unfold js_or. cbn [thaw truthy]. fold (thaw_obj o). unfold js_add.
  cbn [to_primitive to_string]. unfold thaw_obj. by rewrite has_key_fmap, Hk.
Qed.


Lemma real_ids_unmatched (l : list json) :
  forallb has_real_id l = true → none_of (has_id VUndefined) l = true.
Proof.
  unfold none_of. rewrite !forallb_forall. intros H x Hx. apply H in Hx.
  destruct x as [| | | | |o]; try done. cbn [has_real_id] in Hx.
  unfold has_id. cbn [thaw get_prop]. fold (thaw_obj o). rewrite get_thaw_obj.
  by destruct (get_own o "id") as [[]|].
Qed.

End Outcomes.

(** * The claims of the specification *)

Section Claims.

(** C1. Section 8 of the specification: a submission with an upload above
    2048 bytes is stored accepted and the ledger of the user increases by
    exactly the amount the mapping gives for the action.  The code diverges
    from it: for the action [constructor] the mapping lookup finds the
    inherited [Object.prototype.constructor], the award has no amounts, and
    Ava's 20 points and 20 CO2 are overwritten by [NaN], stored as [null],
    where the mapping amount, zero, would have left them at 20.  The
    response carries no award. *)
Theorem verify_constructor_action_erases_amounts :
  post_verify (Clock 1001 "2024-06-01T12:00:01.000Z")
      (submission "Ava" "constructor" photo) sample_store =
    (Ok (Response 200 (JObj [("status", JStr "accepted"); ("id", JNum 1001)])),
     Disk (Content (Parsed (JArr [])))
          (Content (Parsed (JArr [JObj [("name", JStr "Ava"); ("points", JNull); ("co2", JNull)]])))
          (Content (Parsed (JArr [ record_of noon "Ava" "Plant" photo "accepted";
                                   record_of (Clock 1001 "2024-06-01T12:00:01.000Z")
                                     "Ava" "constructor" photo "accepted" ]))))
  ∧ amount_for (toLowerCase "constructor") = 0
  ∧ total "points" (VStr "Ava") (collection sample_store users_json) = 20.
Proof. by vm_compute. Qed.







(** C4, as the specification words it, does not hold: an id that is an
    object whose [toString] is no function matches no stored record, and the
    call is answered 500, not 404. *)
Lemma approve_unconvertible_id :
  unmatched (ObjectBody [("id", JObj [("toString", JNum 1)])]) sample_store = true ∧
  post_approve (ObjectBody [("id", JObj [("toString", JNum 1)])]) sample_store =
    (Ok (Response 500 (JObj [("status", JStr "error")])), sample_store).
Proof. by vm_compute. Qed.

(** C4. An approval whose id is loosely equal to the id of no stored
    verification leaves the three files as they were.  It is answered 404
    Not found when the search runs to the end (the request has a body, the
    file holds an array or is absent or unparseable, and every comparison
    completes), and 500 otherwise. *)
Theorem approve_unknown_id (b : payload) (d : disk) :
  unmatched b d = true →
  ∃ r, post_approve b d = (Ok r, d) ∧
       if all_compared b d
       then status r = 404 ∧
            body r = JObj [("status", JStr "error"); ("message", JStr "Not found")]
       else status r = 500 ∧ body r = JObj [("status", JStr "error")].
Proof.
  intros Hun. unfold all_compared.
  destruct (has_body b) eqn:Hb.
  2:{ destruct b; try done. exists error_500. by rewrite post_approve_no_body. }
  destruct (is_array (stored d verifications_json)) eqn:Harr.
  2:{ exists error_500. rewrite post_approve_no_array; [done|by apply no_array]. }
  cbn [andb]. pose proof (collection_array _ _ Harr) as Hl.
  destruct (find_from (has_id (field b "id")) (collection d verifications_json))
    as [[i|]|] eqn:Hf.
  - apply find_from_Some in Hf. apply first_at_lookup in Hf as (x & Hx & Ht).
    unfold unmatched in Hun. rewrite forallb_forall in Hun.
    specialize (Hun x). rewrite Ht in Hun. cbn in Hun.
    assert (In x (collection d verifications_json)) as Hin
      by (apply list_elem_of_In; by eapply list_elem_of_lookup_2).
    by apply Hun in Hin.
  - apply find_from_None in Hf. rewrite Hf.
    exists not_found. by rewrite (post_approve_not_found b d _ Hb Hl Hf).
  - destruct (none_of _ _) eqn:Hn; [apply find_from_none in Hn; congruence|].
    exists error_500. by rewrite (post_approve_throws b d _ Hl Hf).
Qed.

Lemma approve_unknown_id_witness :
  ∃ r, post_approve (ObjectBody [("id", JNum 1234)]) sample_store = (Ok r, sample_store) ∧
       if all_compared (ObjectBody [("id", JNum 1234)]) sample_store
       then status r = 404 ∧
            body r = JObj [("status", JStr "error"); ("message", JStr "Not found")]
       else status r = 500 ∧ body r = JObj [("status", JStr "error")].
Proof.
  apply (approve_unknown_id (ObjectBody [("id", JNum 1234)]) sample_store). reflexivity.
Defined.

(** C5. Section 3 of the specification: unknown actions map to {0, 0}.  The
    code diverges from it for the action [constructor]: the lookup finds
    [Object.prototype.constructor], which is truthy, so the zero award is
    not taken; the award has no [points], and adding it to a total gives
    [NaN]. *)
Theorem award_of_inherited_name :
  amount_for (toLowerCase "constructor") = 0 ∧
  verify_award (VStr "constructor") = Ok (VNative ObjectCtor) ∧
  approve_award (VStr "constructor") = Ok (VNative ObjectCtor) ∧
  get_prop (VNative ObjectCtor) "points" = Ok VUndefined ∧
  js_add (js_or (VNum 20) (VNum 0)) VUndefined = Ok VNaN.
Proof. by vm_compute. Qed.

(** C6, as the specification words it, does not hold: amounts are doubles,
    and above 2^53 a sum is rounded.  A credit of 5 to 9007199254740992
    points leaves 9007199254740996. *)
Lemma credit_rounds_large_amounts :
  total "points" (VStr "Ava") (collection large_ledger users_json) = 9007199254740992 ∧
  total "points" (VStr "Ava")
    (collection (verify_credit (VStr "Ava") (thaw (award_obj 5)) large_ledger).2 users_json)
    = 9007199254740996.
Proof. by vm_compute. Qed.

(** C6. [Ledger.credit] is additive.  For a users file that holds an array
    of objects, a user name [name], an entry of that user (if there is one)
    whose points and co2 are integers or missing, and integer amounts [p]
    and [c] such that the sums that are formed stay within 2^53: both copies
    of the credit code write the ledger that section 4.3 describes; the
    totals of the user rise by [p] and [c], a missing amount counting as 0;
    a user without an entry gets exactly one, and no second entry is ever
    created for a name; crediting twice adds the amounts twice. *)
Theorem ledger_credit_additive (d : disk) (name : string) (p c : Z) (l : list json) :
  let u := VStr name in
  let award := thaw (JObj [("points", JNum p); ("co2", JNum c)]) in
  let l1 := spec_credit u p c l in
  stored d users_json = JArr l →
  holds_objects l = true →
  entry_whole u l = true →
  safe (total "points" u l + p) = true →
  safe (total "co2" u l + c) = true →
  safe (total "points" u l + p + p) = true →
  safe (total "co2" u l + c + c) = true →
  verify_credit u award d = (Ok (), write d users_json (Content (Parsed (JArr l1)))) ∧
  approve_credit u award d = verify_credit u award d ∧
  total "points" u l1 = total "points" u l + p ∧
  total "co2" u l1 = total "co2" u l + c ∧
  count_named u l1 = Nat.max 1 (count_named u l) ∧
  ∃ d2, (verify_credit u award ;; approve_credit u award) d = (Ok (), d2) ∧
        total "points" u (collection d2 users_json) = total "points" u l + p + p ∧
        total "co2" u (collection d2 users_json) = total "co2" u l + c + c ∧
        count_named u (collection d2 users_json) = Nat.max 1 (count_named u l).
Proof.
  intros u award l1 Hl Hobj Hwh Hp Hc Hpp Hcc.
  pose proof (verify_credit_spec u p c d l Hl Hobj Hwh Hp Hc) as H1.
  fold award l1 in H1.
  split_and!.
  - exact H1.
  - by rewrite approve_credit_same.
  - apply spec_credit_total_points.
  - apply spec_credit_total_co2.
  - apply spec_credit_count.
  - eexists. rewrite approve_credit_same.
    unfold mbind at 1. cbn [M_bind]. unfold mbind, M_bind. rewrite H1.
    unfold award at 1.
    rewrite (verify_credit_spec u p c _ l1).
    + rewrite write_write. split; [reflexivity|].
      rewrite collection_write. unfold l1, u.
      rewrite !spec_credit_total_points, !spec_credit_total_co2, !spec_credit_count.
      split_and!; [done|done|]. lia.
    + by rewrite stored_write.
    + by apply spec_credit_objects.
    + apply spec_credit_whole.
    + unfold l1, u. by rewrite spec_credit_total_points.
    + unfold l1, u. by rewrite spec_credit_total_co2.
Qed.

Lemma ledger_credit_additive_witness :
  let d := Disk Absent (Content (Parsed (JArr [JObj [("name", JStr "Ava")]]))) Absent in
  let u := VStr "Ava" in
  let award := thaw (JObj [("points", JNum 10); ("co2", JNum 10)]) in
  let l := [JObj [("name", JStr "Ava")]] in
  let l1 := spec_credit u 10 10 l in
  verify_credit u award d = (Ok (), write d users_json (Content (Parsed (JArr l1)))) ∧
  approve_credit u award d = verify_credit u award d ∧
  total "points" u l1 = total "points" u l + 10 ∧
  total "co2" u l1 = total "co2" u l + 10 ∧
  count_named u l1 = Nat.max 1 (count_named u l) ∧
  ∃ d2, (verify_credit u award ;; approve_credit u award) d = (Ok (), d2) ∧
        total "points" u (collection d2 users_json) = total "points" u l + 10 + 10 ∧
        total "co2" u (collection d2 users_json) = total "co2" u l + 10 + 10 ∧
        count_named u (collection d2 users_json) = Nat.max 1 (count_named u l).
Proof.
  apply (ledger_credit_additive
           (Disk Absent (Content (Parsed (JArr [JObj [("name", JStr "Ava")]]))) Absent)
           "Ava" 10 10 [JObj [("name", JStr "Ava")]]); reflexivity.
Defined.

(** C7. [readJson] never fails, and returns the empty array for a file that
    is absent or that does not parse. *)
Theorem readJson_never_fails (p : path) (d : disk) :
  (∃ v, readJson p d = (Ok v, d)) ∧
  (read d p = Absent ∨ read d p = Content Garbage → readJson p d = (Ok (VArr []), d)).
Proof.
  split.
  - eexists. apply readJson_stored.
  - intros H. rewrite readJson_stored. unfold stored. by destruct H as [-> | ->].
Qed.

(** C9. The auto-accept path and the approve path compute the award alike:
    the two mapping literals are the same table, plant 20, clean 10,
    awareness 5, and the two lookups return the same award for every
    action. *)
Theorem award_paths_agree (action : value) :
  verify_award action = approve_award action ∧
  verify_mapping = approve_mapping ∧
  verify_mapping =
    thaw_obj [ ("plant", JObj [("points", JNum 20); ("co2", JNum 20)]);
               ("clean", JObj [("points", JNum 10); ("co2", JNum 10)]);
               ("awareness", JObj [("points", JNum 5); ("co2", JNum 5)]) ].
Proof. repeat split. Qed.




(** C8, as the specification words it, does not hold: the direct upsert
    writes whatever amounts the body carries, here a negative one and a
    text. *)
Lemma upsert_breaks_ledger_invariant :
  let b := ObjectBody [("name", JStr "Ava"); ("points", JNum (-5)); ("co2", JStr "a lot")] in
  ledger_ok (collection sample_store users_json) = true ∧
  (post_users refusing b sample_store).1 = Ok ok_response ∧
  collection (post_users refusing b sample_store).2 users_json =
    [JObj [("name", JStr "Ava"); ("points", JNum (-5)); ("co2", JStr "a lot")]] ∧
  ledger_ok (collection (post_users refusing b sample_store).2 users_json) = false.
Proof. by vm_compute. Qed.

(** C8. The data-model invariant, every ledger entry an object whose points
    and co2 are non-negative integers, is preserved by the three writers of
    the ledger under these conditions: an auto-accepted submission whose
    action is no string that lower-cases to [constructor] or [__proto__];
    an approval of a record (the first stored one whose id is loosely equal
    to the one requested) whose action is no such string; a direct upsert
    whose body is an object that has both points and co2, each a
    non-negative integer. *)
Theorem ledger_invariant_preserved (E : value → payload → result json)
    (w : ledger_write) (d : disk) :
  ledger_ok (collection d users_json) = true →
  admissible w d = true →
  ledger_ok (collection (perform E w d).2 users_json) = true.
Proof.
  intros Hok Hadm. destruct w as [c [b f]|b|b]; cbn [perform admissible fields] in *.
  - (* auto-accept *)
    destruct (has_body b) eqn:Hb;
      [|destruct b; try done; by rewrite post_verify_no_body].
    destruct (blank (field b "user") || blank (field b "action") || negb (present f))%bool
      eqn:Hmiss; [by rewrite post_verify_missing|].
    apply orb_false_elim in Hmiss as [[Hu Ha]%orb_false_elim Hf].
    apply negb_false_iff in Hu, Ha, Hf. destruct f as [f|]; [|done].
    rewrite (post_verify_run c b f d Hb Hu Ha). cbn zeta.
    destruct (stored d verifications_json) as [| | | |lv|]; try done.
    set (d1 := write d verifications_json _).
    assert (ledger_ok (collection d1 users_json) = true) as Hok1
      by (unfold d1; by rewrite collection_write_ne).
    destruct (2048 <? size f); [|done].
    destruct (award_of_plain _ Hadm) as [->|(n & Hn & ->)]; [done|].
    pose proof (credit_keeps_ledger_ok (field b "user") n d1 Hn Hok1) as Hc.
    by destruct (verify_credit _ _ d1) as [[[]|] d2].
  - (* approval *)
    destruct (has_body b) eqn:Hb;
      [|destruct b; try done; by rewrite post_approve_no_body].
    destruct (stored_array_dec d verifications_json) as [[l Hl]|Hno];
      [|by rewrite post_approve_no_array].
    unfold approved_action in Hadm. rewrite (stored_collection _ _ _ Hl) in Hadm.
    destruct (find_from (has_id (field b "id")) l) as [[i|]|] eqn:Hf.
    + apply find_from_Some in Hf.
      destruct (first_at_lookup _ _ _ Hf) as (e & He & _). rewrite He in Hadm.
      destruct (is_obj e) eqn:Hobj.
      * destruct e as [| | | | |x]; try done.
        rewrite (post_approve_found b d l i x Hb Hl Hf He). cbn zeta.
        set (d1 := write d verifications_json _).
        assert (ledger_ok (collection d1 users_json) = true) as Hok1
          by (unfold d1; by rewrite collection_write_ne).
        rewrite <- award_paths_same, approve_credit_same.
        destruct (award_of_plain _ Hadm) as [->|(n & Hn & ->)]; [done|].
        pose proof (credit_keeps_ledger_ok (get (thaw_obj x) "user") n d1 Hn Hok1) as Hc.
        by destruct (verify_credit _ _ d1) as [[[]|] d2].
      * rewrite (post_approve_other b d l i e Hb Hl Hf He Hobj). cbn [snd].
        by rewrite collection_write_ne.
    + apply find_from_None in Hf. by rewrite (post_approve_not_found b d l Hb Hl Hf).
    + by rewrite (post_approve_throws b d l Hl Hf).
  - (* direct upsert *)
    destruct (stored_array_dec d users_json) as [[l Hl]|Hno];
      [|by rewrite post_users_no_array].
    rewrite (post_users_run E b d l Hl). rewrite (stored_collection _ _ _ Hl) in Hok.
    destruct (upserted E b l) as [l'|] eqn:Hup; [|cbn [snd]; by rewrite (stored_collection _ _ _ Hl)].
    cbn [snd]. rewrite collection_write. by eapply ledger_ok_upserted.
Qed.

Lemma ledger_invariant_preserved_witness :
  ledger_ok (collection (perform refusing (AutoAccept (Clock 1001 "2024-06-01T12:00:01.000Z")
                                             (submission "Ava" "clean" photo))
                           sample_store).2 users_json) = true ∧
  ledger_ok (collection (perform refusing (Approval (ObjectBody [("id", JNum 2000)]))
                           queue).2 users_json) = true ∧
  ledger_ok (collection (perform refusing
                           (DirectUpsert (ObjectBody [("name", JStr "Ava"); ("points", JNum 7);
                                                      ("co2", JNum 3)]))
                           sample_store).2 users_json) = true.
Proof.
  split_and!.
  - apply (ledger_invariant_preserved refusing
             (AutoAccept (Clock 1001 "2024-06-01T12:00:01.000Z") (submission "Ava" "clean" photo))
             sample_store); reflexivity.
  - apply (ledger_invariant_preserved refusing (Approval (ObjectBody [("id", JNum 2000)])) queue);
      reflexivity.
  - apply (ledger_invariant_preserved refusing
             (DirectUpsert (ObjectBody [("name", JStr "Ava"); ("points", JNum 7); ("co2", JNum 3)]))
             sample_store); reflexivity.
Defined.

End Claims.

(** * Further properties of the server *)

Section Startup.

Lemma ensureFile_run (p : path) (c : content) (d : disk) :
  ensureFile p c d =
    (Ok (), match read d p with Absent => write d p (Content c) | Content _ => d end).
Proof.
  unfold ensureFile. rewrite bind_run. unfold existsSync.
  by destruct (read d p).
Qed.

(** X1. When the server starts, each of the three files that is missing is
    created holding the empty array; a file that exists is left as it is,
    even if it does not parse.  What [readJson] returns for a file is the
    same before and after. *)
Theorem startup_creates_missing_files (d : disk) (p : path) :
  ∃ d', ensure_data_files d = (Ok (), d') ∧
        read d' p = match read d p with Absent => Content (Parsed (JArr [])) | f => f end ∧
        stored d' p = stored d p ∧
        collection d' p = collection d p.
Proof.
  unfold ensure_data_files. rewrite !bind_run, !ensureFile_run.
  cbv beta iota. rewrite !bind_run, !ensureFile_run. cbv beta iota.
  eexists. split; [reflexivity|].
  unfold collection, stored.
  destruct d as [[|r] [|u] [|v]]; destruct p; split_and!; reflexivity.
Qed.

End Startup.

Section RoundTrip.

(** X2. Writing a JSON value with [writeJson] and reading the file back
    with [readJson] returns the value, with the numbers beyond the range of
    doubles, if it has any, turned into [null]; no other file is touched. *)
Theorem write_then_read (p : path) (j : json) (d : disk) :
  ∃ d', (writeJson p (thaw j) ;; readJson p) d = (Ok (thaw (settle j)), d') ∧
        stored d' p = settle j ∧
        (all_finite j = true → settle j = j) ∧
        ∀ q, q ≠ p → read d' q = read d q.
Proof.
  exists (write d p (Content (Parsed (settle j)))).
  split_and!.
  - rewrite bind_run. unfold writeJson, JSON_stringify, writeFileSync.
    rewrite serialize_thaw. cbn [fmap option_fmap option_map]. cbv beta iota.
    by rewrite readJson_stored, stored_write.
  - apply stored_write.
  - apply settle_all_finite.
  - intros q Hq. apply read_write_ne. congruence.
Qed.

(** X3. Each GET route answers 200 with what the file holds (numbers beyond
    the range of doubles as [null]), the empty array when the file is absent
    or does not parse, and writes nothing. *)
Theorem get_sends_collection (p : path) (d : disk) :
  get_collection p d = (Ok (Response 200 (settle (stored d p))), d) ∧
  (read d p = Absent ∨ read d p = Content Garbage →
   get_collection p d = (Ok (Response 200 (JArr [])), d)).
Proof.
  split; [apply get_collection_run|].
  intros H. rewrite get_collection_run. unfold stored. by destruct H as [-> | ->].
Qed.

Lemma report_settled (c : clock) (o : jobj) :
  settle_obj (report_of c o) = report_of c o.
Proof.
  unfold report_of. by rewrite !settle_set, settle_obj_idemp.
Qed.

(** X4. POST /api/reports with an object as body, when the reports file
    holds an array: the answer is 200 {status: ok, rec}, rec is added at
    the end of the reports, and a GET right after lists it last.  rec is
    the body with [id] set to the clock and [timestamp] to the ISO time,
    whatever id or timestamp the body carried; every other property of the
    body is kept. *)
Theorem post_reports_appends (c : clock) (o : jobj) (d : disk) (l : list json) :
  let r := report_of c o in
  let d' := write d reports_json (Content (Parsed (JArr ((settle <$> l) ++ [JObj r])))) in
  stored d reports_json = JArr l →
  post_reports c (ObjectBody o) d =
    (Ok (Response 200 (JObj [("status", JStr "ok"); ("rec", JObj r)])), d') ∧
  get_collection reports_json d' =
    (Ok (Response 200 (JArr ((settle <$> l) ++ [JObj r]))), d') ∧
  get_own r "id" = Some (JNum (now c)) ∧
  get_own r "timestamp" = Some (JStr (iso c)) ∧
  ∀ k, k ≠ "id" → k ≠ "timestamp" → get_own r k = settle <$> get_own o k.
Proof.
  intros r d' Hl. split_and!.
  - by rewrite (post_reports_run c (ObjectBody o) d l eq_refl Hl).
  - rewrite get_collection_run. unfold d'. rewrite stored_write. cbn [settle].
    rewrite fmap_app, settle_all_idemp. cbn [fmap list_fmap].
    change (settle (JObj r)) with (JObj (settle_obj r)).
    unfold r. by rewrite report_settled.
  - unfold r, report_of. by rewrite get_own_set_ne, get_own_set_eq.
  - unfold r, report_of. by rewrite get_own_set_eq.
  - intros k Hid Hts. unfold r, report_of.
    by rewrite !get_own_set_ne, get_own_settle by done.
Qed.

Lemma post_reports_appends_witness :
  let o := [("place", JStr "river"); ("id", JNum 7)] in
  let r := report_of noon o in
  let d' := write empty_store reports_json (Content (Parsed (JArr ((settle <$> []) ++ [JObj r])))) in
  post_reports noon (ObjectBody o) empty_store =
    (Ok (Response 200 (JObj [("status", JStr "ok"); ("rec", JObj r)])), d') ∧
  get_collection reports_json d' =
    (Ok (Response 200 (JArr ((settle <$> []) ++ [JObj r]))), d') ∧
  get_own r "id" = Some (JNum (now noon)) ∧
  get_own r "timestamp" = Some (JStr (iso noon)) ∧
  ∀ k, k ≠ "id" → k ≠ "timestamp" → get_own r k = settle <$> get_own o k.
Proof.
  apply (post_reports_appends noon [("place", JStr "river"); ("id", JNum 7)] empty_store []).
  reflexivity.
Defined.

End RoundTrip.

Section UpsertRoute.

Variable E : value → payload → result json.

(** X5. POST /api/users with an object as body that has one property per
    key, when the first stored element whose name is strictly equal to the
    name of the body is an object: the answer is 200 {status: ok} and the
    body is merged into that element, in place.  Each property of the body
    other than [__proto__] takes the value of the body, and every property
    the body lacks is kept. *)
Theorem post_users_merges (u : jobj) (d : disk) (i : nat) (x : jobj) :
  let b := ObjectBody u in
  let l := collection d users_json in
  distinct_keys u = true →
  first_at (named (field b "name")) l i = true →
  l !! i = Some (JObj x) →
  ∃ x', post_users E b d =
          (Ok (Response 200 (JObj [("status", JStr "ok")])),
           write d users_json (Content (Parsed (JArr (<[i := JObj x']> (settle <$> l))))))  ∧
        (∀ k v, k ≠ "__proto__" → get_own u k = Some v → get_own x' k = Some (settle v)) ∧
        (∀ k, get_own u k = None → get_own x' k = settle <$> get_own x k).
Proof.
  intros b l Hd Hi Hx. exists (assign x b).
  pose proof (collection_stored _ _ _ _ Hx) as Hl. fold l in Hl.
  assert (NoDup (settle_obj u).*1) as Hnd
    by (rewrite keys_settle; by apply distinct_keys_NoDup).
  split_and!.
  - rewrite (post_users_run E b d l Hl). unfold upserted. cbn [b].
    fold b. by rewrite (find_from_first _ _ _ Hi), Hx.
  - intros k v Hk Hv. unfold assign. cbn [b payload_props].
    apply Object_assign_takes; [done|by rewrite get_own_settle, Hv|by left].
  - intros k Hk. unfold assign. cbn [b payload_props].
    rewrite Object_assign_keeps by (by rewrite get_own_settle, Hk).
    apply get_own_settle.
Qed.

(** X6. POST /api/users with a body, when the users file holds an array
    none of whose elements has the name of the body (each comparison
    completing): the answer is 200 {status: ok} and the body is added at the
    end of the users. *)
Theorem post_users_appends (b : payload) (d : disk) (l : list json) :
  has_body b = true →
  stored d users_json = JArr l →
  none_of (named (field b "name")) l = true →
  post_users E b d =
    (Ok (Response 200 (JObj [("status", JStr "ok")])),
     write d users_json (Content (Parsed (JArr ((settle <$> l) ++ [payload_json b]))))).
Proof.
  intros Hb Hl Hn. rewrite (post_users_run E b d l Hl). unfold upserted.
  rewrite (find_from_none _ _ Hn). by destruct b.
Qed.

(** X7. Sending the same upsert twice leaves the same disk and the same
    answer as sending it once, for a body that is an object with one
    property per key and whose name is a string, a boolean, a finite number
    or absent, when the users hold objects only. *)
Theorem post_users_twice (u : jobj) (d : disk) :
  let b := ObjectBody u in
  distinct_keys u = true →
  plain_name (field b "name") = true →
  holds_objects (collection d users_json) = true →
  (post_users E b ;; post_users E b) d = post_users E b d.
Proof.
  intros b Hd Hv Hobj. rewrite bind_run.
  pose proof (upserted_twice E u) as Htwice. cbv zeta in Htwice. fold b in Htwice.
  destruct (stored_array_dec d users_json) as [[l Hl]|Hno].
  - rewrite (stored_collection _ _ _ Hl) in Hobj.
    rewrite (post_users_run E b d l Hl).
    destruct (upserted E b l) as [l1|] eqn:Hup; cbv beta iota.
    + rewrite (post_users_run E b _ l1) by apply stored_write.
      rewrite (Htwice l l1 Hd Hv Hobj Hup). by rewrite write_write.
    + by rewrite (post_users_run E b d l Hl), Hup.
  - rewrite (post_users_no_array E b d Hno). cbv beta iota.
    by rewrite (post_users_no_array E b d Hno).
Qed.

(** X8. A request writes only the files of its route: GET routes write
    nothing, POST /api/reports only reports.json, POST /api/users only
    users.json, and verify and approve never write reports.json. *)
Theorem serve_writes_only (r : request) (d : disk) (p : path) :
  may_write r p = false → read (serve E r d).2 p = read d p.
Proof.
  intros Hw. destruct (serve_shape E r d) as (resp & d' & -> & _ & Hstep). cbn [snd].
  destruct r; cbn [route_step] in Hstep; try (by subst d');
    destruct p; try done; by destruct Hstep as (? & ? & ?).
Qed.

End UpsertRoute.

Lemma post_users_merges_witness :
  ∃ x', post_users refusing (ObjectBody [("name", JStr "Ava"); ("email", JStr "ava@example.org")])
          sample_store =
          (Ok (Response 200 (JObj [("status", JStr "ok")])),
           write sample_store users_json
             (Content (Parsed (JArr (<[0%nat := JObj x']>
                                       (settle <$> collection sample_store users_json)))))) ∧
        (∀ k v, k ≠ "__proto__" →
                get_own [("name", JStr "Ava"); ("email", JStr "ava@example.org")] k = Some v →
                get_own x' k = Some (settle v)) ∧
        (∀ k, get_own [("name", JStr "Ava"); ("email", JStr "ava@example.org")] k = None →
              get_own x' k =
                settle <$> get_own [("name", JStr "Ava"); ("points", JNum 20); ("co2", JNum 20)] k).
Proof.
  apply (post_users_merges refusing [("name", JStr "Ava"); ("email", JStr "ava@example.org")]
           sample_store 0 [("name", JStr "Ava"); ("points", JNum 20); ("co2", JNum 20)]);
    reflexivity.
Defined.

Lemma post_users_appends_witness :
  post_users refusing (ObjectBody [("name", JStr "Bo"); ("points", JNum 1); ("co2", JNum 2)])
    sample_store =
    (Ok (Response 200 (JObj [("status", JStr "ok")])),
     write sample_store users_json
       (Content (Parsed (JArr ((settle <$> [ava]) ++
          [payload_json (ObjectBody [("name", JStr "Bo"); ("points", JNum 1); ("co2", JNum 2)])]))))).
Proof.
  apply (post_users_appends refusing
           (ObjectBody [("name", JStr "Bo"); ("points", JNum 1); ("co2", JNum 2)])
           sample_store [ava]); reflexivity.
Defined.

Lemma post_users_twice_witness :
  (post_users refusing (ObjectBody [("name", JStr "Ava"); ("points", JNum 3)]) ;;
   post_users refusing (ObjectBody [("name", JStr "Ava"); ("points", JNum 3)])) sample_store =
  post_users refusing (ObjectBody [("name", JStr "Ava"); ("points", JNum 3)]) sample_store.
Proof.
  apply (post_users_twice refusing [("name", JStr "Ava"); ("points", JNum 3)] sample_store);
    reflexivity.
Defined.

Lemma serve_writes_only_witness :
  read (serve refusing (POST_verify noon (submission "Bo" "clean" photo)) sample_store).2
    reports_json = read sample_store reports_json.
Proof.
  apply (serve_writes_only refusing (POST_verify noon (submission "Bo" "clean" photo))
           sample_store reports_json). reflexivity.
Defined.

Section Invariants.

Variable E : value → payload → result json.

(** X9. No request changes or removes a stored report: every report stays
    at its index, written back as it was read (a number beyond the range of
    doubles as [null]); a report whose numbers are all finite stays as it
    is. *)
Theorem reports_append_only (r : request) (d : disk) (j : nat) (x : json) :
  collection d reports_json !! j = Some x →
  (collection (serve E r d).2 reports_json !! j = Some x ∨
   collection (serve E r d).2 reports_json !! j = Some (settle x)) ∧
  (all_finite x = true → collection (serve E r d).2 reports_json !! j = Some x).
Proof.
  intros Hx.
  assert (collection (serve E r d).2 reports_json !! j = Some x ∨
          collection (serve E r d).2 reports_json !! j = Some (settle x)) as H.
  { destruct (serve_shape E r d) as (resp & d' & -> & _ & Hstep). cbn [snd].
    assert (read d' reports_json = read d reports_json →
            collection d' reports_json !! j = Some x) as Hsame
      by (intros Hr; by rewrite (collection_read _ _ _ Hr)).
    destruct r; cbn [route_step] in Hstep; try (left; by subst d');
      try (left; apply Hsame; by destruct Hstep as (? & ? & ?)).
    destruct Hstep as ([Hr|(l' & Hr & y & _ & ->)] & _ & _); [left; by apply Hsame|].
    right. rewrite (collection_parsed _ _ _ Hr).
    rewrite lookup_app_l by (rewrite length_fmap; by eapply lookup_lt_Some).
    by rewrite list_lookup_fmap, Hx. }
  split; [done|]. intros Hfin. rewrite (settle_all_finite x Hfin) in H. by destruct H.
Qed.

(** X10. No request removes a stored verification or changes it, except
    that an object may get its status set to accepted: every element stays
    at its index, as it was, written back as it was read, or with
    [status: accepted]. *)
Theorem verification_records_only_accepted (r : request) (d : disk) (j : nat) (x : json) :
  collection d verifications_json !! j = Some x →
  collection (serve E r d).2 verifications_json !! j = Some x ∨
  collection (serve E r d).2 verifications_json !! j = Some (settle x) ∨
  ∃ o, x = JObj o ∧
       collection (serve E r d).2 verifications_json !! j =
         Some (JObj (set (settle_obj o) "status" (JStr "accepted"))).
Proof.
  intros Hx.
  destruct (serve_shape E r d) as (resp & d' & -> & _ & Hstep). cbn [snd].
  assert (read d' verifications_json = read d verifications_json →
          collection d' verifications_json !! j = Some x) as Hsame
    by (intros Hr; by rewrite (collection_read _ _ _ Hr)).
  assert (j < length (settle <$> collection d verifications_json))%nat as Hlt
    by (rewrite length_fmap; by eapply lookup_lt_Some).
  destruct r; cbn [route_step] in Hstep; try (left; by subst d');
    try (left; apply Hsame; by destruct Hstep as (? & ? & ?)).
  - destruct Hstep as (_ & _ & [Hr|(l' & Hr & y & _ & ->)]); [left; by apply Hsame|].
    right. left. rewrite (collection_parsed _ _ _ Hr).
    by rewrite lookup_app_l, list_lookup_fmap, Hx.
  - destruct Hstep as (_ & _ & [Hr|(l' & Hr & [->|(i & o & Ho & ->)])]);
      [left; by apply Hsame| |]; rewrite (collection_parsed _ _ _ Hr).
    + right. left. by rewrite list_lookup_fmap, Hx.
    + right. destruct (decide (j = i)) as [->|Hne].
      * right. exists o. split; [congruence|]. by rewrite list_lookup_insert_eq.
      * left. by rewrite list_lookup_insert_ne, list_lookup_fmap, Hx.
Qed.

(** X11. If every stored verification is an object with status pending or
    accepted, the same holds after any request. *)
Theorem statuses_stay_valid (r : request) (d : disk) :
  forallb status_ok (collection d verifications_json) = true →
  forallb status_ok (collection (serve E r d).2 verifications_json) = true.
Proof.
  intros Hok.
  destruct (serve_shape E r d) as (resp & d' & -> & _ & Hstep). cbn [snd].
  assert (read d' verifications_json = read d verifications_json →
          forallb status_ok (collection d' verifications_json) = true) as Hsame
    by (intros Hr; by rewrite (collection_read _ _ _ Hr)).
  assert (forallb status_ok (settle <$> collection d verifications_json) = true) as Hset.
  { rewrite forallb_forall in *. intros y Hy.
    apply list_elem_of_In, list_elem_of_fmap in Hy as (x & -> & Hin%list_elem_of_In).
    by apply status_ok_settle, Hok. }
  destruct r; cbn [route_step] in Hstep; try (by subst d');
    try (apply Hsame; by destruct Hstep as (? & ? & ?)).
  - destruct Hstep as (_ & _ & [Hr|(l' & Hr & y & Hy & ->)]); [by apply Hsame|].
    rewrite (collection_parsed _ _ _ Hr), forallb_app, Hset. cbn. by rewrite Hy.
  - destruct Hstep as (_ & _ & [Hr|(l' & Hr & [->|(i & o & Ho & ->)])]);
      [by apply Hsame| |]; rewrite (collection_parsed _ _ _ Hr); [done|].
    rewrite forallb_forall in *. intros y Hy.
    apply list_elem_of_In, list_elem_of_lookup in Hy as [k Hk].
    destruct (decide (k = i)) as [->|Hne].
    + destruct (decide (i < length (settle <$> collection d verifications_json))%nat).
      * rewrite list_lookup_insert_eq in Hk by done. injection Hk as <-.
        apply status_ok_accepted.
      * rewrite list_insert_ge in Hk by lia. apply Hset, list_elem_of_In.
        by eapply list_elem_of_lookup_2.
    + rewrite list_lookup_insert_ne in Hk by done. apply Hset, list_elem_of_In.
      by eapply list_elem_of_lookup_2.
Qed.

(** X12. No request removes a ledger entry, moves it to another index, or
    changes its name: an entry that is an object stays an object at its
    index, and its name is as it was, or as it is written back (for an
    upsert body with one property per key). *)
Theorem users_keep_place_and_name (r : request) (d : disk) (j : nat) (x : jobj) :
  well_formed r = true →
  collection d users_json !! j = Some (JObj x) →
  ∃ x', collection (serve E r d).2 users_json !! j = Some (JObj x') ∧
        (get_own x' "name" = get_own x "name" ∨
         get_own x' "name" = settle <$> get_own x "name").
Proof.
  intros Hwf Hx.
  destruct (serve_shape E r d) as (resp & d' & -> & _ & Hstep). cbn [snd].
  set (l := collection d users_json) in *.
  assert (read d' users_json = read d users_json →
          ∃ x', collection d' users_json !! j = Some (JObj x') ∧
                (get_own x' "name" = get_own x "name" ∨
                 get_own x' "name" = settle <$> get_own x "name")) as Hsame.
  { intros Hr. exists x. rewrite (collection_read _ _ _ Hr). auto. }
  assert (j < length (settle <$> l))%nat as Hlt
    by (rewrite length_fmap; by eapply lookup_lt_Some).
  assert ((settle <$> l) !! j = Some (JObj (settle_obj x))) as Hsx
    by (by rewrite list_lookup_fmap, Hx).
  assert (∀ l' : list json, l' !! j = Some (JObj (settle_obj x)) →
            ∃ x', l' !! j = Some (JObj x') ∧
                  (get_own x' "name" = get_own x "name" ∨
                   get_own x' "name" = settle <$> get_own x "name")) as Hsettled.
  { intros l' Hl'. exists (settle_obj x). split; [done|]. right. apply get_own_settle. }
  assert (∀ user l', credit_outcome user l l' →
            ∃ x', l' !! j = Some (JObj x') ∧
                  (get_own x' "name" = get_own x "name" ∨
                   get_own x' "name" = settle <$> get_own x "name")) as Hcredit.
  { intros user l' [(i & x0 & p & c & _ & Hi & ->)|[->|(ap & ac & _ & ->)]].
    - destruct (decide (j = i)) as [->|Hne].
      + rewrite Hx in Hi. injection Hi as <-. eexists.
        rewrite list_lookup_insert_eq by done. split; [done|]. right.
        by rewrite !get_own_set_ne, get_own_settle.
      + apply Hsettled. by rewrite list_lookup_insert_ne.
    - by apply Hsettled.
    - apply Hsettled. by rewrite lookup_app_l. }
  destruct r; cbn [route_step] in Hstep; try (apply Hsame; by subst d');
    try (apply Hsame; by destruct Hstep as (? & ? & ?)).
  - (* POST /api/users *)
    destruct Hstep as (_ & [Hr|(l' & Hr & Hup)] & _); [by apply Hsame|].
    rewrite (collection_parsed _ _ _ Hr). fold l in Hup. unfold upserted in Hup.
    destruct b as [|u|a].
    + destruct l; [done|done].
    + destruct (find_from _ l) as [[i|]|] eqn:Hf; [| |done].
      * apply find_from_Some in Hf. destruct (first_at_lookup _ _ _ Hf) as (e & He & Hn).
        rewrite He in Hup. destruct (decide (j = i)) as [->|Hne].
        -- rewrite Hx in He. injection He as <-. injection Hup as <-. eexists.
           rewrite list_lookup_insert_eq by done. split; [done|]. right.
           by apply assign_name.
        -- destruct e as [| | | | |x0];
             [destruct (E _ _) as [j0|]; [|done]..|];
             injection Hup as <-; apply Hsettled; by rewrite list_lookup_insert_ne.
      * injection Hup as <-. apply Hsettled. by rewrite lookup_app_l.
    + destruct (find_from _ l) as [[i|]|] eqn:Hf; [| |done].
      * apply find_from_Some in Hf. destruct (first_at_lookup _ _ _ Hf) as (e & He & Hn).
        rewrite He in Hup. destruct (decide (j = i)) as [->|Hne].
        -- rewrite Hx in He. injection He as <-. injection Hup as <-. eexists.
           rewrite list_lookup_insert_eq by done. split; [done|]. right.
           by apply assign_name.
        -- destruct e as [| | | | |x0];
             [destruct (E _ _) as [j0|]; [|done]..|];
             injection Hup as <-; apply Hsettled; by rewrite list_lookup_insert_ne.
      * injection Hup as <-. apply Hsettled. by rewrite lookup_app_l.
  - destruct Hstep as (_ & [Hr|(l' & Hr & user & _ & Hout)] & _); [by apply Hsame|].
    rewrite (collection_parsed _ _ _ Hr). by eapply Hcredit.
  - destruct Hstep as (_ & [Hr|(l' & Hr & user & _ & Hout)] & _); [by apply Hsame|].
    rewrite (collection_parsed _ _ _ Hr). by eapply Hcredit.
Qed.

(** X13. A name other than [null] that at most one ledger entry has is
    still the name of at most one after any request, requests with
    inherited actions and failed credits included.  (For an upsert body with
    one property per key, and an engine whose [Object.assign] onto an array
    or a wrapped primitive is not written as an object.) *)
Theorem names_stay_unique (r : request) (d : disk) (v : value) :
  (∀ t u j, E t u = Ok j → is_obj j = false) →
  well_formed r = true →
  is_null v = false →
  (count_named v (collection d users_json) ≤ 1)%nat →
  (count_named v (collection (serve E r d).2 users_json) ≤ 1)%nat.
Proof.
  intros HE Hwf Hv Hcount.
  destruct (serve_shape E r d) as (resp & d' & -> & _ & Hstep). cbn [snd].
  set (l := collection d users_json) in *.
  assert (read d' users_json = read d users_json →
          (count_named v (collection d' users_json) ≤ 1)%nat) as Hsame
    by (intros Hr; by rewrite (collection_read _ _ _ Hr)).
  assert (count_named v (settle <$> l) ≤ 1)%nat as Hset
    by (etrans; [by apply count_named_le, settled_names|done]).
  assert (∀ i x y, l !! i = Some x → (name_is v y = true → name_is v x = true) →
            (count_named v (<[i := y]> (settle <$> l)) ≤ 1)%nat) as Hins.
  { intros i x y Hx Hy. etrans; [by eapply count_named_le, replaced_names|done]. }
  assert (∀ u y, none_of (named u) l = true → (name_is v y = true → u = v) →
            (count_named v ((settle <$> l) ++ [y]) ≤ 1)%nat) as Hadd.
  { intros u y Hnone Hy. rewrite count_named_app, count_named_one.
    destruct (name_is v y) eqn:Hn; [|lia].
    rewrite Hy in Hnone by done. rewrite none_named_settled by done. lia. }
  assert (∀ user l', is_native user = false → credit_outcome user l l' →
            (count_named v l' ≤ 1)%nat) as Hcredit.
  { intros user l' Hnat [(i & x0 & p & c & _ & Hi & ->)|[->|(ap & ac & Hnone & ->)]].
    - apply (Hins i (JObj x0)); [done|]. rewrite name_is_credited.
      change (JObj (settle_obj x0)) with (settle (JObj x0)). by apply name_is_settle_le.
    - done.
    - apply (Hadd user); [done|]. by apply new_entry_name. }
  destruct r; cbn [route_step] in Hstep; try (apply Hsame; by subst d');
    try (apply Hsame; by destruct Hstep as (? & ? & ?)).
  - (* POST /api/users *)
    destruct Hstep as (_ & [Hr|(l' & Hr & Hup)] & _); [by apply Hsame|].
    rewrite (collection_parsed _ _ _ Hr). fold l in Hup. unfold upserted in Hup.
    destruct (has_body b) eqn:Hb.
    2:{ destruct b; try done. destruct l; [|done]. by injection Hup as <-. }
    assert (match find_from (named (field b "name")) l with
            | Ok (Some i) =>
                match l !! i with
                | Some (JObj x) => Ok (<[i := JObj (assign x b)]> (settle <$> l))
                | Some e => j ← E (thaw e) b; Ok (<[i := settle j]> (settle <$> l))
                | None => Throw
                end
            | Ok None => Ok ((settle <$> l) ++ [payload_json b])
            | Throw => Throw
            end = Ok l') as Hup' by (by destruct b).
    clear Hup. destruct (find_from _ l) as [[i|]|] eqn:Hf; [| |done].
    + apply find_from_Some in Hf. destruct (first_at_lookup _ _ _ Hf) as (e & He & Hn).
      rewrite He in Hup'. destruct (is_obj e) eqn:Hobj.
      * destruct e as [| | | | |x]; try done. injection Hup' as <-.
        apply (Hins i (JObj x)); [done|].
        rewrite (name_is_by_name v (settle_obj x) (assign x b))
          by (rewrite get_own_settle; by apply assign_name).
        change (JObj (settle_obj x)) with (settle (JObj x)). by apply name_is_settle_le.
      * assert (∃ j0, E (thaw e) b = Ok j0 ∧ l' = <[i := settle j0]> (settle <$> l))
          as (j0 & Hj0 & ->).
        { destruct e; try done; destruct (E _ b) as [j0|]; try done;
            injection Hup' as <-; by eexists. }
        apply (Hins i e); [done|]. intros Hname.
        assert (is_obj (settle j0) = false) as Hs
          by (apply HE in Hj0; destruct j0 as [| |n| | |]; try done; cbn; by destruct (is_finite n)).
        apply (name_is_no_object _ _ Hs) in Hname as ->.
        by eapply name_is_undefined.
    + apply find_from_None in Hf. injection Hup' as <-.
      apply (Hadd (field b "name")); [done|]. by apply payload_name.
  - destruct Hstep as (_ & [Hr|(l' & Hr & user & Hnat & Hout)] & _); [by apply Hsame|].
    rewrite (collection_parsed _ _ _ Hr). by eapply Hcredit.
  - destruct Hstep as (_ & [Hr|(l' & Hr & user & Hnat & Hout)] & _); [by apply Hsame|].
    rewrite (collection_parsed _ _ _ Hr). by eapply Hcredit.
Qed.

End Invariants.

Lemma reports_append_only_witness :
  (collection (serve refusing (POST_reports noon (ObjectBody [("place", JStr "beach")])) reported).2
     reports_json !! 0%nat = Some (JObj [("place", JStr "river"); ("id", JNum 900)]) ∨
   collection (serve refusing (POST_reports noon (ObjectBody [("place", JStr "beach")])) reported).2
     reports_json !! 0%nat = Some (settle (JObj [("place", JStr "river"); ("id", JNum 900)]))) ∧
  (all_finite (JObj [("place", JStr "river"); ("id", JNum 900)]) = true →
   collection (serve refusing (POST_reports noon (ObjectBody [("place", JStr "beach")])) reported).2
     reports_json !! 0%nat = Some (JObj [("place", JStr "river"); ("id", JNum 900)])).
Proof.
  apply (reports_append_only refusing (POST_reports noon (ObjectBody [("place", JStr "beach")]))
           reported 0 (JObj [("place", JStr "river"); ("id", JNum 900)])). reflexivity.
Defined.

Lemma verification_records_only_accepted_witness :
  collection (serve refusing (POST_approve (ObjectBody [("id", JNum 2000)])) queue).2
    verifications_json !! 1%nat = Some bo_pending ∨
  collection (serve refusing (POST_approve (ObjectBody [("id", JNum 2000)])) queue).2
    verifications_json !! 1%nat = Some (settle bo_pending) ∨
  ∃ o, bo_pending = JObj o ∧
       collection (serve refusing (POST_approve (ObjectBody [("id", JNum 2000)])) queue).2
         verifications_json !! 1%nat =
         Some (JObj (set (settle_obj o) "status" (JStr "accepted"))).
Proof.
  apply (verification_records_only_accepted refusing
           (POST_approve (ObjectBody [("id", JNum 2000)])) queue 1 bo_pending). reflexivity.
Defined.

Lemma statuses_stay_valid_witness :
  forallb status_ok
    (collection (serve refusing (POST_approve (ObjectBody [("id", JNum 2000)])) queue).2
       verifications_json) = true.
Proof.
  apply (statuses_stay_valid refusing (POST_approve (ObjectBody [("id", JNum 2000)])) queue).
  reflexivity.
Defined.

Lemma users_keep_place_and_name_witness :
  ∃ x', collection (serve refusing (POST_users (ObjectBody [("name", JStr "Ava");
                                                           ("points", JNum 1)]))
                      sample_store).2 users_json !! 0%nat = Some (JObj x') ∧
        (get_own x' "name" =
           get_own [("name", JStr "Ava"); ("points", JNum 20); ("co2", JNum 20)] "name" ∨
         get_own x' "name" =
           settle <$> get_own [("name", JStr "Ava"); ("points", JNum 20); ("co2", JNum 20)] "name").
Proof.
  apply (users_keep_place_and_name refusing
           (POST_users (ObjectBody [("name", JStr "Ava"); ("points", JNum 1)])) sample_store 0
           [("name", JStr "Ava"); ("points", JNum 20); ("co2", JNum 20)]); reflexivity.
Defined.

Lemma names_stay_unique_witness :
  (count_named (VStr "Ava")
     (collection (serve refusing (POST_verify (Clock 1001 "2024-06-01T12:00:01.000Z")
                                    (submission "Ava" "constructor" photo))
                    sample_store).2 users_json) ≤ 1)%nat.
Proof.
  apply (names_stay_unique refusing
           (POST_verify (Clock 1001 "2024-06-01T12:00:01.000Z")
              (submission "Ava" "constructor" photo))
           sample_store (VStr "Ava")); [intros t u j H; discriminate H|reflexivity|reflexivity|].
  vm_compute. lia.
Defined.

Section Workflow.





End Workflow.

Section Paths.

Lemma accepted_record (c : clock) (u a : string) (f : upload) :
  match record_of c u a f "pending" with
  | JObj x => JObj (set (settle_obj x) "status" (JStr "accepted"))
  | j => j
  end = record_of c u a f "accepted".
Proof. reflexivity. Qed.

Lemma has_id_new (c : clock) (u a : string) (f : upload) (st : string) :
  has_id (VNum (now c)) (record_of c u a f st) = Ok true.
Proof.
  unfold has_id, record_of. cbn. by rewrite Z.eqb_refl.
Qed.

(** X16. Submitting a small upload, which is left pending, and then
    approving it by the id that was returned leaves the three files exactly
    as an upload above 2048 bytes of the same submission would have, when
    user and action are non-empty strings, the stored verifications hold no
    number beyond the range of doubles, and the id of none of them is
    loosely equal to the new id (each comparison completing with false). *)
Theorem pending_then_approve_is_accept (c : clock) (u a : string) (f : upload) (big : Z)
    (d : disk) :
  String.eqb u "" = false →
  String.eqb a "" = false →
  (size f ≤ 2048) →
  (2048 < big) →
  forallb all_finite (collection d verifications_json) = true →
  none_of (has_id (VNum (now c))) (collection d verifications_json) = true →
  ((post_verify c (submission u a f) ;;
    post_approve (ObjectBody [("id", JNum (now c))])) d).2 =
  (post_verify c (submission u a (Upload big (filename f) (originalname f))) d).2.
Proof.
  intros Hu Ha Hsmall Hbig Hfin Hnone. unfold submission.
  set (b := ObjectBody [("user", JStr u); ("action", JStr a)]).
  assert (truthy (field b "user") = true) as Htu by (by apply truthy_text).
  assert (truthy (field b "action") = true) as Hta by (by apply truthy_text).
  rewrite bind_run.
  rewrite !(post_verify_run c b _ d eq_refl Htu Hta). cbn zeta.
  change (field b "user") with (VStr u). change (field b "action") with (VStr a).
  destruct (stored_array_dec d verifications_json) as [[l Hl]|Hno].
  2:{ assert (post_approve (ObjectBody [("id", JNum (now c))]) d = (Ok error_500, d)) as Hap
        by (by apply post_approve_no_array).
      destruct (stored d verifications_json) as [| | | |l|o];
        try (cbv beta iota; by rewrite Hap). by destruct (Hno l). }
  rewrite Hl. rewrite (stored_collection _ _ _ Hl) in Hfin, Hnone.
  rewrite !record_json. cbn [size filename originalname].
  assert ((2048 <? size f) = false) as -> by (apply Z.ltb_ge; lia).
  assert ((2048 <? big) = true) as -> by (apply Z.ltb_lt; lia).
  cbv beta iota. rewrite (settle_all_same l Hfin).
  set (pending := record_of c u a f "pending").
  set (d1 := write d verifications_json (Content (Parsed (JArr (l ++ [pending]))))).
  assert (first_at (has_id (field (ObjectBody [("id", JNum (now c))]) "id")) (l ++ [pending])
            (length l) = true) as Hat.
  { unfold first_at. rewrite take_app_length.
    change (field _ "id") with (VNum (now c)). unfold none_of in Hnone. rewrite Hnone.
    rewrite lookup_app_r, Nat.sub_diag by done. cbn [lookup list_lookup].
    unfold pending. by rewrite has_id_new. }
  rewrite (post_approve_found (ObjectBody [("id", JNum (now c))]) d1 (l ++ [pending]) (length l)
             [ ("id", JNum (now c)); ("user", JStr u); ("action", JStr a);
               ("filename", JStr (filename f)); ("originalName", JStr (originalname f));
               ("status", JStr "pending"); ("timestamp", JStr (iso c)) ]);
    [|done|apply stored_write|exact Hat|by rewrite lookup_app_r, Nat.sub_diag].
  cbn zeta. unfold d1. rewrite write_write.
  rewrite fmap_app, (settle_all_same l Hfin). cbn [fmap list_fmap].
  replace (<[length l := _]> (l ++ [settle pending]))
    with (l ++ [record_of c u a (Upload big (filename f) (originalname f)) "accepted"]).
  2:{ rewrite insert_app_r_alt, Nat.sub_diag by done. reflexivity. }
  rewrite <- award_paths_same, approve_credit_same.
  change (get (thaw_obj _) "action") with (VStr a).
  change (get (thaw_obj _) "user") with (VStr u).
  destruct (verify_award (VStr a)) as [award|]; [|done].
  by destruct (verify_credit (VStr u) award _) as [[[]|] d2].
Qed.

Lemma pending_then_approve_is_accept_witness :
  ((post_verify (Clock 3000 "2024-06-03T10:00:00.000Z")
      (submission "Bo" "clean" (Upload 900 "3000-1.jpg" "beach.jpg")) ;;
    post_approve (ObjectBody [("id", JNum 3000)])) sample_store).2 =
  (post_verify (Clock 3000 "2024-06-03T10:00:00.000Z")
     (submission "Bo" "clean" (Upload 4096 "3000-1.jpg" "beach.jpg")) sample_store).2.
Proof.
  apply (pending_then_approve_is_accept (Clock 3000 "2024-06-03T10:00:00.000Z") "Bo" "clean"
           (Upload 900 "3000-1.jpg" "beach.jpg") 4096 sample_store);
    first [reflexivity | cbn; lia].
Defined.

(** X17. There is no rollback.  When the entry of the user keeps as points
    an object with a [toString] property of its own (so that [+] throws), an
    upload above 2048 bytes of a submission whose user and action are
    non-empty strings is answered 500 and the ledger is as it was, yet the
    accepted verification has been written. *)
Theorem failed_credit_leaves_record (c : clock) (u a : string) (f : upload) (d : disk)
    (l : list json) (i : nat) (x : jobj) (o : jobj) :
  let ledger := collection d users_json in
  String.eqb u "" = false →
  String.eqb a "" = false →
  (2048 < size f) →
  stored d verifications_json = JArr l →
  first_at (named (VStr u)) ledger i = true →
  ledger !! i = Some (JObj x) →
  get_own x "points" = Some (JObj o) →
  has_key o "toString" = true →
  post_verify c (submission u a f) d =
    (Ok (Response 500 (JObj [("status", JStr "error")])),
     write d verifications_json
       (Content (Parsed (JArr ((settle <$> l) ++ [record_of c u a f "accepted"]))))).
Proof.
  intros ledger Hu Ha Hbig Hl Hi Hx Hp Ho. unfold submission.
  set (b := ObjectBody [("user", JStr u); ("action", JStr a)]).
  assert (truthy (field b "user") = true) as Htu by (by apply truthy_text).
  assert (truthy (field b "action") = true) as Hta by (by apply truthy_text).
  rewrite (post_verify_run c b f d eq_refl Htu Hta). cbn zeta. rewrite Hl.
  change (field b "user") with (VStr u). change (field b "action") with (VStr a).
  rewrite record_json.
  assert ((2048 <? size f) = true) as -> by (apply Z.ltb_lt; lia).
  destruct (verify_award_readable a) as (w & -> & ap & ac & Hap & Hac).
  pose proof (collection_stored _ _ _ _ Hx) as Hus. fold ledger in Hus.
  set (d1 := write d verifications_json _).
  assert (stored d1 users_json = JArr ledger) as Hus1
    by (unfold d1; by rewrite stored_write_ne).
  assert (js_add (js_or (get (thaw_obj x) "points") (VNum 0)) ap = Throw) as Hadd
    by (rewrite get_thaw_obj, Hp; by apply add_to_object).
  by rewrite (verify_credit_points_throw (VStr u) w ap d1 ledger i x Hus1 Hi Hx Hap Hadd).
Qed.

Lemma failed_credit_leaves_record_witness :
  post_verify noon (submission "Ava" "plant" photo) broken_ledger =
    (Ok (Response 500 (JObj [("status", JStr "error")])),
     write broken_ledger verifications_json
       (Content (Parsed (JArr ((settle <$> []) ++ [record_of noon "Ava" "plant" photo "accepted"]))))).
Proof.
  apply (failed_credit_leaves_record noon "Ava" "plant" photo broken_ledger [] 0
           [("name", JStr "Ava"); ("points", JObj [("toString", JNum 1)]); ("co2", JNum 1)]
           [("toString", JNum 1)]); first [reflexivity | cbn; lia].
Defined.

(** X18. An approval whose body has no id is answered 404 and leaves the
    disk as it was, when the verifications file holds an array (or is
    absent or unparseable) and every stored verification is an object with
    an id of its own that is not null. *)
Theorem approve_without_id (o : jobj) (d : disk) :
  get_own o "id" = None →
  is_array (stored d verifications_json) = true →
  forallb has_real_id (collection d verifications_json) = true →
  post_approve (ObjectBody o) d =
    (Ok (Response 404 (JObj [("status", JStr "error"); ("message", JStr "Not found")])), d).
Proof.
  intros Hid Harr Hreal.
  apply (post_approve_not_found (ObjectBody o) d (collection d verifications_json));
    [done|by apply collection_array|].
  rewrite field_object, Hid. by apply real_ids_unmatched.
Qed.

Lemma approve_without_id_witness :
  post_approve (ObjectBody [("ID", JNum 1000)]) sample_store =
    (Ok (Response 404 (JObj [("status", JStr "error"); ("message", JStr "Not found")])),
     sample_store).
Proof.
  apply (approve_without_id [("ID", JNum 1000)] sample_store); reflexivity.
Defined.

(** X19. For every action whose lower-case form is neither [constructor]
    nor [__proto__], the auto-accept path and the approve path compute the
    same award {n, n}, with n = 20, 10, 5 for plant, clean, awareness in any
    letter case and 0 otherwise. *)
Theorem award_of_plain_action (s : string) :
  inherited (toLowerCase s) = false →
  let n := amount_for (toLowerCase s) in
  verify_award (VStr s) = Ok (thaw (award_obj n)) ∧
  approve_award (VStr s) = Ok (thaw (award_obj n)) ∧
  n ∈ [20; 10; 5; 0].
Proof.
  intros H n. split_and!; [by apply verify_award_table|by apply approve_award_table|].
  unfold n, amount_for. repeat case_match; repeat constructor.
Qed.

Lemma award_of_plain_action_witness :
  verify_award (VStr "PLANT") = Ok (thaw (award_obj 20)) ∧
  approve_award (VStr "PLANT") = Ok (thaw (award_obj 20)) ∧
  20 ∈ [20; 10; 5; 0].
Proof.
  apply (award_of_plain_action "PLANT"). reflexivity.
Defined.



Variable E : value → payload → result json.

(** X21. Every request gets a response and no exception escapes a
    handler: the GET routes answer 200; POST /api/reports and POST
    /api/users answer 200 or 500; verify answers 200, 400 or 500; approve
    answers 200, 404 or 500. *)
Theorem every_request_is_answered (r : request) (d : disk) :
  ∃ resp d', serve E r d = (Ok resp, d') ∧ status resp ∈ possible_statuses r.
Proof.
  destruct (serve_shape E r d) as (resp & d' & Hrun & Hin & _).
  exists resp, d'. split; [done|]. by apply list_elem_of_In.
Qed.

(** X22. A POST request to a route whose file holds JSON that is no array
    is answered 500 {status: error} and writes nothing (for verify, when
    the form is complete; for approve, when the request has a body), and
    so is a POST request without a body to reports, verify and approve. *)
Theorem post_needs_an_array (r : request) (d : disk) :
  match r with
  | POST_reports _ b => has_body b = false ∨ is_array (stored d reports_json) = false
  | POST_users _ => is_array (stored d users_json) = false
  | POST_verify _ req =>
      has_body (fields req) = false ∨
      (is_array (stored d verifications_json) = false ∧
       blank (field (fields req) "user") = false ∧
       blank (field (fields req) "action") = false ∧
       present (file req) = true)
  | POST_approve b => has_body b = false ∨ is_array (stored d verifications_json) = false
  | _ => False
  end →
  serve E r d = (Ok (Response 500 (JObj [("status", JStr "error")])), d).
Proof.
  destruct r as [|c b| |b|c [b f]| |b]; cbn [serve fields file]; try done.
  - intros [H|H]; apply post_reports_fails; [by left|right; by apply no_array].
  - intros H. by apply post_users_no_array, no_array.
  - intros [H|(Harr & Hu & Ha & Hf)].
    + destruct b; try done; apply post_verify_no_body.
    + apply negb_false_iff in Hu, Ha. destruct f as [f|]; [|done].
      destruct (has_body b) eqn:Hb; [|by destruct b].
      rewrite (post_verify_run c b f d Hb Hu Ha). cbn zeta.
      by destruct (stored d verifications_json).
  - intros [H|H].
    + destruct b; try done; apply post_approve_no_body.
    + by apply post_approve_no_array, no_array.
Qed.

End Paths.

Lemma post_needs_an_array_witness :
  serve refusing (POST_users (ObjectBody [("name", JStr "Ava")]))
    (Disk Absent (Content (Parsed (JObj []))) Absent) =
    (Ok (Response 500 (JObj [("status", JStr "error")])),
     Disk Absent (Content (Parsed (JObj []))) Absent).
Proof.
  apply (post_needs_an_array refusing (POST_users (ObjectBody [("name", JStr "Ava")]))
           (Disk Absent (Content (Parsed (JObj []))) Absent)). reflexivity.
Defined.
